(** * generate_tables.py: the table-normalising transform and its pipeline

    A shallow embedding of [generate_tables.py].  Python [bytes] are lists of
    [Byte.byte], Python [str] values are [string]s, [str.encode()] is
    [list_byte_of_string].  The built-in methods the script calls
    ([bytes.replace], [bytes.splitlines], [in], [bytes.join], list indexing)
    are written out as executable functions; exceptions are values of [exn]
    carried by the [result] monad. *)

From Stdlib Require Import Strings.Byte Strings.Ascii Strings.String.
From Stdlib Require Import ZArith Lia Permutation.
From stdpp Require Import base list strings gmap.

Local Open Scope string_scope.
Local Open Scope list_scope.

(** ** Python values *)

Abbreviation bytes := (list byte).

#[global] Instance byte_eq_dec : EqDecision byte := Byte.byte_eq_dec.

(** [s.encode()] on an ASCII [str]. *)
Definition encode (s : string) : bytes := list_byte_of_string s.

Definition LF : byte := x0a.
Definition CR : byte := x0d.
Definition DQUOTE : byte := x22.

(** Exceptions the script can end with. *)
Inductive exn : Type :=
  | TypeError (msg : string)
  | IndexError (msg : string)
  | FileExistsError (path : list string)
  | FileNotFoundError (path : list string)
  | NotADirectoryError (path : list string)
  | IsADirectoryError (path : list string)
  | SystemExit (status : Z)
  | External (name : string).

Inductive result (A : Type) : Type :=
  | Ok (a : A)
  | Raise (e : exn).
Arguments Ok {A} a.
Arguments Raise {A} e.

#[global] Instance result_ret : MRet result := fun A a => Ok a.
#[global] Instance result_bind : MBind result := fun A B k r =>
  match r with
  | Ok a => k a
  | Raise e => Raise e
  end.

(** ** Sequence methods *)

(** [s.startswith(p)]. *)
Fixpoint starts_with {A} `{EqDecision A} (p s : list A) : bool :=
  match p, s with
  | [], _ => true
  | _ :: _, [] => false
  | a :: p', b :: s' => if bool_decide (a = b) then starts_with p' s' else false
  end.

(** [p in s]: [p] occurs in [s] as a contiguous run. *)
Fixpoint contains {A} `{EqDecision A} (p s : list A) : bool :=
  if starts_with p s then true
  else
    match s with
    | [] => false
    | _ :: s' => contains p s'
    end.

(** The scan of [s.replace(old, new)] for a non-empty [old]: left to right,
    every occurrence that does not overlap an earlier one is replaced.
    [skip] counts the elements of the current occurrence still to drop. *)
Fixpoint replace_from {A} `{EqDecision A} (old new : list A) (skip : nat)
    (s : list A) : list A :=
  match s with
  | [] => []
  | b :: s' =>
    match skip with
    | S k => replace_from old new k s'
    | O =>
      if starts_with old s
      then new ++ replace_from old new (Nat.pred (length old)) s'
      else b :: replace_from old new 0 s'
    end
  end.

(** [s.replace(old, new)].  An empty [old] matches before every element and
    at the end. *)
Definition replace {A} `{EqDecision A} (old new s : list A) : list A :=
  match old with
  | [] => new ++ flat_map (fun b => b :: new) s
  | _ :: _ => replace_from old new 0 s
  end.
Arguments replace : simpl never.

(** ** bytes methods *)

Definition is_linebreak (b : byte) : bool :=
  bool_decide (b = LF) || bool_decide (b = CR).

(** [code.splitlines()] on bytes: lines end at LF, CR or CR LF; the line
    terminators are dropped and a terminator at the very end opens no further
    line.  [cur] is the line read so far. *)
Fixpoint splitlines_from (cur : bytes) (s : bytes) : list bytes :=
  match s with
  | [] => match cur with [] => [] | _ :: _ => [cur] end
  | b :: s' =>
    if bool_decide (b = LF) then cur :: splitlines_from [] s'
    else if bool_decide (b = CR) then
      match s' with
      | b' :: s'' =>
        if bool_decide (b' = LF) then cur :: splitlines_from [] s''
        else cur :: splitlines_from [] s'
      | [] => cur :: splitlines_from [] s'
      end
    else splitlines_from (cur ++ [b]) s'
  end.

Definition splitlines (s : bytes) : list bytes := splitlines_from [] s.

(** [sep.join(lines)]. *)
Fixpoint join (sep : bytes) (lines : list bytes) : bytes :=
  match lines with
  | [] => []
  | [l] => l
  | l :: ls => l ++ sep ++ join sep ls
  end.

(** ** str methods *)

Definition str_replace (old new s : string) : string :=
  string_of_list_ascii
    (replace (list_ascii_of_string old) (list_ascii_of_string new)
       (list_ascii_of_string s)).

(** ** generate_tables.py *)

(** [CATEGORIES], in the order the set literal lists its members.  Python
    enumerates a [set] of [str] in an order that changes from one interpreter
    run to the next, so the loop of [transform_code] takes the enumeration
    order as an argument. *)
Definition CATEGORIES : list string :=
  [ "Close_Punctuation"; "Connector_Punctuation"; "Control";
    "Currency_Symbol"; "Dash_Punctuation"; "Decimal_Number";
    "Enclosing_Mark"; "Final_Punctuation"; "Format"; "Initial_Punctuation";
    "Letter_Number"; "Line_Separator"; "Lowercase_Letter"; "Math_Symbol";
    "Modifier_Letter"; "Modifier_Symbol"; "Nonspacing_Mark";
    "Open_Punctuation"; "Other_Letter"; "Other_Number"; "Other_Punctuation";
    "Other_Symbol"; "Paragraph_Separator"; "Private_Use"; "Space_Separator";
    "Spacing_Mark"; "Surrogate"; "Titlecase_Letter"; "Unassigned";
    "Uppercase_Letter" ].

(** The first argument of [code.replace] in [transform_code]. *)
Definition BY_NAME_PAIRS : bytes := Eval cbv in
  encode "pub const BY_NAME: &'static [(&'static str, &'static [(u32, u32)])]".

(** The second argument of [code.replace] in [transform_code]. *)
Definition BY_NAME_TABLES : bytes := Eval cbv in
  encode "pub const BY_NAME: &'static [&'static [(u32, u32)]]".

(** The f-string [(\"{category}\", ] with its trailing blank. *)
Definition pair_opening (category : string) : string :=
  "(" ++ String "034" category ++ String "034" ", ".

Definition PAIR_CLOSING : bytes := Eval cbv in encode "),".
Definition COMMA : bytes := Eval cbv in encode ",".

(** The right-hand side of the assignment to [lines[idx]]. *)
Definition unwrap (category : string) (line : bytes) : bytes :=
  replace PAIR_CLOSING COMMA (replace (encode (pair_opening category)) [] line).

(** What CPython reports for [lines[None]]. *)
Definition NONE_INDEX : string :=
  "list indices must be integers or slices, not NoneType".

(** [next((i for i, line in enumerate(lines) if category.encode() in line), None)] *)
Definition first_line_with (category : string) (lines : list bytes) : option nat :=
  fst <$> list_find (fun line => Is_true (contains (encode category) line)) lines.

(** One turn of the loop over the categories. *)
Definition rewrite_category (category : string) (lines : list bytes)
    : result (list bytes) :=
  match first_line_with category lines with
  | None => Raise (TypeError NONE_INDEX)
  | Some idx =>
    match lines !! idx with
    | Some line => Ok (<[idx := unwrap category line]> lines)
    | None => Raise (IndexError "list index out of range")
    end
  end.

Fixpoint rewrite_categories (order : list string) (lines : list bytes)
    : result (list bytes) :=
  match order with
  | [] => Ok lines
  | category :: rest =>
    lines' ← rewrite_category category lines;
    rewrite_categories rest lines'
  end.

(** [transform_code], with the order in which [CATEGORIES] is enumerated. *)
Definition transform_code (order : list string) (code : bytes) : result bytes :=
  let code := replace BY_NAME_PAIRS BY_NAME_TABLES code in
  let lines := splitlines code in
  lines ← rewrite_categories order lines;
  Ok (join [LF] lines).

(** ** pathlib, on POSIX *)

(** [s.split(sep)] for a one-character separator. *)
Fixpoint split_from (sep : ascii) (cur s : string) : list string :=
  match s with
  | EmptyString => [cur]
  | String c s' =>
    if Ascii.eqb c sep then cur :: split_from sep "" s'
    else split_from sep (cur ++ String c "") s'
  end.

Definition str_split (sep : ascii) (s : string) : list string :=
  split_from sep "" s.

(** A pure POSIX path: the root ([""], ["/"] or ["//"]) and the components. *)
Record Path : Type := { root : string; parts : list string }.

#[global] Instance Path_eq_dec : EqDecision Path.
Proof. solve_decision. Defined.

#[global] Instance Path_countable : Countable Path :=
  inj_countable' (fun p => (root p, parts p))
    (fun rp => {| root := fst rp; parts := snd rp |})
    (fun p => match p with Build_Path _ _ => eq_refl end).

Definition root_of (s : string) : string :=
  match s with
  | String "/" (String "/" (String "/" _)) => "/"
  | String "/" (String "/" _) => "//"
  | String "/" _ => "/"
  | _ => ""
  end.

Definition is_component (x : string) : bool :=
  negb (String.eqb x "") && negb (String.eqb x ".").

(** [pathlib.Path(s)]: empty and ["."] components are dropped. *)
Definition path_of (s : string) : Path :=
  {| root := root_of s; parts := List.filter is_component (str_split "/" s) |}.

(** [p / key] *)
Definition truediv (p : Path) (key : string) : Path :=
  let q := path_of key in
  if String.eqb (root q) "" then {| root := root p; parts := parts p ++ parts q |}
  else q.

(** [str(p)] *)
Definition path_str (p : Path) : string :=
  match root p, parts p with
  | "", [] => "."
  | r, ps => r ++ String.concat "/" ps
  end.

(** [p.parent] *)
Definition parent (p : Path) : Path :=
  {| root := root p; parts := removelast (parts p) |}.

(** ** The working directory tree, standard output and the outside world *)

Inductive node : Type :=
  | Dir
  | File (content : bytes).

(** Calls that leave the process. *)
Inductive call : Type :=
  | Mkdtemp
  | UrlRetrieve (url : string)
  | ExtractAll (archive directory : string)
  | Run (command : string).

Record world : Type := {
  w_fs : gmap Path node;
  w_stdout : list string;
  w_calls : list call
}.

(** The script's effects: a state over [world] with exceptions; what was done
    before an exception stays done. *)
Definition M (A : Type) : Type := world -> result A * world.

#[global] Instance M_ret : MRet M := fun A a w => (Ok a, w).
#[global] Instance M_bind : MBind M := fun A B k m w =>
  match m w with
  | (Ok a, w') => k a w'
  | (Raise e, w') => (Raise e, w')
  end.

Definition raise {A} (e : exn) : M A := fun w => (Raise e, w).
Definition lift {A} (r : result A) : M A := fun w => (r, w).

Definition get_fs : M (gmap Path node) := fun w => (Ok (w_fs w), w).
Definition put_fs (fs : gmap Path node) : M unit := fun w =>
  (Ok tt, {| w_fs := fs; w_stdout := w_stdout w; w_calls := w_calls w |}).
Definition print (s : string) : M unit := fun w =>
  (Ok tt, {| w_fs := w_fs w; w_stdout := w_stdout w ++ [s]; w_calls := w_calls w |}).
Definition log (c : call) : M unit := fun w =>
  (Ok tt, {| w_fs := w_fs w; w_stdout := w_stdout w; w_calls := w_calls w ++ [c] |}).

(** [sys.exit(status)] *)
Definition sys_exit {A} (status : Z) : M A := raise (SystemExit status).

(** The working directory itself is a directory. *)
Definition is_dir (fs : gmap Path node) (p : Path) : bool :=
  match parts p with
  | [] => true
  | _ :: _ => match fs !! p with Some Dir => true | _ => false end
  end.

(** [os.mkdir(p)] *)
Definition os_mkdir (p : Path) : M unit :=
  fs ← get_fs;
  match parts p, fs !! p with
  | [], _ | _, Some _ => raise (FileExistsError (parts p))
  | _, None =>
    if is_dir fs (parent p) then put_fs (<[p := Dir]> fs)
    else match fs !! parent p with
         | Some (File _) => raise (NotADirectoryError (parts p))
         | _ => raise (FileNotFoundError (parts p))
         end
  end.

(** The [except OSError] branch of [Path.mkdir] with [exist_ok=True]. *)
Definition mkdir_exist_ok (p : Path) : M unit := fun w =>
  match os_mkdir p w with
  | (Raise (FileNotFoundError q), w') => (Raise (FileNotFoundError q), w')
  | (Raise e, w') => if is_dir (w_fs w') p then (Ok tt, w') else (Raise e, w')
  | done => done
  end.

(** [p.mkdir(parents=True, exist_ok=True)]; [depth] bounds the climb to the
    parents and is the number of components of [p]. *)
Fixpoint mkdir_parents (depth : nat) (p : Path) : M unit := fun w =>
  match os_mkdir p w with
  | (Raise (FileNotFoundError q), w') =>
    match depth with
    | O => (Raise (FileNotFoundError q), w')
    | S d =>
      if bool_decide (parent p = p) then (Raise (FileNotFoundError q), w')
      else (mkdir_parents d (parent p);; mkdir_exist_ok p) w'
    end
  | (Raise e, w') => if is_dir (w_fs w') p then (Ok tt, w') else (Raise e, w')
  | done => done
  end.

Definition mkdir (p : Path) : M unit := mkdir_parents (length (parts p)) p.

(** [p.open("wb")]: the file is created, or emptied when it is there. *)
Definition open_wb (p : Path) : M unit :=
  fs ← get_fs;
  match fs !! p with
  | Some Dir => raise (IsADirectoryError (parts p))
  | _ =>
    if is_dir fs p then raise (IsADirectoryError (parts p))
    else if is_dir fs (parent p) then put_fs (<[p := File []]> fs)
    else match fs !! parent p with
         | Some (File _) => raise (NotADirectoryError (parts p))
         | _ => raise (FileNotFoundError (parts p))
         end
  end.

(** [fd.write(code)] on the file opened at [p]. *)
Definition write (p : Path) (code : bytes) : M unit :=
  fs ← get_fs; put_fs (<[p := File code]> fs).

(** ** The collaborators outside the script

    What the standard library calls answer is not decided by the script:
    [tempfile.mkdtemp], [urllib.request.urlretrieve], [ZipFile.extractall]
    and [subprocess.run] either return or raise.  Their files live in the
    temporary directory, outside the working directory tree of [w_fs]. *)
Record outside : Type := {
  enumeration : list string;                 (* the order of [for category in CATEGORIES] *)
  mkdtemp_answer : result string;
  urlretrieve_answer : string -> result string;
  extractall_answer : string -> string -> result unit;
  run_answer : string -> result bytes        (* captured standard output *)
}.

Definition mkdtemp (env : outside) : M string :=
  log Mkdtemp;; lift (mkdtemp_answer env).

Definition fetch (env : outside) (unicode_version directory : string) : M unit :=
  let url :=
    ("https://www.unicode.org/Public/zipped/" ++ unicode_version ++ "/UCD.zip")%string in
  log (UrlRetrieve url);;
  response ← lift (urlretrieve_answer env url);
  log (ExtractAll response directory);;
  lift (extractall_answer env response directory).

Definition EXCLUDE : string :=
  "--exclude=Separator,Symbol,Cased_Letter,Letter,Mark,Number,Other,Punctuation".

Definition ucd_generate_command (directory : string) : string :=
  "ucd-generate general-category " ++ directory ++ " " ++ EXCLUDE.

Definition ucd_generate (env : outside) (directory : string) : M bytes :=
  log (Run (ucd_generate_command directory));;
  lift (run_answer env (ucd_generate_command directory)).

Definition get_output_path (unicode_version : string) : M Path :=
  let tables_directory := path_of "src/tables" in
  mkdir tables_directory;;
  let version := str_replace "." "_" unicode_version in
  mret (truediv tables_directory ("v" ++ version ++ ".rs")%string).

Definition USAGE : string := "Usage: python generate_tables.py <unicode version>".

(** [sys.argv[i]] *)
Definition argv_get (argv : list string) (i : nat) : M string :=
  match argv !! i with
  | Some a => mret a
  | None => raise (IndexError "list index out of range")
  end.

Definition main (env : outside) (argv : list string) : M unit :=
  (if bool_decide (length argv ≠ 2) then print USAGE;; sys_exit 1 else mret tt);;
  unicode_version ← argv_get argv 1;
  temp_directory ← mkdtemp env;
  fetch env unicode_version temp_directory;;
  code ← ucd_generate env temp_directory;
  code ← lift (transform_code (enumeration env) code);
  path ← get_output_path unicode_version;
  open_wb path;;
  write path code.

(** The status the interpreter exits with. *)
Definition exit_status (r : result unit) : Z :=
  match r with
  | Ok _ => 0
  | Raise (SystemExit status) => status
  | Raise _ => 1
  end.

(** ** Names used to state the properties *)

(** The aggregate general categories, unions of leaf categories. *)
Definition AGGREGATES : list string :=
  [ "Letter"; "Mark"; "Number"; "Punctuation"; "Symbol"; "Separator";
    "Cased_Letter"; "Other" ].

(** The names listed after [--exclude=] on the generator's command line. *)
Definition excluded_categories : list string :=
  str_split "," (substring 10 (String.length EXCLUDE - 10) EXCLUDE).

(** The part of [main] that comes before [get_output_path] is called. *)
Definition produce (env : outside) (unicode_version : string) : M bytes :=
  temp_directory ← mkdtemp env;
  fetch env unicode_version temp_directory;;
  code ← ucd_generate env temp_directory;
  lift (transform_code (enumeration env) code).

(** The part of [main] that comes after [transform_code] has returned. *)
Definition persist (unicode_version : string) (code : bytes) : M unit :=
  path ← get_output_path unicode_version;
  open_wb path;;
  write path code.

(** No line terminator occurs in [s]. *)
Definition line_free (s : bytes) : Prop :=
  Forall (fun b => is_linebreak b = false) s.

(** No occurrence of [old] can start inside [u], whatever follows [u]. *)
Fixpoint no_start {A} `{EqDecision A} (old u : list A) : bool :=
  match u with
  | [] => true
  | _ :: u' =>
    negb (starts_with old u) && negb (starts_with u old) && no_start old u'
  end.

(** [line'] comes from [line] by unwrapping it, zero or more times, for
    categories of [order] whose name the line holds at that moment. *)
Inductive rewritten (order : list string) : bytes -> bytes -> Prop :=
  | rewritten_refl line : rewritten order line line
  | rewritten_unwrap category line line' :
      category ∈ order ->
      contains (encode category) line = true ->
      rewritten order (unwrap category line) line' ->
      rewritten order line line'.

(** The category a line names: the first of [CATEGORIES] it holds. *)
Definition named (line : bytes) : option string :=
  List.find (fun category => contains (encode category) line) CATEGORIES.

(** [line] holds at most one category name, and unwrapping it for that
    category brings no other name into it. *)
Definition single_named (line : bytes) : bool :=
  forallb
    (fun c =>
       if contains (encode c) line
       then
         forallb
           (fun c' =>
              if String.eqb c' c then true
              else if contains (encode c') line then false
              else negb (contains (encode c') (unwrap c line)))
           CATEGORIES
       else true)
    CATEGORIES.

(** Every category name is on some line. *)
Definition every_name_present (lines : list bytes) : bool :=
  forallb (fun c => existsb (contains (encode c)) lines) CATEGORIES.

(** Line [i] of [lines] once the categories of [done] have had their turn:
    unwrapped for the category it names if it is the first line to name it. *)
Definition settle (done : list string) (lines : list bytes) (i : nat)
    (line : bytes) : bytes :=
  match named line with
  | Some c =>
    if bool_decide (c ∈ done) && bool_decide (first_line_with c lines = Some i)
    then unwrap c line
    else line
  | None => line
  end.

Definition settled (done : list string) (lines : list bytes) : list bytes :=
  imap (settle done lines) lines.

(** A run of [main] in which [fetch], [ucd_generate] or [transform_code]
    raises [e]. *)
Inductive raises_upstream (env : outside) (unicode_version : string)
    (w : world) (e : exn) : Prop :=
  | fetch_raises tmp w1 w2 :
      mkdtemp env w = (Ok tmp, w1) ->
      fetch env unicode_version tmp w1 = (Raise e, w2) ->
      raises_upstream env unicode_version w e
  | ucd_generate_raises tmp w1 w2 w3 :
      mkdtemp env w = (Ok tmp, w1) ->
      fetch env unicode_version tmp w1 = (Ok tt, w2) ->
      ucd_generate env tmp w2 = (Raise e, w3) ->
      raises_upstream env unicode_version w e
  | transform_code_raises tmp w1 w2 code w3 :
      mkdtemp env w = (Ok tmp, w1) ->
      fetch env unicode_version tmp w1 = (Ok tt, w2) ->
      ucd_generate env tmp w2 = (Ok code, w3) ->
      transform_code (enumeration env) code = Raise e ->
      raises_upstream env unicode_version w e.

(** A regular file stands at [p]. *)
Definition is_file (fs : gmap Path node) (p : Path) : bool :=
  match fs !! p with
  | Some (File _) => true
  | _ => false
  end.

Definition empty_world : world :=
  {| w_fs := ∅; w_stdout := []; w_calls := [] |}.

(** ** Sample generator outputs *)

Definition upper (c : ascii) : ascii :=
  let n := nat_of_ascii c in
  if (97 <=? n)%nat && (n <=? 122)%nat then ascii_of_nat (n - 32) else c.

(** The name of the table constant of a category, as [ucd-generate] spells
    it: the category name in capitals. *)
Fixpoint table_name (category : string) : string :=
  match category with
  | EmptyString => EmptyString
  | String c s => String (upper c) (table_name s)
  end.

(** A line of the by-name index. *)
Definition by_name_entry (category : string) (ranges : string) : bytes :=
  encode ("  " ++ pair_opening category ++ ranges ++ "),").

Definition header_lines : list bytes :=
  [ encode "// DO NOT EDIT THIS FILE. IT WAS AUTOMATICALLY GENERATED BY:";
    encode "//";
    encode "//   ucd-generate general-category /tmp/ucd --exclude=Separator,Symbol,Cased_Letter,Letter,Mark,Number,Other,Punctuation";
    encode "";
    BY_NAME_PAIRS ++ encode " = &[" ].

Definition footer_lines : list bytes :=
  [ encode "];";
    encode "";
    encode "pub const CONTROL: &'static [(u32, u32)] = &[";
    encode "  (0, 31), (127, 159),";
    encode "];" ].

(** A generated source with the entries [entries] in its index; every line
    ends with CR LF. *)
Definition source_with (entries : list bytes) : bytes :=
  concat (map (fun line => line ++ [CR; LF])
            (header_lines ++ entries ++ footer_lines)).

Definition all_entries : list bytes :=
  map (fun category => by_name_entry category (table_name category)) CATEGORIES.

(** The well-formed sample: one entry per category. *)
Definition SAMPLE : bytes := source_with all_entries.

(** What [transform_code] makes of the sample. *)
Definition SAMPLE_NORMALIZED : bytes := Eval vm_compute in
  match transform_code CATEGORIES SAMPLE with
  | Ok out => out
  | Raise _ => []
  end.

(** The sample without the entry of [Control]. *)
Definition SAMPLE_MISSING : bytes :=
  source_with
    (map (fun category => by_name_entry category (table_name category))
       (List.filter (fun category => negb (String.eqb category "Control")) CATEGORIES)).

(** The sample with a second line that holds [Control]. *)
Definition SAMPLE_TWICE : bytes :=
  source_with (all_entries ++ [encode "  // Control characters come last"]).

(** The sample with, ahead of the index entries, a line in which the pair
    opening of [Format] stands inside the letters of [Control]. *)
Definition SAMPLE_NESTED : bytes :=
  source_with (encode ("// Con" ++ pair_opening "Format" ++ "trol") :: all_entries).

(** The sample in which the entry of [Control] holds its ranges in line. *)
Definition SAMPLE_INLINE : bytes :=
  source_with
    (map (fun category =>
            if String.eqb category "Control"
            then by_name_entry category "&[(0, 31), (127, 159)]"
            else by_name_entry category (table_name category))
       CATEGORIES).

(** [CATEGORIES] enumerated with [Format] first. *)
Definition FORMAT_FIRST : list string :=
  "Format" :: List.filter (fun category => negb (String.eqb category "Format")) CATEGORIES.

(** Collaborators that all return, the generator with [code] as its
    standard output. *)
Definition answering (code : bytes) : outside :=
  {| enumeration := CATEGORIES;
     mkdtemp_answer := Ok "/tmp/tmpucd";
     urlretrieve_answer := fun _ => Ok "/tmp/UCD.zip";
     extractall_answer := fun _ _ => Ok tt;
     run_answer := fun _ => Ok code |}.

(** What [transform_code] makes of the other samples. *)
Definition SAMPLE_TWICE_NORMALIZED : bytes := Eval vm_compute in
  match transform_code CATEGORIES SAMPLE_TWICE with
  | Ok out => out
  | Raise _ => []
  end.

Definition SAMPLE_NESTED_NORMALIZED : bytes := Eval vm_compute in
  match transform_code CATEGORIES SAMPLE_NESTED with
  | Ok out => out
  | Raise _ => []
  end.

Definition SAMPLE_NESTED_FORMAT_FIRST : bytes := Eval vm_compute in
  match transform_code FORMAT_FIRST SAMPLE_NESTED with
  | Ok out => out
  | Raise _ => []
  end.

Definition SAMPLE_INLINE_NORMALIZED : bytes := Eval vm_compute in
  match transform_code CATEGORIES SAMPLE_INLINE with
  | Ok out => out
  | Raise _ => []
  end.

(** The lines that hold the name of [category]. *)
Definition lines_with (category : string) (lines : list bytes) : list bytes :=
  List.filter (contains (encode category)) lines.

(** The number of lines of [code] that hold the name of [category]. *)
Definition count_lines_with (category : string) (code : bytes) : nat :=
  length (lines_with category (splitlines code)).

(** Blanks: space and tab. *)
Definition blank (b : byte) : bool :=
  if bool_decide (b = x20) then true else bool_decide (b = x09).

(** The line [<indent>("<category>", <ranges>),]. *)
Definition entry_line (indent : bytes) (category : string) (ranges : bytes)
    : bytes :=
  indent ++ encode (pair_opening category) ++ ranges ++ PAIR_CLOSING.

(** Among [lines], every category has exactly one line that holds its name,
    and that line is its index entry: blanks, the pair opening, ranges with
    neither a double quote nor [),] in them, and [),]. *)
Definition entries_well_formed (indent_of ranges_of : string -> bytes)
    (lines : list bytes) : Prop :=
  Forall
    (fun c =>
       length (lines_with c lines) = 1 /\
       entry_line (indent_of c) c (ranges_of c) ∈ lines /\
       Forall (fun b => blank b = true) (indent_of c) /\
       (DQUOTE ∉ ranges_of c) /\
       contains PAIR_CLOSING (ranges_of c) = false)
    CATEGORIES.

(** The lines the loop of [transform_code] starts from. *)
Definition lines_of (code : bytes) : list bytes :=
  splitlines (replace BY_NAME_PAIRS BY_NAME_TABLES code).

(** ** Names used to state further properties *)

(** [p] can be read in [s] from left to right, skipping elements. *)
Fixpoint subsequence {A} `{EqDecision A} (p s : list A) : bool :=
  match p, s with
  | [], _ => true
  | _ :: _, [] => false
  | a :: p', b :: s' =>
    if bool_decide (a = b) then subsequence p' s' else subsequence p s'
  end.

(** The lines without the last one when that one is empty. *)
Definition drop_final_empty (lines : list bytes) : list bytes :=
  match last lines with
  | Some [] => removelast lines
  | _ => lines
  end.

(** No ranges text spells a category name. *)
Definition ranges_unnamed (ranges_of : string -> bytes) : Prop :=
  Forall
    (fun c =>
       Forall (fun c' => contains (encode c') (ranges_of c) = false) CATEGORIES)
    CATEGORIES.

(** [w] with the tree [fs]. *)
Definition with_fs (w : world) (fs : gmap Path node) : world :=
  {| w_fs := fs; w_stdout := w_stdout w; w_calls := w_calls w |}.

(** The calls that leave the process in a run of [main] on one argument:
    each collaborator is called if all the earlier ones returned. *)
Definition expected_calls (env : outside) (unicode_version : string) : list call :=
  let url :=
    ("https://www.unicode.org/Public/zipped/" ++ unicode_version ++ "/UCD.zip")%string in
  Mkdtemp ::
  match mkdtemp_answer env with
  | Raise _ => []
  | Ok temp_directory =>
    UrlRetrieve url ::
    match urlretrieve_answer env url with
    | Raise _ => []
    | Ok response =>
      ExtractAll response temp_directory ::
      match extractall_answer env response temp_directory with
      | Raise _ => []
      | Ok _ => [Run (ucd_generate_command temp_directory)]
      end
    end
  end.

(** Collaborators of a later run: they return as well, with another
    temporary directory, and the interpreter enumerates [CATEGORIES] with
    [Format] first. *)
Definition answering_later (code : bytes) : outside :=
  {| enumeration := FORMAT_FIRST;
     mkdtemp_answer := Ok "/tmp/tmpucd_later";
     urlretrieve_answer := fun _ => Ok "/tmp/UCD_later.zip";
     extractall_answer := fun _ _ => Ok tt;
     run_answer := fun _ => Ok code |}.









(** ** Names used to state what the loop does on any input *)

(** No line that unwrapping, once or repeatedly, makes of [line] holds the
    name of [c]; [line] itself does not hold it. *)
Definition never_named (c : string) (line : bytes) : Prop :=
  forall line', rewritten CATEGORIES line line' -> contains (encode c) line' = false.

(** [ok] holds of [line] and of every line that unwrapping makes of it;
    [fuel] bounds the number of unwraps that change the line. *)
Fixpoint every_rewriting (ok : bytes -> bool) (fuel : nat) (line : bytes) : bool :=
  match fuel with
  | O => false
  | S n =>
    if ok line then
      forallb
        (fun c =>
           if contains (encode c) line then
             if bool_decide (unwrap c line = line) then true
             else every_rewriting ok n (unwrap c line)
           else true)
        CATEGORIES
    else false
  end.

(** The sample without the entry of [Control] and with, ahead of the index
    entries, the line of [SAMPLE_NESTED]. *)
Definition SAMPLE_MISSING_NESTED : bytes :=
  source_with
    (encode ("// Con" ++ pair_opening "Format" ++ "trol") ::
     map (fun category => by_name_entry category (table_name category))
       (List.filter (fun category => negb (String.eqb category "Control")) CATEGORIES)).

Definition SAMPLE_MISSING_NESTED_FORMAT_FIRST : bytes := Eval vm_compute in
  match transform_code FORMAT_FIRST SAMPLE_MISSING_NESTED with
  | Ok out => out
  | Raise _ => []
  end.

(** Unwrapping [line] for a category it names spells no category name that
    was not on the line. *)
Definition no_new_name (line : bytes) : bool :=
  forallb
    (fun c =>
       if contains (encode c) line then
         let unwrapped := unwrap c line in
         forallb
           (fun c' =>
              if contains (encode c') unwrapped then contains (encode c') line
              else true)
           CATEGORIES
       else true)
    CATEGORIES.

(** Unwrapping [line] for two categories it names gives the same bytes in
    either order. *)
Definition unwraps_commute (line : bytes) : bool :=
  forallb
    (fun c =>
       if contains (encode c) line then
         let unwrapped := unwrap c line in
         forallb
           (fun c' =>
              if contains (encode c') line
              then bool_decide (unwrap c' unwrapped = unwrap c (unwrap c' line))
              else true)
           CATEGORIES
       else true)
    CATEGORIES.

(** Both hold of [line] and of every line that unwrapping makes of it. *)
Definition steady (line : bytes) : Prop :=
  forall line', rewritten CATEGORIES line line' ->
    no_new_name line' = true /\ unwraps_commute line' = true.

(** The index entries of the categories two to a line. *)
Fixpoint pack (categories : list string) : list bytes :=
  match categories with
  | c1 :: c2 :: rest =>
    encode ("  " ++ pair_opening c1 ++ table_name c1 ++ "), "
                 ++ pair_opening c2 ++ table_name c2 ++ "),") :: pack rest
  | [c] => [by_name_entry c (table_name c)]
  | [] => []
  end.

Definition SAMPLE_PACKED : bytes := source_with (pack CATEGORIES).

(** The same without the entry of [Control]. *)
Definition SAMPLE_PACKED_MISSING : bytes :=
  source_with
    (pack (List.filter (fun category => negb (String.eqb category "Control"))
             CATEGORIES)).

(** The sample with, ahead of the index entries, a line in which the pair
    opening of [Format] stands inside what is left of the pair opening of
    [Control]. *)
Definition CROSSED_LINE : bytes :=
  encode "  (" ++ [DQUOTE] ++ encode (pair_opening "Format")
    ++ encode "Control" ++ [DQUOTE] ++ encode ", x),".

Definition SAMPLE_CROSSED : bytes := source_with (CROSSED_LINE :: all_entries).

Definition SAMPLE_CROSSED_NORMALIZED : bytes := Eval vm_compute in
  match transform_code CATEGORIES SAMPLE_CROSSED with
  | Ok out => out
  | Raise _ => []
  end.

Definition SAMPLE_CROSSED_FORMAT_FIRST : bytes := Eval vm_compute in
  match transform_code FORMAT_FIRST SAMPLE_CROSSED with
  | Ok out => out
  | Raise _ => []
  end.

Definition SAMPLE_PACKED_NORMALIZED : bytes := Eval vm_compute in
  match transform_code CATEGORIES SAMPLE_PACKED with
  | Ok out => out
  | Raise _ => []
  end.

(** ** Lines made of texts and index entries *)

(** A line read as texts and index entries [("Name", <ranges>),]. *)
Inductive item : Type :=
  | Text (t : bytes)
  | Entry (category : string) (ranges : bytes).

(** An item as the loop can meet it: an entry ends with [closing], which is
    [),] and becomes [,] once the line has been unwrapped, and has lost its
    pair opening once its category is among [unwrapped]. *)
Definition written (closing : bytes) (unwrapped : list string) (it : item) : bytes :=
  match it with
  | Text t => t
  | Entry c r =>
    (if bool_decide (c ∈ unwrapped) then [] else encode (pair_opening c))
      ++ r ++ closing
  end.

Definition line_as (closing : bytes) (unwrapped : list string) (items : list item)
    : bytes :=
  concat (written closing unwrapped <$> items).

(** The line with its entries as the generator writes them. *)
Definition raw (items : list item) : bytes := line_as PAIR_CLOSING [] items.

(** The line with every entry [("Name", <ranges>),] written [<ranges>,]. *)
Definition bare_item (it : item) : bytes :=
  match it with
  | Text t => t
  | Entry _ r => r ++ COMMA
  end.

Definition bare (items : list item) : bytes := concat (bare_item <$> items).

Definition categories_of (items : list item) : list string :=
  flat_map (fun it => match it with Text _ => [] | Entry c _ => [c] end) items.

Definition texts_of (items : list item) : list bytes :=
  flat_map (fun it => match it with Text t => [t] | Entry _ _ => [] end) items.

Definition ranges_in (items : list item) : list bytes :=
  flat_map (fun it => match it with Text _ => [] | Entry _ r => [r] end) items.

(** [categories] are not all the same one. *)
Definition several (categories : list string) : Prop :=
  ¬ Forall (fun c => Forall (fun c' => c = c') categories) categories.

(** No pair opening of a category begins in [u], not even its first bytes at
    the end of [u]. *)
Definition opening_free (u : bytes) : Prop :=
  Forall (fun c => no_start (encode (pair_opening c)) u = true) CATEGORIES.

(** No [),] begins in [u], not even as a [)] at the end of [u]. *)
Definition closing_free (u : bytes) : Prop := no_start PAIR_CLOSING u = true.

(** What the loop needs of a line read as [items]: without the wrappings of
    its entries it spells no category name but those of its entries, and
    holds no pair opening; its entries are entries of categories; and if it
    has entries, no pair opening and no [),] begins in its texts, its ranges
    hold no [),] and with their [),] behind them no pair opening, and, when
    the entries are of several categories, the same with [,] behind them,
    where no [),] may begin either. *)
Definition tidy (items : list item) : Prop :=
  Forall (fun c => contains (encode c) (bare items) = true ->
                   c ∈ categories_of items) CATEGORIES /\
  Forall (fun c => contains (encode (pair_opening c)) (bare items) = false)
    CATEGORIES /\
  Forall (fun c => c ∈ CATEGORIES) (categories_of items) /\
  (categories_of items ≠ [] ->
   Forall (fun t => opening_free t /\ closing_free t) (texts_of items) /\
   Forall (fun r => opening_free (r ++ PAIR_CLOSING) /\
                    contains PAIR_CLOSING r = false) (ranges_in items) /\
   (several (categories_of items) ->
    Forall (fun r => opening_free (r ++ COMMA) /\ closing_free (r ++ COMMA))
      (ranges_in items))).

(** The line once the categories of [unwrapped] have had their turn. *)
Definition line_after (unwrapped : list string) (items : list item) : bytes :=
  if bool_decide (Exists (fun c => c ∈ unwrapped) (categories_of items))
  then line_as COMMA unwrapped items
  else raw items.

(** [SAMPLE_PACKED], line by line. *)
Fixpoint packed_items (categories : list string) : list (list item) :=
  match categories with
  | c1 :: c2 :: rest =>
    [ Text (encode "  "); Entry c1 (encode (table_name c1));
      Text (encode " "); Entry c2 (encode (table_name c2)) ] :: packed_items rest
  | [c] => [[Text (encode "  "); Entry c (encode (table_name c))]]
  | [] => []
  end.

Definition PACKED_PARSE : list (list item) :=
  ((fun line => [Text line]) <$> take 4 header_lines)
    ++ [[Text (BY_NAME_TABLES ++ encode " = &[")]]
    ++ packed_items CATEGORIES
    ++ ((fun line => [Text line]) <$> footer_lines).

(** The sample in which two entries on one line have ranges that end
    with [)]. *)
Definition SAMPLE_PACKED_CALLS : bytes :=
  source_with
    (encode ("  " ++ pair_opening "Close_Punctuation" ++ "f(0)), "
                  ++ pair_opening "Connector_Punctuation" ++ "g(1)),") ::
     map (fun category => by_name_entry category (table_name category))
       (drop 2 CATEGORIES)).

(** The sample in which the entry of [Format] comes first and, unwrapped,
    spells [Control]. *)
Definition SAMPLE_SPLICED : bytes :=
  source_with
    (encode ("  Con" ++ pair_opening "Format" ++ "trol),") ::
     map (fun category => by_name_entry category (table_name category))
       (List.filter (fun category => negb (String.eqb category "Format")) CATEGORIES)).

Definition SAMPLE_PACKED_CALLS_NORMALIZED : bytes := Eval vm_compute in
  match transform_code CATEGORIES SAMPLE_PACKED_CALLS with
  | Ok out => out
  | Raise _ => []
  end.

Definition SAMPLE_SPLICED_FORMAT_FIRST : bytes := Eval vm_compute in
  match transform_code FORMAT_FIRST SAMPLE_SPLICED with
  | Ok out => out
  | Raise _ => []
  end.

(** * Properties *)

(** ** The category set and the generator's command line *)

(** C9: [CATEGORIES] has exactly 30 pairwise distinct names, none of them is
    one of the eight aggregate names, and the command [ucd_generate] runs
    carries exactly those eight names, comma-separated, after [--exclude=]. *)
Theorem categories_are_thirty_leaves :
  length CATEGORIES = 30 /\
  NoDup CATEGORIES /\
  Forall (fun a => a ∉ CATEGORIES) AGGREGATES /\
  excluded_categories ≡ₚ AGGREGATES /\
  EXCLUDE = ("--exclude=" ++ String.concat "," excluded_categories)%string /\
  forall env directory w,
    w_calls (snd (ucd_generate env directory w)) =
    w_calls w ++
      [Run ("ucd-generate general-category " ++ directory ++ " " ++
            "--exclude=" ++ String.concat "," excluded_categories)%string].
Proof.
  split; [reflexivity|].
  split; [by apply (bool_decide_unpack _); vm_compute|].
  split; [by apply (bool_decide_unpack _); vm_compute|].
  split; [by apply (bool_decide_unpack _); vm_compute|].
  split; [reflexivity|].
  intros env directory w. reflexivity.
Qed.

(** ** The pipeline of [main] *)

(** With one argument, [main] is [produce] followed by [persist]. *)
Lemma main_produce_persist env prog v w :
  main env [prog; v] w =
  match produce env v w with
  | (Ok code, w') => persist v code w'
  | (Raise e, w') => (Raise e, w')
  end.
Proof.
  unfold main, produce, persist, argv_get.
  change (bool_decide (length [prog; v] ≠ 2)) with false.
  change ([prog; v] !! 1) with (Some v).
  unfold mbind, M_bind, mret, M_ret, lift. cbv beta iota.
  destruct (mkdtemp env w) as [[tmp|e] w1]; [|reflexivity].
  destruct (fetch env v tmp w1) as [[[]|e] w2]; [|reflexivity].
  destruct (ucd_generate env tmp w2) as [[code|e] w3]; [|reflexivity].
  destruct (transform_code (enumeration env) code) as [out|e]; reflexivity.
Qed.

(** [produce] touches neither the working directory tree nor standard
    output. *)
Lemma produce_frame env v w :
  w_fs (snd (produce env v w)) = w_fs w /\
  w_stdout (snd (produce env v w)) = w_stdout w.
Proof.
  unfold produce, mkdtemp, fetch, ucd_generate, lift, log, mbind, M_bind.
  cbv beta iota.
  destruct (mkdtemp_answer env) as [tmp|e]; [|done].
  destruct (urlretrieve_answer env _) as [resp|e]; [|done].
  destruct (extractall_answer env resp tmp) as [[]|e]; [|done].
  destruct (run_answer env _) as [code|e]; [|done].
  destruct (transform_code (enumeration env) code) as [out|e]; done.
Qed.

(** C8: with anything but exactly one argument after the program name,
    [main] prints the usage line, which has no line break in it, and exits
    with status 1, leaving the directory tree alone and calling no
    collaborator; with exactly one argument it runs the pipeline on that
    argument as the version string. *)
Theorem main_checks_arity env argv w :
  match argv with
  | [prog; unicode_version] =>
    main env argv w =
    (temp_directory ← mkdtemp env;
     fetch env unicode_version temp_directory;;
     code ← ucd_generate env temp_directory;
     code ← lift (transform_code (enumeration env) code);
     path ← get_output_path unicode_version;
     open_wb path;;
     write path code) w
  | _ =>
    main env argv w =
    (Raise (SystemExit 1),
     {| w_fs := w_fs w; w_stdout := w_stdout w ++ [USAGE]; w_calls := w_calls w |}) /\
    exit_status (fst (main env argv w)) = 1%Z /\
    str_split "010" USAGE = [USAGE] /\ str_split "013" USAGE = [USAGE]
  end.
Proof.
  destruct argv as [|prog [|v [|x argv]]]; try (repeat split; reflexivity).
Qed.

Lemma produce_raises env v w e :
  raises_upstream env v w e -> fst (produce env v w) = Raise e.
Proof.
  intros H. unfold produce, mbind, M_bind, lift.
  destruct H as [tmp w1 w2 H1 H2|tmp w1 w2 w3 H1 H2 H3|tmp w1 w2 code w3 H1 H2 H3 H4].
  - by rewrite H1, H2.
  - by rewrite H1, H2, H3.
  - by rewrite H1, H2, H3, H4.
Qed.

(** [os.mkdir] and [Path.mkdir] add directories only. *)
Lemma os_mkdir_files p w q c :
  w_fs (snd (os_mkdir p w)) !! q = Some (File c) -> w_fs w !! q = Some (File c).
Proof.
  unfold os_mkdir, mbind, M_bind, get_fs, put_fs, raise. cbv beta iota.
  destruct (parts p); [done|].
  destruct (w_fs w !! p) eqn:Hp; [done|].
  destruct (is_dir _ _).
  - cbn. intros H. destruct (decide (p = q)) as [->|Hne].
    + by rewrite lookup_insert_eq in H.
    + by rewrite lookup_insert_ne in H.
  - by destruct (w_fs w !! parent p) as [[]|].
Qed.

Lemma mkdir_exist_ok_files p w q c :
  w_fs (snd (mkdir_exist_ok p w)) !! q = Some (File c) -> w_fs w !! q = Some (File c).
Proof.
  unfold mkdir_exist_ok. pose proof (os_mkdir_files p w q c) as H.
  destruct (os_mkdir p w) as [[[]|e] w']; [done|].
  destruct e; try destruct (is_dir _ _); done.
Qed.

Lemma mkdir_parents_files depth p w q c :
  w_fs (snd (mkdir_parents depth p w)) !! q = Some (File c) ->
  w_fs w !! q = Some (File c).
Proof.
  revert p w. induction depth as [|d IH]; intros p w; cbn [mkdir_parents];
    pose proof (os_mkdir_files p w q c) as H;
    destruct (os_mkdir p w) as [[[]|e] w']; try done.
  - destruct e; try destruct (is_dir _ _); done.
  - destruct e; try (destruct (is_dir _ _); done).
    case_bool_decide; [done|].
    unfold mbind, M_bind. intros Hq. apply H. cbn. apply (IH (parent p)).
    pose proof (mkdir_exist_ok_files p (snd (mkdir_parents d (parent p) w')) q c) as H'.
    destruct (mkdir_parents d (parent p) w') as [[[]|e'] w'']; [|done].
    by apply H'.
Qed.

(** What [persist] leaves in the tree: the files that were there, except
    that the file at the output path, if it was written, holds [code]. *)
Lemma persist_files v code w q c :
  w_fs (snd (persist v code w)) !! q = Some (File c) ->
  w_fs w !! q = Some (File c) \/ c = code.
Proof.
  unfold persist, get_output_path, mbind, M_bind, mret, M_ret. cbv beta iota.
  unfold mkdir.
  pose proof (mkdir_parents_files (length (parts (path_of "src/tables")))
                (path_of "src/tables") w q c) as Hm.
  destruct (mkdir_parents _ _ w) as [[[]|e] w1]; [|by left; apply Hm].
  set (path := truediv _ _). clearbody path.
  unfold open_wb, write, mbind, M_bind, get_fs, put_fs, raise. cbv beta iota.
  destruct (w_fs w1 !! path) as [[|old]|] eqn:Hpath; [by left; apply Hm| |].
  all: destruct (is_dir (w_fs w1) path); [by left; apply Hm|].
  all: destruct (is_dir (w_fs w1) (parent path)).
  all: try (destruct (w_fs w1 !! parent path) as [[]|]; by left; apply Hm).
  all: cbn; intros H; destruct (decide (path = q)) as [->|Hne].
  all: try (rewrite lookup_insert_eq in H; right; congruence).
  all: rewrite !lookup_insert_ne in H by done; by left; apply Hm.
Qed.

(** C7: when [fetch], [ucd_generate] or [transform_code] raises, [main] ends
    with that exception and the working directory tree is as it was; and in
    every run, a file found in the tree afterwards was there before with the
    same content or holds the bytes a completed [transform_code] returned. *)
Theorem main_writes_after_transform env prog v w :
  (forall e, raises_upstream env v w e ->
     fst (main env [prog; v] w) = Raise e /\
     w_fs (snd (main env [prog; v] w)) = w_fs w) /\
  (forall q c, w_fs (snd (main env [prog; v] w)) !! q = Some (File c) ->
     w_fs w !! q = Some (File c) \/ fst (produce env v w) = Ok c).
Proof.
  rewrite main_produce_persist.
  pose proof (produce_frame env v w) as [Hfs _].
  pose proof (produce_raises env v w) as Hraise. split.
  - intros e He. apply Hraise in He.
    destruct (produce env v w) as [[code|e'] w']; cbn [fst snd] in *; [done|].
    injection He as ->. split; [done|]. exact Hfs.
  - intros q c. destruct (produce env v w) as [[code|e'] w']; cbn [fst snd] in *.
    + intros H. apply persist_files in H as [H| ->]; [left|by right].
      by rewrite <- Hfs.
    + rewrite Hfs. by left.
Qed.

(** ** Facts about the sequence methods *)

Section seq_facts.
Context {A : Type} `{EqDecision A}.
Implicit Types p s t old new : list A.

Lemma starts_with_prefix p s : starts_with p s = true <-> p `prefix_of` s.
Proof.
  revert s. induction p as [|a p IH]; intros [|b s]; simpl.
  - split; [intros _; apply prefix_nil|done].
  - split; [intros _; apply prefix_nil|done].
  - split; [done|]. intros Hp. by apply prefix_nil_not in Hp.
  - case_bool_decide as Hab.
    + subst b. rewrite IH. split; [apply prefix_cons|apply prefix_cons_inv_2].
    + split; [done|]. intros Hp. by apply prefix_cons_inv_1 in Hp.
Qed.

Lemma starts_with_app p t : starts_with p (p ++ t) = true.
Proof. apply starts_with_prefix. by apply prefix_app_r. Qed.

Lemma starts_with_false p s : starts_with p s = false <-> ¬ p `prefix_of` s.
Proof.
  rewrite <- starts_with_prefix. destruct (starts_with p s); split; done.
Qed.

Lemma if_true_orb (x y : bool) : (if x then true else y) = x || y.
Proof. by destruct x. Qed.

(** [contains] finds exactly the contiguous occurrences. *)
Lemma contains_occurs p s :
  contains p s = true <-> exists u v, s = u ++ p ++ v.
Proof.
  induction s as [|b s IH]; cbn [contains]; rewrite if_true_orb, orb_true_iff.
  - rewrite starts_with_prefix. split.
    + intros [[v ->]|]; [|done]. by exists [], v.
    + intros ([|??] & v & Hs); [|done]. left. by exists v.
  - rewrite starts_with_prefix, IH. split.
    + intros [[v ->]|(u & v & ->)]; [by exists [], v|by exists (b :: u), v].
    + intros ([|b' u] & v & Hs).
      * left. by exists v.
      * right. injection Hs as -> ->. by exists u, v.
Qed.

Lemma contains_absent p s :
  contains p s = false <-> forall u v, s ≠ u ++ p ++ v.
Proof.
  split.
  - intros Hc u v ->. assert (contains p (u ++ p ++ v) = true) as Ht.
    { apply contains_occurs. by exists u, v. }
    congruence.
  - intros Hn. destruct (contains p s) eqn:Hc; [|done].
    apply contains_occurs in Hc as (u & v & ->). by destruct (Hn u v).
Qed.

Lemma contains_app_l p s t : contains p s = true -> contains p (s ++ t) = true.
Proof.
  rewrite !contains_occurs. intros (u & v & ->). exists u, (v ++ t).
  by rewrite <- !app_assoc.
Qed.

Lemma contains_app_r p s t : contains p t = true -> contains p (s ++ t) = true.
Proof.
  rewrite !contains_occurs. intros (u & v & ->). exists (s ++ u), v.
  by rewrite <- !app_assoc.
Qed.

(** *** [replace] *)

Lemma replace_from_skip old new k s :
  replace_from old new k s = replace_from old new 0 (drop k s).
Proof.
  revert k. induction s as [|b s IH]; intros [|k]; try reflexivity.
  cbn [replace_from drop]. apply IH.
Qed.

Lemma replace_nil old new : old ≠ [] -> replace old new [] = [].
Proof. by destruct old. Qed.

(** The scan at an occurrence: it is replaced and the scan goes on behind
    it. *)
Lemma replace_match old new t :
  old ≠ [] -> replace old new (old ++ t) = new ++ replace old new t.
Proof.
  destruct old as [|a old]; [done|]. intros _. unfold replace.
  change ((a :: old) ++ t) with (a :: (old ++ t)). cbn [replace_from].
  change (a :: (old ++ t)) with ((a :: old) ++ t).
  rewrite starts_with_app. f_equal. rewrite replace_from_skip. cbn [length Nat.pred].
  by rewrite drop_app_length.
Qed.

(** The scan elsewhere: the element is kept. *)
Lemma replace_keep old new b s :
  old ≠ [] -> starts_with old (b :: s) = false ->
  replace old new (b :: s) = b :: replace old new s.
Proof.
  destruct old as [|a old]; [done|]. intros _ Hs. unfold replace.
  cbn [replace_from]. by rewrite Hs.
Qed.

(** Induction along the scan of [replace]. *)
Lemma replace_scan_ind old (P : list A -> Prop) :
  old ≠ [] ->
  P [] ->
  (forall t, P t -> P (old ++ t)) ->
  (forall b s, starts_with old (b :: s) = false -> P s -> P (b :: s)) ->
  forall s, P s.
Proof.
  intros Hold Hnil Hmatch Hkeep s.
  induction s as [s IH] using (induction_ltof1 _ (@length A)).
  unfold ltof in IH. destruct s as [|b s]; [done|].
  destruct (starts_with old (b :: s)) eqn:Hs.
  - apply starts_with_prefix in Hs as [t Ht]. rewrite Ht. apply Hmatch, IH.
    rewrite Ht, length_app. destruct old; [done|]. cbn. lia.
  - apply Hkeep; [done|]. apply IH. cbn. lia.
Qed.

Lemma replace_absent old new s :
  old ≠ [] -> contains old s = false -> replace old new s = s.
Proof.
  intros Hold. induction s as [|b s IH]; [by rewrite replace_nil|].
  cbn [contains]. rewrite if_true_orb. intros [Hs Hc]%orb_false_iff.
  rewrite replace_keep by done. f_equal. by apply IH.
Qed.

Lemma replace_Forall (P : A -> Prop) old new s :
  old ≠ [] -> Forall P new -> Forall P s -> Forall P (replace old new s).
Proof.
  intros Hold Hnew. revert s.
  apply (replace_scan_ind old (fun s => Forall P s -> Forall P (replace old new s)));
    try done.
  - by rewrite replace_nil.
  - intros t IH [_ Ht]%Forall_app. rewrite replace_match by done.
    apply Forall_app. split; [done|]. by apply IH.
  - intros b s Hs IH [Hb Ht]%Forall_cons. rewrite replace_keep by done.
    apply Forall_cons. split; [done|]. by apply IH.
Qed.
End seq_facts.

Section seq_cut_facts.
Context {A : Type} `{EqDecision A}.
Implicit Types p s t u old new : list A.

Lemma prefix_app_cases p s t :
  p `prefix_of` s ++ t ->
  p `prefix_of` s \/ exists k, p = s ++ k /\ k `prefix_of` t.
Proof.
  revert p. induction s as [|b s IH]; intros p Hp.
  - right. by exists p.
  - destruct p as [|a p]; [left; apply prefix_nil|].
    cbn in Hp. pose proof (prefix_cons_inv_1 _ _ _ _ Hp) as ->.
    apply prefix_cons_inv_2, IH in Hp as [Hp|(k & -> & Hk)].
    + left. by apply prefix_cons.
    + right. by exists k.
Qed.

(** An element that does not occur in [old] cuts the scan in two. *)
Lemma replace_cut old new b s t :
  old ≠ [] -> b ∉ old ->
  replace old new (s ++ b :: t) = replace old new s ++ b :: replace old new t.
Proof.
  intros Hold Hb. revert s. apply (replace_scan_ind old); [done|..].
  - rewrite replace_nil by done. cbn [app]. apply replace_keep; [done|].
    apply starts_with_false. intros Hp. destruct old as [|a old]; [done|].
    apply prefix_cons_inv_1 in Hp as ->. apply Hb. by left.
  - intros s IH. rewrite <- app_assoc, !replace_match, IH by done.
    by rewrite app_assoc.
  - intros c s Hs IH. cbn [app]. rewrite !replace_keep, IH; [done..|].
    apply starts_with_false. intros Hp.
    change (c :: s ++ b :: t) with ((c :: s) ++ b :: t) in Hp.
    apply prefix_app_cases in Hp as [Hp|(k & -> & Hk)].
    + by apply starts_with_prefix in Hp; congruence.
    + destruct k as [|b' k].
      * rewrite app_nil_r in Hs. apply starts_with_false in Hs. by destruct Hs.
      * apply prefix_cons_inv_1 in Hk as ->. apply Hb.
        apply elem_of_app. right. by left.
Qed.

Lemma no_start_starts_with old u t :
  u ≠ [] -> no_start old u = true -> starts_with old (u ++ t) = false.
Proof.
  destruct u as [|b u]; [done|]. intros _. cbn [no_start].
  intros [[H1 H2]%andb_true_iff _]%andb_true_iff.
  apply negb_true_iff in H1, H2. apply starts_with_false in H1, H2.
  apply starts_with_false. intros [Hp|(k & -> & Hk)]%prefix_app_cases; [done|].
  apply H2. by apply prefix_app_r.
Qed.

(** A stretch in which no occurrence starts is copied as it is. *)
Lemma replace_app_no_start old new u t :
  old ≠ [] -> no_start old u = true ->
  replace old new (u ++ t) = u ++ replace old new t.
Proof.
  intros Hold. induction u as [|b u IH]; [done|]. intros Hu.
  cbn [app]. rewrite replace_keep; [|done|].
  - f_equal. apply IH. cbn [no_start] in Hu. by apply andb_true_iff in Hu as [_ ?].
  - by apply (no_start_starts_with old (b :: u) t).
Qed.

Lemma replace_nonempty old new s :
  old ≠ [] -> new ≠ [] -> s ≠ [] -> replace old new s ≠ [].
Proof.
  intros Hold Hnew. destruct s as [|b s]; [done|]. intros _.
  destruct (starts_with old (b :: s)) eqn:Hs.
  - apply starts_with_prefix in Hs as [t ->]. rewrite replace_match by done.
    by destruct new.
  - by rewrite replace_keep.
Qed.

(** The first element after a scan is the first of [new] or the first
    of [s]. *)
Lemma replace_head (P : A -> Prop) old new s :
  old ≠ [] -> new ≠ [] ->
  match new with b :: _ => P b | [] => True end ->
  match s with b :: _ => P b | [] => True end ->
  match replace old new s with b :: _ => P b | [] => True end.
Proof.
  intros Hold Hnew HPnew HPs. destruct s as [|b s]; [by rewrite replace_nil|].
  destruct (starts_with old (b :: s)) eqn:Hs.
  - apply starts_with_prefix in Hs as [t ->]. rewrite replace_match by done.
    by destruct new.
  - by rewrite replace_keep.
Qed.

(** An occurrence in [s ++ b :: t] of a [p] without [b] lies in [s] or
    in [t]. *)
Lemma contains_cut p b s t :
  b ∉ p ->
  contains p (s ++ b :: t) = contains p s || contains p t.
Proof.
  intros Hb. apply eq_true_iff_eq. rewrite orb_true_iff, !contains_occurs. split.
  - intros (u & v & Hs). revert u Hs. induction s as [|c s IH]; intros u Hs.
    + destruct u as [|b' u].
      * destruct p as [|a p]; [left; by exists [], []|].
        injection Hs as -> _. destruct Hb. by left.
      * injection Hs as -> ->. right. by exists u, v.
    + destruct u as [|c' u].
      * assert (p `prefix_of` (c :: s) ++ b :: t) as Hp by (exists v; done).
        apply prefix_app_cases in Hp as [[k Hk]|(k & -> & Hk)].
        -- left. exists [], k. done.
        -- destruct k as [|b' k]; [left; exists [], []; by rewrite !app_nil_r|].
           apply prefix_cons_inv_1 in Hk as ->. destruct Hb.
           apply elem_of_app. right. by left.
      * injection Hs as -> Hs. apply IH in Hs as [(u' & v' & ->)|?]; [|by right].
        left. by exists (c' :: u'), v'.
  - intros [(u & v & ->)|(u & v & ->)].
    + exists u, (v ++ b :: t). by rewrite <- !app_assoc.
    + exists (s ++ b :: u), v. by rewrite <- !app_assoc.
Qed.
End seq_cut_facts.

Section occurrence_facts.
Context {A : Type} `{EqDecision A}.
Implicit Types p q s t : list A.

(** A text that holds [b] occurs in no text without [b]. *)
Lemma contains_needs b p s : b ∈ p -> b ∉ s -> contains p s = false.
Proof.
  intros Hb Hs. apply contains_absent. intros u v ->. apply Hs.
  rewrite !elem_of_app. auto.
Qed.


Lemma contains_nil_r p : p ≠ [] -> contains p [] = false.
Proof. by destruct p. Qed.

(** A text made of elements foreign to [p] does not hold [p]. *)
Lemma contains_foreign p s :
  p ≠ [] -> Forall (fun b => b ∉ p) s -> contains p s = false.
Proof.
  intros Hp Hs. apply contains_absent. intros u v ->.
  destruct p as [|a p]; [done|]. rewrite Forall_forall in Hs.
  apply (Hs a); [|by left]. rewrite !elem_of_app. right. left. by left.
Qed.

(** Elements that are not in [p] can be dropped in front and behind. *)
Lemma contains_strip p u s v :
  p ≠ [] -> Forall (fun b => b ∉ p) u -> Forall (fun b => b ∉ p) v ->
  contains p (u ++ s ++ v) = contains p s.
Proof.
  intros Hp Hu Hv. induction Hu as [|b u Hb Hu IH].
  - cbn [app]. destruct Hv as [|b v Hb Hv]; [by rewrite app_nil_r|].
    rewrite contains_cut by done.
    by rewrite (contains_foreign p v), orb_false_r.
  - change ((b :: u) ++ s ++ v) with ([] ++ b :: (u ++ s ++ v)).
    rewrite contains_cut by done. by rewrite contains_nil_r.
Qed.

(** One occurrence of a two-element text, at the very end. *)
Lemma replace_pair_at_end a b new s :
  a ≠ b -> contains [a; b] s = false ->
  replace [a; b] new (s ++ [a; b]) = s ++ new.
Proof.
  intros Hab. induction s as [|c s IH]; intros Hs.
  - change ([] ++ [a; b]) with ([a; b] ++ @nil A).
    rewrite replace_match by done. by rewrite replace_nil, app_nil_r.
  - cbn [contains] in Hs. rewrite if_true_orb in Hs.
    apply orb_false_iff in Hs as [Hhead Hs]. cbn [app].
    rewrite replace_keep; [by rewrite IH|done|].
    destruct s as [|d s]; cbn [app starts_with] in *.
    + case_bool_decide; [|done]. by rewrite bool_decide_eq_false_2.
    + done.
Qed.
End occurrence_facts.

(** ** Facts about [splitlines] and [join] *)

Lemma LF_linebreak : is_linebreak LF = true.
Proof. reflexivity. Qed.

Lemma is_linebreak_true b : is_linebreak b = true -> b = LF \/ b = CR.
Proof.
  unfold is_linebreak. rewrite orb_true_iff, !bool_decide_eq_true. done.
Qed.

Lemma is_linebreak_false b : is_linebreak b = false -> b ≠ LF /\ b ≠ CR.
Proof.
  unfold is_linebreak. rewrite orb_false_iff, !bool_decide_eq_false. done.
Qed.

Lemma line_free_not_elem b s : is_linebreak b = true -> line_free s -> b ∉ s.
Proof.
  intros Hb Hs Hin. unfold line_free in Hs. rewrite Forall_forall in Hs.
  specialize (Hs b Hin). congruence.
Qed.

Lemma splitlines_from_line cur l s :
  line_free l -> splitlines_from cur (l ++ s) = splitlines_from (cur ++ l) s.
Proof.
  intros Hl. revert cur. induction Hl as [|b l Hb Hl IH]; intros cur.
  - by rewrite app_nil_r.
  - apply is_linebreak_false in Hb as [HLF HCR]. cbn [app splitlines_from].
    rewrite !bool_decide_eq_false_2 by done.
    rewrite IH. by rewrite <- app_assoc.
Qed.

Lemma splitlines_from_end cur :
  splitlines_from cur [] = match cur with [] => [] | _ :: _ => [cur] end.
Proof. reflexivity. Qed.

Lemma splitlines_from_LF cur s :
  splitlines_from cur (LF :: s) = cur :: splitlines s.
Proof. reflexivity. Qed.

Lemma splitlines_from_CRLF cur s :
  splitlines_from cur (CR :: LF :: s) = cur :: splitlines s.
Proof. reflexivity. Qed.

Lemma splitlines_from_CR cur s :
  match s with b :: _ => b ≠ LF | [] => True end ->
  splitlines_from cur (CR :: s) = cur :: splitlines s.
Proof.
  destruct s as [|b s]; [done|]. intros Hb. unfold splitlines.
  cbn [splitlines_from]. by rewrite !(bool_decide_eq_false_2 (b = LF)).
Qed.

(** Every text is a terminator-free line, followed by nothing or by a
    terminator and the rest. *)
Lemma line_span s :
  exists l rest, s = l ++ rest /\ line_free l /\
    match rest with b :: _ => is_linebreak b = true | [] => True end.
Proof.
  induction s as [|b s (l & rest & -> & Hl & Hrest)].
  - exists [], []. repeat split. constructor.
  - destruct (is_linebreak b) eqn:Hb.
    + exists [], (b :: l ++ rest). repeat split; [constructor|done].
    + exists (b :: l), rest. repeat split; [|done]. by constructor.
Qed.

(** The lines [splitlines] returns hold no terminator. *)
Lemma splitlines_line_free s : Forall line_free (splitlines s).
Proof.
  induction s as [s IH] using (induction_ltof1 _ (@length byte)). unfold ltof in IH.
  destruct (line_span s) as (l & rest & -> & Hl & Hrest). unfold splitlines.
  rewrite splitlines_from_line by done. cbn [app].
  destruct rest as [|b rest].
  - rewrite splitlines_from_end. destruct l; [constructor|]. constructor; [done|constructor].
  - apply is_linebreak_true in Hrest as [->| ->].
    + rewrite splitlines_from_LF. constructor; [done|]. apply IH.
      rewrite length_app. cbn. lia.
    + destruct rest as [|b rest].
      * rewrite splitlines_from_CR by done. constructor; [done|]. constructor.
      * destruct (decide (b = LF)) as [->|Hb].
        -- rewrite splitlines_from_CRLF. constructor; [done|]. apply IH.
           rewrite length_app. cbn. lia.
        -- rewrite splitlines_from_CR by done. constructor; [done|]. apply IH.
           rewrite length_app. cbn. lia.
Qed.

(** A replacement whose texts hold no line terminator is done line by line:
    no occurrence spans two lines and no line is added or lost. *)
Lemma splitlines_replace old new s :
  old ≠ [] -> new ≠ [] -> line_free old -> line_free new ->
  splitlines (replace old new s) = replace old new <$> splitlines s.
Proof.
  intros Hold Hnew Hlold Hlnew.
  induction s as [s IH] using (induction_ltof1 _ (@length byte)). unfold ltof in IH.
  destruct (line_span s) as (l & rest & -> & Hl & Hrest).
  assert (line_free (replace old new l)) as Hl' by by apply replace_Forall.
  unfold splitlines in *. rewrite (splitlines_from_line _ l) by done. cbn [app].
  destruct rest as [|b rest].
  - rewrite app_nil_r, splitlines_from_end.
    rewrite <- (app_nil_r (replace old new l)), splitlines_from_line by done.
    cbn [app]. rewrite splitlines_from_end.
    destruct l as [|c l]; [by rewrite replace_nil|].
    pose proof (replace_nonempty old new (c :: l) Hold Hnew) as Hne.
    cbn [fmap list_fmap]. destruct (replace old new (c :: l)); [by destruct Hne|done].
  - rewrite replace_cut by eauto using line_free_not_elem.
    rewrite splitlines_from_line by done. cbn [app].
    apply is_linebreak_true in Hrest as Hb. destruct Hb as [->| ->].
    + rewrite !splitlines_from_LF. rewrite fmap_cons. f_equal. apply IH.
      rewrite length_app. cbn. lia.
    + destruct rest as [|b rest].
      * rewrite replace_nil by done. by rewrite !splitlines_from_CR.
      * destruct (decide (b = LF)) as [->|Hb].
        -- rewrite (replace_cut old new LF [] rest)
             by eauto using line_free_not_elem, LF_linebreak.
           rewrite replace_nil by done. cbn [app].
           rewrite !splitlines_from_CRLF. rewrite fmap_cons. f_equal. apply IH.
           rewrite length_app. cbn. lia.
        -- rewrite !splitlines_from_CR; [|done|].
           ++ rewrite fmap_cons. f_equal. apply IH. rewrite length_app. cbn. lia.
           ++ apply (replace_head (fun b => b ≠ LF)); [done..| |done].
              destruct new as [|n new]; [done|].
              apply Forall_cons in Hlnew as [Hn _].
              by apply is_linebreak_false in Hn as [? _].
Qed.

Lemma join_cons sep l ls :
  ls ≠ [] -> join sep (l :: ls) = l ++ sep ++ join sep ls.
Proof. by destruct ls. Qed.


(** A text without LF occurs in the joined output exactly when it occurs
    in one of the lines. *)
Lemma contains_join p lines :
  p ≠ [] -> LF ∉ p ->
  contains p (join [LF] lines) = existsb (contains p) lines.
Proof.
  intros Hp HLF. induction lines as [|l ls IH].
  - destruct p; [done|reflexivity].
  - destruct ls as [|l' ls].
    + cbn [join existsb]. by rewrite orb_false_r.
    + rewrite join_cons by done. cbn [existsb app] in *.
      rewrite contains_cut by done. by rewrite IH.
Qed.

(** ** The loop over the categories *)

Lemma first_line_with_Some category lines i :
  first_line_with category lines = Some i <->
  exists line, lines !! i = Some line /\
    contains (encode category) line = true /\
    forall j y, lines !! j = Some y -> j < i ->
      contains (encode category) y = false.
Proof.
  unfold first_line_with. split.
  - destruct (list_find _ lines) as [[i' line]|] eqn:Hf; [|done].
    cbn. intros [= ->]. apply list_find_Some in Hf as (Hi & Hc & Hmin).
    exists line. split; [done|]. split; [by apply Is_true_true|].
    intros j y Hj Hlt. specialize (Hmin j y Hj Hlt).
    by apply negb_prop_intro, Is_true_true, negb_true_iff in Hmin.
  - intros (line & Hi & Hc & Hmin).
    assert (list_find (fun line => Is_true (contains (encode category) line)) lines
            = Some (i, line)) as ->; [|done].
    apply list_find_Some. split; [done|]. split; [by apply Is_true_true|].
    intros j y Hj Hlt Hy. apply Is_true_true in Hy.
    specialize (Hmin j y Hj Hlt). congruence.
Qed.

Lemma first_line_with_None category lines :
  first_line_with category lines = None <->
  Forall (fun line => contains (encode category) line = false) lines.
Proof.
  unfold first_line_with. rewrite fmap_None, list_find_None.
  apply Forall_proper; [|done]. intros line.
  rewrite Is_true_true. by destruct (contains _ line).
Qed.

(** A turn of the loop that finds the name rewrites the first line holding
    it, in place. *)
Lemma rewrite_category_found category lines i :
  first_line_with category lines = Some i ->
  exists line, lines !! i = Some line /\
    contains (encode category) line = true /\
    rewrite_category category lines = Ok (<[i := unwrap category line]> lines).
Proof.
  intros Hi. unfold rewrite_category. rewrite Hi.
  apply first_line_with_Some in Hi as (line & Hl & Hc & _).
  exists line. by rewrite Hl.
Qed.

(** A turn of the loop that does not find the name indexes the list with
    [None]. *)
Lemma rewrite_category_missing category lines :
  first_line_with category lines = None ->
  rewrite_category category lines = Raise (TypeError NONE_INDEX).
Proof. intros Hi. unfold rewrite_category. by rewrite Hi. Qed.

Lemma rewritten_trans order l1 l2 l3 :
  rewritten order l1 l2 -> rewritten order l2 l3 -> rewritten order l1 l3.
Proof.
  induction 1 as [|c l l' Hin Hc _ IH]; [done|]. intros H3.
  eapply rewritten_unwrap; eauto.
Qed.

Lemma rewritten_weaken order order' l l' :
  order ⊆ order' -> rewritten order l l' -> rewritten order' l l'.
Proof.
  intros Hsub. induction 1 as [|c l l' Hin Hc _ IH]; [constructor|].
  eapply rewritten_unwrap; eauto.
Qed.


(** The loop keeps every line at its index: line [i] afterwards is line [i]
    before, possibly unwrapped. *)
Lemma rewrite_categories_in_place order lines lines' :
  rewrite_categories order lines = Ok lines' ->
  Forall2 (rewritten order) lines lines'.
Proof.
  revert lines. induction order as [|c order IH]; intros lines.
  - cbn. intros [= ->]. apply Forall2_same_length_lookup. split; [done|].
    intros i x y Hx Hy. rewrite Hx in Hy. injection Hy as ->. constructor.
  - cbn [rewrite_categories]. unfold mbind, result_bind.
    destruct (rewrite_category c lines) as [lines1|e] eqn:Hc; [|done].
    intros Hrest. apply IH in Hrest.
    assert (Forall2 (rewritten (c :: order)) lines lines1) as H1.
    { unfold rewrite_category in Hc.
      destruct (first_line_with c lines) as [i|] eqn:Hi; [|done].
      apply first_line_with_Some in Hi as (line & Hl & Hin & _).
      rewrite Hl in Hc. injection Hc as <-.
      rewrite <- (list_insert_id lines i line) at 1 by done.
      apply Forall2_insert.
      - apply Forall2_same_length_lookup. split; [done|].
        intros j x y Hx Hy. rewrite Hx in Hy. injection Hy as ->. constructor.
      - eapply rewritten_unwrap; [by left|done|constructor]. }
    apply Forall2_same_length_lookup. split.
    { apply Forall2_length in H1, Hrest. congruence. }
    intros i x z Hx Hz.
    destruct (Forall2_lookup_l _ _ _ _ _ H1 Hx) as (y & Hy & Hxy).
    pose proof (Forall2_lookup_lr _ _ _ _ _ _ Hrest Hy Hz) as Hyz.
    eapply rewritten_trans; [done|].
    eapply rewritten_weaken; [|done]. set_solver.
Qed.

(** The loop ends either with the rewritten lines or with the [TypeError]
    of indexing by [None]. *)
Lemma rewrite_categories_error order lines e :
  rewrite_categories order lines = Raise e -> e = TypeError NONE_INDEX.
Proof.
  revert lines. induction order as [|c order IH]; intros lines; [done|].
  cbn [rewrite_categories]. unfold mbind, result_bind, rewrite_category.
  destruct (first_line_with c lines) as [i|] eqn:Hi.
  - apply first_line_with_Some in Hi as (line & -> & _). apply IH.
  - by intros [= <-].
Qed.

(** ** [transform_code] on any input *)

Lemma encode_app s1 s2 : encode (s1 ++ s2) = encode s1 ++ encode s2.
Proof.
  unfold encode, list_byte_of_string. induction s1 as [|c s1 IH]; [done|].
  change (String c s1 +:+ s2) with (String c (s1 +:+ s2)). cbn. by rewrite IH.
Qed.

Lemma pair_opening_bytes category :
  encode (pair_opening category) = x28 :: x22 :: encode category ++ [x22; x2c; x20].
Proof.
  unfold pair_opening.
  change (encode ("(" ++ String "034" category ++ String "034" ", "))
    with (x28 :: x22 :: encode (category ++ String "034" ", ")).
  by rewrite encode_app.
Qed.

Lemma BY_NAME_line_free : line_free BY_NAME_PAIRS /\ line_free BY_NAME_TABLES.
Proof. split; by apply (bool_decide_unpack _); vm_compute. Qed.

(** The lines the loop starts from are the lines of the input, each with the
    declaration replaced. *)
Lemma splitlines_declaration code :
  splitlines (replace BY_NAME_PAIRS BY_NAME_TABLES code) =
  replace BY_NAME_PAIRS BY_NAME_TABLES <$> splitlines code.
Proof.
  destruct BY_NAME_line_free. by apply splitlines_replace.
Qed.

(** What [transform_code] returns is the loop's lines joined by LF. *)
Lemma transform_code_Ok order code out :
  transform_code order code = Ok out ->
  exists lines',
    rewrite_categories order
      (replace BY_NAME_PAIRS BY_NAME_TABLES <$> splitlines code) = Ok lines' /\
    out = join [LF] lines'.
Proof.
  unfold transform_code. rewrite splitlines_declaration.
  unfold mbind, result_bind.
  destruct (rewrite_categories order _) as [lines'|e]; [|done].
  intros [= <-]. by exists lines'.
Qed.

Lemma unwrap_line_free category line : line_free line -> line_free (unwrap category line).
Proof.
  intros Hl. unfold unwrap, line_free.
  apply replace_Forall; [done|by repeat constructor|].
  apply replace_Forall; [by rewrite pair_opening_bytes|constructor|done].
Qed.

Lemma rewritten_line_free order l l' :
  rewritten order l l' -> line_free l -> line_free l'.
Proof. induction 1; eauto using unwrap_line_free. Qed.


(** C3: when [transform_code] returns, its output is a list of lines joined
    by LF in which line [i] is line [i] of the input, with the declaration
    replaced and unwrapped zero or more times: no line moves, none is added
    and none is dropped. *)
Theorem transform_keeps_positions order code out :
  transform_code order code = Ok out ->
  exists lines',
    out = join [LF] lines' /\
    length lines' = length (splitlines code) /\
    Forall2 (fun line line' =>
               rewritten order (replace BY_NAME_PAIRS BY_NAME_TABLES line) line')
      (splitlines code) lines'.
Proof.
  intros (lines' & Hloop & ->)%transform_code_Ok. exists lines'.
  apply rewrite_categories_in_place in Hloop.
  split; [done|]. split.
  - apply Forall2_length in Hloop. by rewrite length_fmap in Hloop.
  - by apply Forall2_fmap_l.
Qed.

Lemma SAMPLE_runs : transform_code CATEGORIES SAMPLE = Ok SAMPLE_NORMALIZED.
Proof. vm_compute. reflexivity. Qed.

Lemma transform_keeps_positions_witness :
  transform_code CATEGORIES SAMPLE = Ok SAMPLE_NORMALIZED /\
  exists lines',
    SAMPLE_NORMALIZED = join [LF] lines' /\
    length lines' = length (splitlines SAMPLE) /\
    Forall2 (fun line line' =>
               rewritten CATEGORIES (replace BY_NAME_PAIRS BY_NAME_TABLES line) line')
      (splitlines SAMPLE) lines'.
Proof.
  split; [exact SAMPLE_runs|].
  exact (transform_keeps_positions CATEGORIES SAMPLE SAMPLE_NORMALIZED SAMPLE_runs).
Defined.

(** ** The output path *)

Lemma string_app_assoc (s1 s2 s3 : string) :
  ((s1 ++ s2) ++ s3 = s1 ++ (s2 ++ s3))%string.
Proof.
  induction s1 as [|c s1 IH]; [done|].
  change (String c ((s1 +:+ s2) +:+ s3) = String c (s1 +:+ (s2 +:+ s3))).
  by rewrite IH.
Qed.

Lemma list_ascii_of_string_app (s1 s2 : string) :
  list_ascii_of_string (s1 ++ s2)%string =
  list_ascii_of_string s1 ++ list_ascii_of_string s2.
Proof.
  induction s1 as [|c s1 IH]; [done|].
  change (String c s1 +:+ s2) with (String c (s1 +:+ s2)). cbn. by rewrite IH.
Qed.

(** Joining the tables directory and the file name is the same path as
    parsing the whole text. *)
Lemma truediv_tables (name : string) :
  truediv (path_of "src/tables") (String "v" name) =
  path_of ("src/tables/v" ++ name)%string.
Proof. vm_compute. reflexivity. Qed.

(** [Path("src/tables").mkdir(parents=True, exist_ok=True)] returns when
    neither [src] nor [src/tables] is a regular file. *)
Lemma mkdir_tables w :
  is_file (w_fs w) (path_of "src") = false ->
  is_file (w_fs w) (path_of "src/tables") = false ->
  fst (mkdir (path_of "src/tables") w) = Ok tt.
Proof.
  change (path_of "src") with {| root := ""; parts := ["src"] |}.
  change (path_of "src/tables") with {| root := ""; parts := ["src"; "tables"] |}.
  set (src := {| root := ""; parts := ["src"] |}).
  set (tables := {| root := ""; parts := ["src"; "tables"] |}).
  unfold is_file, mkdir. intros Hsrc Htables.
  change (length (parts tables)) with 2. cbn [mkdir_parents].
  unfold os_mkdir at 1. unfold mbind, M_bind, get_fs. cbv beta iota.
  change (parts tables) with ["src"; "tables"].
  change (parent tables) with src.
  destruct (w_fs w !! tables) as [[|c]|] eqn:Ht; [|done|].
  - unfold raise, is_dir. cbn. by rewrite Ht.
  - unfold is_dir at 1. change (parts src) with ["src"].
    destruct (w_fs w !! src) as [[|c]|] eqn:Hs; [|done|].
    + done.
    + unfold raise. rewrite bool_decide_eq_false_2 by done.
      unfold mbind, M_bind. cbn [mkdir_parents].
      unfold os_mkdir at 1. unfold mbind, M_bind, get_fs. cbv beta iota.
      change (parts src) with ["src"]. rewrite Hs.
      unfold is_dir at 1. change (parts (parent src)) with (@nil string).
      unfold put_fs. cbv beta iota. unfold mkdir_exist_ok, os_mkdir.
      unfold mbind, M_bind, get_fs, put_fs. cbn [w_fs].
      change (parts tables) with ["src"; "tables"].
      change (parent tables) with src.
      rewrite lookup_insert_ne by done. rewrite Ht.
      unfold is_dir. change (parts src) with ["src"].
      by rewrite lookup_insert_eq.
Qed.

Lemma string_app_nil_r (s : string) : (s ++ "")%string = s.
Proof.
  induction s as [|c s IH]; [done|].
  change (String c (s +:+ "") = String c s). by rewrite IH.
Qed.

Lemma split_from_no_sep sep cur t :
  Forall (fun c => c ≠ sep) (list_ascii_of_string t) ->
  split_from sep cur t = [(cur ++ t)%string].
Proof.
  revert cur. induction t as [|c t IH]; intros cur Ht; cbn [split_from].
  - by rewrite string_app_nil_r.
  - cbn in Ht. apply Forall_cons in Ht as [Hc Ht].
    apply Ascii.eqb_neq in Hc as ->. rewrite IH by done.
    by rewrite string_app_assoc.
Qed.

(** Without a slash in the file name, the path reads as the text it was
    made from. *)
Lemma path_str_tables (name : string) :
  Forall (fun c => c ≠ "/"%char) (list_ascii_of_string name) ->
  path_str (path_of ("src/tables/v" ++ name)%string) =
  ("src/tables/v" ++ name)%string.
Proof.
  intros Hname. unfold path_of.
  assert (str_split "/" ("src/tables/v" +:+ name) = ["src"; "tables"; String "v" name])
    as ->.
  { transitivity ("src" :: "tables" :: split_from "/" "v" name);
      [by vm_compute|].
    by rewrite split_from_no_sep. }
  by vm_compute.
Qed.

Lemma str_replace_dots_no_slash v :
  Forall (fun c => c ≠ "/"%char) (list_ascii_of_string v) ->
  Forall (fun c => c ≠ "/"%char)
    (list_ascii_of_string (str_replace "." "_" v ++ ".rs")%string).
Proof.
  intros Hv. rewrite list_ascii_of_string_app. apply Forall_app. split.
  - unfold str_replace. rewrite list_ascii_of_string_of_list_ascii.
    apply replace_Forall; [done|by repeat constructor|done].
  - by repeat constructor.
Qed.

(** C6: in a working directory where neither [src] nor [src/tables] is a
    regular file, [get_output_path] returns the path
    [src/tables/v<version>.rs], the version with every ["."] replaced by
    ["_"]; for a version without a slash, that path reads exactly
    ["src/tables/v" + version.replace(".", "_") + ".rs"]. *)
Theorem get_output_path_of_version v w :
  is_file (w_fs w) (path_of "src") = false ->
  is_file (w_fs w) (path_of "src/tables") = false ->
  fst (get_output_path v w) =
  Ok (path_of ("src/tables/v" ++ str_replace "." "_" v ++ ".rs")%string) /\
  (Forall (fun c => c ≠ "/"%char) (list_ascii_of_string v) ->
   path_str (path_of ("src/tables/v" ++ str_replace "." "_" v ++ ".rs")%string) =
   ("src/tables/v" ++ str_replace "." "_" v ++ ".rs")%string).
Proof.
  intros Hsrc Htables. split.
  - unfold get_output_path, mbind, M_bind.
    pose proof (mkdir_tables w Hsrc Htables) as Hm.
    destruct (mkdir (path_of "src/tables") w) as [[[]|e] w']; [|done].
    unfold mret, M_ret. cbn [fst].
    exact (f_equal Ok (truediv_tables (str_replace "." "_" v +:+ ".rs"))).
  - intros Hv. apply path_str_tables. by apply str_replace_dots_no_slash.
Qed.

Lemma get_output_path_of_version_witness :
  fst (get_output_path "15.0.0" empty_world) = Ok (path_of "src/tables/v15_0_0.rs") /\
  path_str (path_of "src/tables/v15_0_0.rs") = "src/tables/v15_0_0.rs" /\
  fst (get_output_path "14.0.0" empty_world) = Ok (path_of "src/tables/v14_0_0.rs") /\
  path_str (path_of "src/tables/v14_0_0.rs") = "src/tables/v14_0_0.rs".
Proof.
  destruct (get_output_path_of_version "15.0.0" empty_world eq_refl eq_refl)
    as [H15 S15].
  destruct (get_output_path_of_version "14.0.0" empty_world eq_refl eq_refl)
    as [H14 S14].
  split; [exact H15|]. split; [apply S15; by repeat constructor|].
  split; [exact H14|]. apply S14; by repeat constructor.
Defined.

Lemma SAMPLE_MISSING_raises :
  transform_code CATEGORIES SAMPLE_MISSING = Raise (TypeError NONE_INDEX).
Proof. vm_compute. reflexivity. Qed.

Lemma main_writes_after_transform_witness :
  raises_upstream (answering SAMPLE_MISSING) "15.0.0" empty_world
    (TypeError NONE_INDEX) /\
  fst (main (answering SAMPLE_MISSING) ["generate_tables.py"; "15.0.0"] empty_world) =
    Raise (TypeError NONE_INDEX) /\
  w_fs (snd (main (answering SAMPLE_MISSING) ["generate_tables.py"; "15.0.0"]
               empty_world)) = ∅ /\
  (w_fs (snd (main (answering SAMPLE) ["generate_tables.py"; "15.0.0"] empty_world))
     !! path_of "src/tables/v15_0_0.rs" = Some (File SAMPLE_NORMALIZED) /\
   (w_fs empty_world !! path_of "src/tables/v15_0_0.rs" = Some (File SAMPLE_NORMALIZED) \/
    fst (produce (answering SAMPLE) "15.0.0" empty_world) = Ok SAMPLE_NORMALIZED)).
Proof.
  assert (raises_upstream (answering SAMPLE_MISSING) "15.0.0" empty_world
            (TypeError NONE_INDEX)) as Hraises.
  { eapply transform_code_raises;
      [reflexivity|reflexivity|reflexivity|exact SAMPLE_MISSING_raises]. }
  split; [exact Hraises|].
  destruct (main_writes_after_transform (answering SAMPLE_MISSING)
              "generate_tables.py" "15.0.0" empty_world) as [Hfail _].
  destruct (Hfail _ Hraises) as [Hexn Hfs].
  split; [exact Hexn|]. split; [exact Hfs|].
  destruct (main_writes_after_transform (answering SAMPLE)
              "generate_tables.py" "15.0.0" empty_world) as [_ Hfile].
  assert (w_fs (snd (main (answering SAMPLE) ["generate_tables.py"; "15.0.0"] empty_world))
            !! path_of "src/tables/v15_0_0.rs" = Some (File SAMPLE_NORMALIZED)) as Hwritten.
  { vm_compute. reflexivity. }
  split; [exact Hwritten|]. exact (Hfile _ _ Hwritten).
Defined.

(** ** The loop on lines that name one category each *)

Lemma single_named_other line c c' :
  single_named line = true ->
  c ∈ CATEGORIES -> c' ∈ CATEGORIES -> c' ≠ c ->
  contains (encode c) line = true ->
  contains (encode c') line = false /\
  contains (encode c') (unwrap c line) = false.
Proof.
  unfold single_named. rewrite forallb_forall. intros Hs Hc Hc' Hne Hin.
  specialize (Hs c (proj1 (list_elem_of_In _ _) Hc)). rewrite Hin in Hs.
  rewrite forallb_forall in Hs.
  specialize (Hs c' (proj1 (list_elem_of_In _ _) Hc')). cbn beta in Hs.
  destruct (String.eqb c' c) eqn:Heq; [by apply String.eqb_eq in Heq|].
  destruct (contains (encode c') line); [done|].
  by apply negb_true_iff in Hs.
Qed.

Lemma named_Some line c :
  named line = Some c -> c ∈ CATEGORIES /\ contains (encode c) line = true.
Proof.
  unfold named. intros [Hin Hc]%find_some. split; [|done].
  by apply list_elem_of_In.
Qed.

Lemma named_single line c :
  single_named line = true -> c ∈ CATEGORIES ->
  contains (encode c) line = true -> named line = Some c.
Proof.
  intros Hs Hc Hin. destruct (named line) as [c'|] eqn:Hn.
  - apply named_Some in Hn as [Hc' Hin']. destruct (decide (c' = c)) as [->|Hne]; [done|].
    destruct (single_named_other line c c' Hs Hc Hc' Hne Hin). congruence.
  - unfold named in Hn. pose proof (find_none _ _ Hn c) as Hf. cbn beta in Hf.
    rewrite Hf in Hin; [done|]. by apply list_elem_of_In.
Qed.

(** A category whose turn has not come is on the same lines as at the
    start. *)
Lemma settle_contains done lines j line c :
  single_named line = true -> c ∈ CATEGORIES -> c ∉ done ->
  contains (encode c) (settle done lines j line) = contains (encode c) line.
Proof.
  intros Hs Hc Hdone. unfold settle. destruct (named line) as [c'|] eqn:Hn; [|done].
  destruct (bool_decide (c' ∈ done)) eqn:Hd; [|done].
  destruct (bool_decide (first_line_with c' lines = Some j)); [|done]. cbn [andb].
  apply bool_decide_eq_true in Hd. apply named_Some in Hn as [Hc' Hin'].
  assert (c ≠ c') as Hne by (intros ->; done).
  destruct (single_named_other line c' c Hs Hc' Hc Hne Hin'). congruence.
Qed.

Lemma settled_lookup done lines i :
  settled done lines !! i = settle done lines i <$> lines !! i.
Proof. unfold settled. apply list_lookup_imap. Qed.

Lemma first_line_with_settled done lines c :
  forallb single_named lines = true -> c ∈ CATEGORIES -> c ∉ done ->
  first_line_with c (settled done lines) = first_line_with c lines.
Proof.
  rewrite forallb_forall. intros Hs Hc Hdone.
  assert (forall j y, lines !! j = Some y ->
            contains (encode c) (settle done lines j y) = contains (encode c) y) as Hsame.
  { intros j y Hj. apply settle_contains; [|done..]. apply Hs.
    apply list_elem_of_In, list_elem_of_lookup. by exists j. }
  destruct (first_line_with c lines) as [i|] eqn:Hi.
  - apply first_line_with_Some in Hi as (line & Hl & Hin & Hmin).
    apply first_line_with_Some. exists (settle done lines i line).
    split; [by rewrite settled_lookup, Hl|]. split; [by rewrite Hsame|].
    intros j y Hj Hlt. rewrite settled_lookup in Hj.
    destruct (lines !! j) as [lj|] eqn:Hlj; [|done].
    cbn in Hj. injection Hj as <-. rewrite (Hsame j lj Hlj). by apply (Hmin j).
  - apply first_line_with_None in Hi. apply first_line_with_None.
    apply Forall_forall. intros y [j Hj]%list_elem_of_lookup.
    rewrite settled_lookup in Hj. destruct (lines !! j) as [lj|] eqn:Hlj; [|done].
    cbn in Hj. injection Hj as <-. rewrite (Hsame j lj Hlj).
    rewrite Forall_forall in Hi. apply Hi, list_elem_of_lookup. by exists j.
Qed.

(** The turn of [c] takes [settled done] to [settled (done ++ [c])]. *)
Lemma settled_turn done lines c i line :
  forallb single_named lines = true -> c ∈ CATEGORIES -> c ∉ done ->
  first_line_with c lines = Some i -> lines !! i = Some line ->
  <[i := unwrap c line]> (settled done lines) = settled (done ++ [c]) lines.
Proof.
  rewrite forallb_forall. intros Hs Hc Hdone Hi Hl.
  pose proof Hi as (line' & Hl' & Hin & _)%first_line_with_Some.
  rewrite Hl in Hl'. injection Hl' as <-.
  assert (named line = Some c) as Hn.
  { apply named_single; [|done..]. apply Hs, list_elem_of_In, list_elem_of_lookup.
    by exists i. }
  apply list_eq. intros j. destruct (decide (i = j)) as [<-|Hne].
  - rewrite list_lookup_insert_eq.
    + rewrite settled_lookup, Hl. cbn. unfold settle. rewrite Hn.
      rewrite bool_decide_eq_true_2 by (apply elem_of_app; right; by left).
      by rewrite bool_decide_eq_true_2.
    + unfold settled. rewrite length_imap. by apply lookup_lt_Some in Hl.
  - rewrite list_lookup_insert_ne by done. rewrite !settled_lookup.
    destruct (lines !! j) as [lj|]; [|done]. cbn. f_equal. unfold settle.
    destruct (named lj) as [c'|]; [|done].
    destruct (decide (c' = c)) as [->|Hc'].
    + rewrite (bool_decide_eq_false_2 (first_line_with c lines = Some j))
        by (rewrite Hi; congruence).
      by rewrite !andb_false_r.
    + assert (bool_decide (c' ∈ done ++ [c]) = bool_decide (c' ∈ done)) as ->; [|done].
      apply bool_decide_ext. rewrite elem_of_app, list_elem_of_singleton. tauto.
Qed.

Lemma settled_nil lines : settled [] lines = lines.
Proof.
  apply list_eq. intros i. rewrite settled_lookup.
  destruct (lines !! i) as [l|]; [|done]. cbn. f_equal. unfold settle.
  destruct (named l); [|done]. rewrite bool_decide_eq_false_2; [done|].
  apply not_elem_of_nil.
Qed.

(** The loop, started after the turns of [done], on lines that name one
    category each: it ends with the [TypeError] if a name of [todo] is on no
    line, and otherwise leaves the lines settled for [done ++ todo]. *)
Lemma rewrite_categories_settled todo done lines :
  forallb single_named lines = true ->
  NoDup (done ++ todo) -> done ++ todo ⊆ CATEGORIES ->
  rewrite_categories todo (settled done lines) =
  if forallb (fun c => existsb (contains (encode c)) lines) todo
  then Ok (settled (done ++ todo) lines)
  else Raise (TypeError NONE_INDEX).
Proof.
  intros Hs. revert done. induction todo as [|c todo IH]; intros done Hnd Hsub.
  - by rewrite app_nil_r.
  - assert (c ∈ CATEGORIES) as Hc by (apply Hsub; set_solver).
    assert (c ∉ done) as Hdone.
    { apply NoDup_app in Hnd as (_ & Hdisj & _). intros Hin.
      apply (Hdisj c Hin). by left. }
    cbn [rewrite_categories forallb]. unfold mbind, result_bind.
    pose proof (first_line_with_settled done lines c Hs Hc Hdone) as Hfirst.
    destruct (first_line_with c lines) as [i|] eqn:Hi.
    + pose proof Hi as (line & Hl & Hin & _)%first_line_with_Some.
      destruct (rewrite_category_found c _ i Hfirst) as (line' & Hl' & _ & ->).
      rewrite settled_lookup, Hl in Hl'. cbn in Hl'. injection Hl' as <-.
      assert (settle done lines i line = line) as ->.
      { unfold settle. rewrite (named_single line c); [|
          rewrite forallb_forall in Hs;
          apply Hs, list_elem_of_In, list_elem_of_lookup; by exists i|done..].
        by rewrite (bool_decide_eq_false_2 (c ∈ done)). }
      rewrite (settled_turn done lines c i line) by done.
      assert (existsb (contains (encode c)) lines = true) as ->.
      { apply existsb_exists. exists line. split; [|done].
        apply list_elem_of_In, list_elem_of_lookup. by exists i. }
      cbn [andb]. rewrite IH.
      * by rewrite <- app_assoc.
      * by rewrite <- app_assoc.
      * by rewrite <- app_assoc.
    + rewrite (rewrite_category_missing c _ Hfirst).
      assert (existsb (contains (encode c)) lines = false) as ->; [|done].
      apply first_line_with_None in Hi. rewrite Forall_forall in Hi.
      apply not_true_is_false. intros (l & Hl & Hin)%existsb_exists.
      apply list_elem_of_In, Hi in Hl. congruence.
Qed.

Lemma settled_permutation order lines :
  order ≡ₚ CATEGORIES -> settled order lines = settled CATEGORIES lines.
Proof.
  intros Hperm. apply list_eq. intros i. rewrite !settled_lookup.
  destruct (lines !! i) as [l|]; [|done]. cbn. f_equal. unfold settle.
  destruct (named l) as [c|]; [|done].
  assert (bool_decide (c ∈ order) = bool_decide (c ∈ CATEGORIES)) as ->; [|done].
  apply bool_decide_ext. by rewrite Hperm.
Qed.

(** On lines that name one category each, whatever the enumeration order:
    the loop ends with the [TypeError] if some name is on no line, and
    otherwise unwraps, for every category, the first line that names it. *)
Lemma rewrite_categories_any_order order lines :
  order ≡ₚ CATEGORIES -> forallb single_named lines = true ->
  rewrite_categories order lines =
  if every_name_present lines
  then Ok (settled CATEGORIES lines)
  else Raise (TypeError NONE_INDEX).
Proof.
  intros Hperm Hs.
  rewrite <- (settled_nil lines) at 1.
  rewrite rewrite_categories_settled; [|done|..].
  - cbn [app]. rewrite (settled_permutation order) by done.
    assert (forallb (fun c => existsb (contains (encode c)) lines) order
            = every_name_present lines) as ->; [|done].
    unfold every_name_present. apply eq_true_iff_eq. rewrite !forallb_forall.
    split; intros H c Hin; apply H; apply list_elem_of_In;
      apply list_elem_of_In in Hin.
    + by rewrite Hperm.
    + by rewrite <- Hperm.
  - cbn [app]. rewrite Hperm. by apply (bool_decide_unpack _); vm_compute.
  - cbn [app]. by rewrite Hperm.
Qed.

(** Whatever the input and the order, the only exception [transform_code]
    raises is the [TypeError] of indexing with [None]. *)
Lemma transform_code_error order code e :
  transform_code order code = Raise e -> e = TypeError NONE_INDEX.
Proof.
  unfold transform_code, mbind, result_bind.
  destruct (rewrite_categories order _) as [lines'|e'] eqn:Hloop; [done|].
  intros [= <-]. by apply rewrite_categories_error in Hloop.
Qed.

Lemma transform_code_any_order order code :
  order ≡ₚ CATEGORIES -> forallb single_named (lines_of code) = true ->
  transform_code order code =
  if every_name_present (lines_of code)
  then Ok (join [LF] (settled CATEGORIES (lines_of code)))
  else Raise (TypeError NONE_INDEX).
Proof.
  intros Hperm Hs. unfold transform_code. fold (lines_of code).
  rewrite rewrite_categories_any_order by done.
  by destruct (every_name_present (lines_of code)).
Qed.

Lemma FORMAT_FIRST_permutation : FORMAT_FIRST ≡ₚ CATEGORIES.
Proof. apply (bool_decide_unpack _). vm_compute. exact I. Qed.

(** ** Index entries *)


(** With exactly one element that satisfies [f], two indices whose elements
    satisfy [f] are the same index. *)
Lemma filter_one_index {A} (f : A -> bool) (l : list A) i j x y :
  length (List.filter f l) = 1 ->
  l !! i = Some x -> f x = true -> l !! j = Some y -> f y = true -> i = j.
Proof.
  revert i j. induction l as [|a l IH]; intros i j Hlen Hi Hx Hj Hy; [done|].
  cbn [List.filter] in Hlen. destruct (f a) eqn:Ha.
  - cbn in Hlen. assert (List.filter f l = []) as Hnone by by destruct (List.filter f l).
    assert (forall k z, l !! k = Some z -> f z = false) as Hl.
    { intros k z Hk. destruct (f z) eqn:Hz; [|done].
      assert (In z (List.filter f l)) as Hin.
      { apply filter_In. split; [|done]. apply list_elem_of_In, list_elem_of_lookup. eauto. }
      by rewrite Hnone in Hin. }
    destruct i as [|i], j as [|j]; [done|..].
    + cbn in Hj. apply Hl in Hj. congruence.
    + cbn in Hi. apply Hl in Hi. congruence.
    + cbn in Hi. apply Hl in Hi. congruence.
  - destruct i as [|i], j as [|j]; cbn in Hi, Hj; try congruence.
    f_equal. by apply IH.
Qed.

Lemma encode_inj c1 c2 : encode c1 = encode c2 -> c1 = c2.
Proof.
  unfold encode. intros H.
  by rewrite <- (string_of_list_byte_of_string c1), H, string_of_list_byte_of_string.
Qed.

(** The bytes of a category name: none is a quote, a blank, a comma, a
    parenthesis or a line feed. *)
Lemma category_bytes c :
  c ∈ CATEGORIES ->
  encode c ≠ [] /\
  Forall (fun b => b ∉ [DQUOTE; x20; x09; x2c; x28; x29; LF]) (encode c).
Proof.
  revert c. apply Forall_forall. apply (bool_decide_unpack _). vm_compute. exact I.
Qed.

Lemma category_byte_free c b :
  c ∈ CATEGORIES -> b ∈ [DQUOTE; x20; x09; x2c; x28; x29; LF] -> b ∉ encode c.
Proof.
  intros [_ Hc]%category_bytes Hb Hin. rewrite Forall_forall in Hc.
  by apply (Hc b Hin).
Qed.

Lemma blank_not_elem b indent :
  blank b = false -> Forall (fun b => blank b = true) indent -> b ∉ indent.
Proof.
  intros Hb Hi Hin. rewrite Forall_forall in Hi. specialize (Hi b Hin). congruence.
Qed.

Lemma entry_line_contains indent c ranges :
  contains (encode c) (entry_line indent c ranges) = true.
Proof.
  apply contains_occurs. unfold entry_line. rewrite pair_opening_bytes.
  exists (indent ++ [x28; x22]), ([x22; x2c; x20] ++ ranges ++ PAIR_CLOSING).
  rewrite <- ?app_assoc. cbn [app]. by rewrite <- ?app_assoc.
Qed.

(** An entry line is the entry of one category only. *)
Lemma entry_line_category i1 c1 r1 i2 c2 r2 :
  c1 ∈ CATEGORIES -> c2 ∈ CATEGORIES ->
  Forall (fun b => blank b = true) i1 -> Forall (fun b => blank b = true) i2 ->
  entry_line i1 c1 r1 = entry_line i2 c2 r2 -> c1 = c2.
Proof.
  intros Hc1 Hc2 Hi1 Hi2. unfold entry_line. rewrite !pair_opening_bytes.
  cbn [app]. intros Heq.
  apply not_elem_of_app_cons_inv_l in Heq as (_ & _ & Heq);
    [|by apply blank_not_elem..].
  injection Heq as Heq. rewrite <- !app_assoc in Heq. cbn [app] in Heq.
  apply not_elem_of_app_cons_inv_l in Heq as (Heq & _ & _).
  - by apply encode_inj.
  - apply category_byte_free; [done|]. by left.
  - apply category_byte_free; [done|]. by left.
Qed.

(** Unwrapping an index entry leaves the blanks, the ranges and a comma. *)
Lemma unwrap_entry_line indent c ranges :
  c ∈ CATEGORIES ->
  Forall (fun b => blank b = true) indent ->
  DQUOTE ∉ ranges -> contains PAIR_CLOSING ranges = false ->
  unwrap c (entry_line indent c ranges) = indent ++ ranges ++ COMMA.
Proof.
  intros Hc Hindent Hq Hclose. unfold unwrap, entry_line.
  assert (forall old : bytes,
            match old with b :: _ => blank b = false | [] => False end ->
            no_start old indent = true) as Hstart.
  { intros [|a old] Ha; [done|]. induction Hindent as [|b indent Hb _ IH]; [done|].
    cbn [no_start starts_with]. rewrite IH.
    assert (a ≠ b) as Hne by (intros ->; congruence).
    rewrite (bool_decide_eq_false_2 (a = b)) by done.
    by rewrite (bool_decide_eq_false_2 (b = a)). }
  rewrite replace_app_no_start; [|by rewrite pair_opening_bytes|
    apply Hstart; by rewrite pair_opening_bytes].
  assert (encode (pair_opening c) ≠ []) as Hopening
    by by rewrite pair_opening_bytes.
  rewrite (replace_match (encode (pair_opening c)) [] (ranges ++ PAIR_CLOSING))
    by done.
  rewrite (replace_absent (encode (pair_opening c))); [|done|].
  - cbn [app]. rewrite replace_app_no_start; [|done|by apply Hstart].
    f_equal. by apply (replace_pair_at_end x29 x2c).
  - apply (contains_needs DQUOTE).
    + rewrite pair_opening_bytes. right. by left.
    + rewrite elem_of_app. intros [?|Hin]; [done|]. revert Hin.
      by apply (bool_decide_unpack (DQUOTE ∉ PAIR_CLOSING)).
Qed.

Lemma well_formed_category indent_of ranges_of lines c :
  entries_well_formed indent_of ranges_of lines -> c ∈ CATEGORIES ->
  length (lines_with c lines) = 1 /\
  entry_line (indent_of c) c (ranges_of c) ∈ lines /\
  Forall (fun b => blank b = true) (indent_of c) /\
  (DQUOTE ∉ ranges_of c) /\
  contains PAIR_CLOSING (ranges_of c) = false.
Proof.
  unfold entries_well_formed. rewrite Forall_forall. intros H Hc. by apply H.
Qed.

(** A line that holds the name of [c] is the entry of [c], and stands at
    its index. *)
Lemma well_formed_entry indent_of ranges_of lines c j line :
  entries_well_formed indent_of ranges_of lines -> c ∈ CATEGORIES ->
  lines !! j = Some line -> contains (encode c) line = true ->
  line = entry_line (indent_of c) c (ranges_of c) /\
  first_line_with c lines = Some j.
Proof.
  intros Hwf Hc Hj Hin.
  destruct (well_formed_category _ _ _ c Hwf Hc) as (Hone & Hentry & _).
  apply list_elem_of_lookup in Hentry as [i Hi]. split.
  - pose proof (filter_one_index _ lines i j _ _ Hone Hi
                  (entry_line_contains _ _ _) Hj Hin) as ->. congruence.
  - apply first_line_with_Some. exists line. split; [done|]. split; [done|].
    intros k y Hk Hlt. destruct (contains (encode c) y) eqn:Hy; [|done].
    pose proof (filter_one_index _ lines k j _ _ Hone Hk Hy Hj Hin). lia.
Qed.

Lemma entry_line_contains_ranges (p : bytes) indent c ranges :
  contains p ranges = true -> contains p (entry_line indent c ranges) = true.
Proof.
  intros Hp. unfold entry_line.
  by apply contains_app_r, contains_app_r, contains_app_l.
Qed.

Lemma well_formed_single_named indent_of ranges_of lines :
  entries_well_formed indent_of ranges_of lines ->
  forallb single_named lines = true.
Proof.
  intros Hwf. apply forallb_forall. intros line Hline.
  apply list_elem_of_In, list_elem_of_lookup in Hline as [j Hj].
  unfold single_named. apply forallb_forall. intros c Hc%list_elem_of_In.
  destruct (contains (encode c) line) eqn:Hin; [|done].
  destruct (well_formed_entry _ _ _ c j line Hwf Hc Hj Hin) as [Hline _].
  destruct (well_formed_category _ _ _ c Hwf Hc) as (_ & _ & Hblank & Hq & Hclose).
  apply forallb_forall. intros c' Hc'%list_elem_of_In.
  destruct (String.eqb c' c) eqn:Heq; [done|]. apply String.eqb_neq in Heq.
  destruct (category_bytes c' Hc') as [Hne Hbytes].
  destruct (contains (encode c') line) eqn:Hin'.
  - destruct (well_formed_entry _ _ _ c' j line Hwf Hc' Hj Hin') as [Hline' _].
    destruct (well_formed_category _ _ _ c' Hwf Hc') as (_ & _ & Hblank' & _).
    destruct Heq. symmetry.
    apply (entry_line_category (indent_of c) c (ranges_of c)
             (indent_of c') c' (ranges_of c')); [done..|congruence].
  - apply negb_true_iff. rewrite Hline, unwrap_entry_line by done.
    rewrite contains_strip; [|done|..].
    + destruct (contains (encode c') (ranges_of c)) eqn:Hr; [|done].
      apply (entry_line_contains_ranges _ (indent_of c) c) in Hr. congruence.
    + eapply Forall_impl; [exact Hblank|]. intros b Hb.
      apply category_byte_free; [done|]. unfold blank in Hb.
      case_bool_decide; [subst; by apply (bool_decide_unpack _)|].
      apply bool_decide_eq_true in Hb. subst. by apply (bool_decide_unpack _).
    + repeat constructor. apply category_byte_free; [done|].
      by apply (bool_decide_unpack _).
Qed.

Lemma well_formed_every_name indent_of ranges_of lines :
  entries_well_formed indent_of ranges_of lines ->
  every_name_present lines = true.
Proof.
  intros Hwf. apply forallb_forall. intros c Hc%list_elem_of_In.
  destruct (well_formed_category _ _ _ c Hwf Hc) as (_ & Hentry & _).
  apply existsb_exists. exists (entry_line (indent_of c) c (ranges_of c)).
  split; [by apply list_elem_of_In|]. apply entry_line_contains.
Qed.

(** Where the lines settle when the entries are well formed: an entry
    becomes its ranges and a comma, a line without a name stays. *)
Lemma well_formed_settle indent_of ranges_of lines j line :
  entries_well_formed indent_of ranges_of lines ->
  lines !! j = Some line ->
  match named line with
  | Some c =>
    c ∈ CATEGORIES /\
    line = entry_line (indent_of c) c (ranges_of c) /\
    settle CATEGORIES lines j line = indent_of c ++ ranges_of c ++ COMMA
  | None => settle CATEGORIES lines j line = line
  end.
Proof.
  intros Hwf Hj. unfold settle. destruct (named line) as [c|] eqn:Hn; [|done].
  apply named_Some in Hn as [Hc Hin].
  destruct (well_formed_entry _ _ _ c j line Hwf Hc Hj Hin) as [Hline Hfirst].
  destruct (well_formed_category _ _ _ c Hwf Hc) as (_ & _ & Hblank & Hq & Hclose).
  split; [done|]. split; [done|].
  rewrite (bool_decide_eq_true_2 (c ∈ CATEGORIES)) by done.
  rewrite (bool_decide_eq_true_2 (first_line_with c lines = Some j)) by done.
  cbn [andb]. rewrite Hline at 1. by apply unwrap_entry_line.
Qed.

Lemma pair_opening_facts c :
  c ∈ CATEGORIES ->
  encode (pair_opening c) ≠ [] /\
  (LF ∉ encode (pair_opening c)) /\
  (DQUOTE ∈ encode (pair_opening c)) /\
  contains (encode c) (encode (pair_opening c)) = true.
Proof.
  intros Hc. rewrite pair_opening_bytes. split; [done|]. split; [|split].
  - pose proof (category_byte_free c LF Hc) as Hfree.
    rewrite !elem_of_cons, elem_of_app, !elem_of_cons, elem_of_nil.
    intros [?|[?|[?|[?|[?|[?|[]]]]]]]; try done. apply Hfree; [|done].
    by apply (bool_decide_unpack _).
  - right. by left.
  - apply contains_occurs. by exists [x28; x22], [x22; x2c; x20].
Qed.

Lemma SAMPLE_well_formed :
  entries_well_formed (fun _ => encode "  ") (fun c => encode (table_name c))
    (lines_of SAMPLE).
Proof. apply (bool_decide_unpack _). vm_compute. exact I. Qed.

(** * Further properties *)

(** ** [transform_code] only deletes *)

Section sublist_facts.
Context {A : Type} `{EqDecision A}.
Implicit Types p s t old new : list A.

Lemma subsequence_sublist p s : subsequence p s = true -> p `sublist_of` s.
Proof.
  revert p. induction s as [|b s IH]; intros [|a p]; cbn [subsequence]; try done.
  - intros _. apply sublist_nil_l.
  - case_bool_decide as Hab.
    + subst b. intros Hp. by apply sublist_skip, IH.
    + intros Hp. by apply sublist_cons, IH.
Qed.

(** Replacing occurrences by a text that can be read in them deletes
    elements and does nothing else. *)
Lemma replace_sublist old new s :
  old ≠ [] -> new `sublist_of` old -> replace old new s `sublist_of` s.
Proof.
  intros Hold Hnew. revert s. apply (replace_scan_ind old); [done|..].
  - by rewrite replace_nil.
  - intros t IH. rewrite replace_match by done. by apply sublist_app.
  - intros b s Hs IH. rewrite replace_keep by done. by apply sublist_skip.
Qed.

Lemma replace_length_le old new s :
  old ≠ [] -> new `sublist_of` old ->
  (length (replace old new s) <= length s)%nat.
Proof. intros Hold Hnew. by apply sublist_length, replace_sublist. Qed.

(** A stretch in which no occurrence of [p] can start holds no occurrence
    of its own. *)
Lemma contains_app_no_start p u t :
  no_start p u = true -> contains p (u ++ t) = contains p t.
Proof.
  induction u as [|b u IH]; [done|]. intros Hu.
  pose proof (no_start_starts_with p (b :: u) t) as Hs.
  cbn [app contains] in *. rewrite Hs by done.
  apply IH. cbn [no_start] in Hu. by apply andb_true_iff in Hu as [_ ?].
Qed.
End sublist_facts.

Lemma unwrap_sublist category line : unwrap category line `sublist_of` line.
Proof.
  unfold unwrap. etrans.
  - apply replace_sublist; [done|]. by apply subsequence_sublist.
  - apply replace_sublist; [by rewrite pair_opening_bytes|apply sublist_nil_l].
Qed.

Lemma rewritten_sublist order l l' : rewritten order l l' -> l' `sublist_of` l.
Proof.
  induction 1 as [|c l l' _ _ _ IH]; [done|]. etrans; [exact IH|].
  apply unwrap_sublist.
Qed.

Lemma declaration_sublist line :
  replace BY_NAME_PAIRS BY_NAME_TABLES line `sublist_of` line.
Proof. apply replace_sublist; [done|]. by apply subsequence_sublist. Qed.

Lemma transform_lines_sublist order code out :
  transform_code order code = Ok out ->
  exists lines',
    out = join [LF] lines' /\
    Forall2 (fun line line' => line' `sublist_of` line) (splitlines code) lines'.
Proof.
  intros (lines' & Hloop & ->)%transform_code_Ok. exists lines'.
  split; [done|]. apply rewrite_categories_in_place in Hloop.
  rewrite Forall2_fmap_l in Hloop. eapply Forall2_impl; [exact Hloop|].
  intros l l' Hr. cbn beta in Hr. etrans; [by apply rewritten_sublist in Hr|].
  apply declaration_sublist.
Qed.

(** X1: when [transform_code] returns, every line of its output can be read
    in the line of the input at the same index, from left to right, skipping
    bytes: within a line the transform deletes bytes, and neither adds nor
    changes nor reorders any. *)
Theorem transform_only_deletes order code out :
  transform_code order code = Ok out ->
  exists lines',
    out = join [LF] lines' /\
    Forall2 (fun line line' => line' `sublist_of` line) (splitlines code) lines'.
Proof. apply transform_lines_sublist. Qed.

Lemma transform_only_deletes_witness :
  transform_code CATEGORIES SAMPLE = Ok SAMPLE_NORMALIZED /\
  exists lines',
    SAMPLE_NORMALIZED = join [LF] lines' /\
    Forall2 (fun line line' => line' `sublist_of` line) (splitlines SAMPLE) lines'.
Proof.
  split; [exact SAMPLE_runs|].
  exact (transform_only_deletes CATEGORIES SAMPLE SAMPLE_NORMALIZED SAMPLE_runs).
Defined.

(** ** The output is no longer than the input *)

Lemma join_cons_length_le sep l ls :
  (length (join sep (l :: ls)) <= length l + length sep + length (join sep ls))%nat.
Proof.
  destruct ls as [|l' ls]; [cbn; lia|].
  rewrite join_cons by done. rewrite !length_app. lia.
Qed.

Lemma join_length_mono sep ls ls' :
  Forall2 (fun l l' => (length l' <= length l)%nat) ls ls' ->
  (length (join sep ls') <= length (join sep ls))%nat.
Proof.
  induction 1 as [|l l' ls ls' Hl Hls IH]; [done|].
  destruct Hls as [|l2 l2' ls ls' Hl2 Hls]; [done|].
  rewrite (join_cons sep l'), (join_cons sep l) by done.
  rewrite !length_app. lia.
Qed.

(** Splitting into lines and joining them with LF does not make a text
    longer. *)
Lemma splitlines_from_join_length cur s :
  (length (join [LF] (splitlines_from cur s)) <= length cur + length s)%nat.
Proof.
  revert cur. induction s as [s IH] using (induction_ltof1 _ (@length byte)).
  unfold ltof in IH. intros cur.
  destruct (line_span s) as (l & rest & -> & Hl & Hrest).
  rewrite splitlines_from_line by done. rewrite length_app.
  destruct rest as [|b rest].
  - rewrite splitlines_from_end. destruct (cur ++ l) eqn:Hcl; [cbn; lia|].
    rewrite <- Hcl. cbn [join]. rewrite length_app. lia.
  - assert (forall r, (length r < length (l ++ b :: rest))%nat ->
              (length (join [LF] ((cur ++ l) :: splitlines r))
               <= length cur + (length l + S (length r)))%nat) as Hstep.
    { intros r Hr. etrans; [apply join_cons_length_le|].
      specialize (IH r Hr []). unfold splitlines. rewrite length_app.
      cbn [length] in *. lia. }
    apply is_linebreak_true in Hrest as [->| ->].
    + rewrite splitlines_from_LF. cbn [length]. apply Hstep.
      rewrite length_app. cbn. lia.
    + destruct rest as [|b rest].
      * rewrite splitlines_from_CR by done. cbn [length]. apply (Hstep []).
        rewrite length_app. cbn. lia.
      * destruct (decide (b = LF)) as [->|Hb].
        -- rewrite splitlines_from_CRLF. cbn [length].
           etrans; [apply Hstep; rewrite length_app; cbn; lia|]. lia.
        -- rewrite splitlines_from_CR by done. cbn [length]. apply Hstep.
           rewrite length_app. cbn. lia.
Qed.

(** X2: when [transform_code] returns, its output has at most as many bytes
    as its input. *)
Theorem transform_never_grows order code out :
  transform_code order code = Ok out -> (length out <= length code)%nat.
Proof.
  intros (lines' & -> & Hsub)%transform_lines_sublist.
  etrans; [|apply (splitlines_from_join_length [] code)].
  apply join_length_mono. eapply Forall2_impl; [exact Hsub|].
  intros l l' Hl. by apply sublist_length.
Qed.

Lemma transform_never_grows_witness :
  transform_code CATEGORIES SAMPLE = Ok SAMPLE_NORMALIZED /\
  (length SAMPLE_NORMALIZED <= length SAMPLE)%nat.
Proof.
  split; [exact SAMPLE_runs|].
  exact (transform_never_grows CATEGORIES SAMPLE SAMPLE_NORMALIZED SAMPLE_runs).
Defined.

(** ** Splitting the output again *)

Lemma splitlines_line l :
  line_free l -> splitlines l = match l with [] => [] | _ :: _ => [l] end.
Proof.
  intros Hl. unfold splitlines. rewrite <- (app_nil_r l) at 1.
  rewrite splitlines_from_line by done. by rewrite splitlines_from_end.
Qed.

(** Lines without terminators, joined by LF and split again, are the same
    lines, except that a last line that is empty is lost. *)
Lemma splitlines_join lines :
  Forall line_free lines ->
  splitlines (join [LF] lines) = drop_final_empty lines.
Proof.
  induction 1 as [|l ls Hl Hls IH]; [done|].
  destruct ls as [|l2 ls].
  - cbn [join]. rewrite splitlines_line by done. by destruct l.
  - rewrite join_cons by done. unfold splitlines at 1.
    rewrite splitlines_from_line by done. cbn [app].
    rewrite splitlines_from_LF, IH. unfold drop_final_empty.
    rewrite last_cons_cons. destruct (last (l2 :: ls)) as [[|??]|]; try done.
Qed.

(** X3: when [transform_code] returns, splitting its output into lines gives
    the rewritten lines back, except that a last line that is empty is
    lost. *)
Theorem transform_output_splits_back order code out :
  transform_code order code = Ok out ->
  exists lines',
    rewrite_categories order (lines_of code) = Ok lines' /\
    out = join [LF] lines' /\
    splitlines out = drop_final_empty lines'.
Proof.
  unfold transform_code. fold (lines_of code). unfold mbind, result_bind.
  destruct (rewrite_categories order (lines_of code)) as [lines'|e] eqn:Hloop;
    [|done].
  intros [= <-]. exists lines'. split; [done|]. split; [done|].
  apply splitlines_join. apply rewrite_categories_in_place in Hloop.
  apply Forall_forall. intros l' [i Hi]%list_elem_of_lookup.
  destruct (Forall2_lookup_r _ _ _ _ _ Hloop Hi) as (l & Hl & Hr).
  apply (rewritten_line_free _ _ _ Hr).
  pose proof (splitlines_line_free (replace BY_NAME_PAIRS BY_NAME_TABLES code)) as Hall.
  rewrite Forall_forall in Hall. apply Hall, list_elem_of_lookup. by exists i.
Qed.

Lemma transform_output_splits_back_witness :
  transform_code CATEGORIES SAMPLE = Ok SAMPLE_NORMALIZED /\
  exists lines',
    rewrite_categories CATEGORIES (lines_of SAMPLE) = Ok lines' /\
    SAMPLE_NORMALIZED = join [LF] lines' /\
    splitlines SAMPLE_NORMALIZED = drop_final_empty lines'.
Proof.
  split; [exact SAMPLE_runs|].
  exact (transform_output_splits_back CATEGORIES SAMPLE SAMPLE_NORMALIZED SAMPLE_runs).
Defined.

(** ** Every declaration is replaced *)

Section replace_all_facts.
Context {A : Type} `{EqDecision A}.
Implicit Types p s t u old new : list A.

Lemma contains_no_start_at p s :
  (forall k, starts_with p (drop k s) = false) -> contains p s = false.
Proof.
  induction s as [|b s IH]; intros Hk.
  - pose proof (Hk 0) as H0. cbn [drop] in H0. cbn [contains]. by rewrite H0.
  - pose proof (Hk 0) as H0. cbn [drop] in H0. cbn [contains]. rewrite H0.
    apply IH. intros k. apply (Hk (S k)).
Qed.

Lemma no_start_drop old new t k :
  no_start old new = true -> (k < length new)%nat ->
  starts_with old (drop k new ++ t) = false.
Proof.
  revert k. induction new as [|b new IH]; intros k Hn Hk; [cbn in Hk; lia|].
  destruct k as [|k].
  - by apply (no_start_starts_with old (b :: new) t).
  - cbn [drop]. apply IH; [|cbn in Hk; lia].
    cbn [no_start] in Hn. by apply andb_true_iff in Hn as [_ ?].
Qed.

(** When the first element of [new] occurs in [old] at its head only and no
    occurrence of [old] can start inside [new], a scan leaves no occurrence
    of [old] behind, whatever stands in front of the scanned text. *)
Lemma replace_leaves_none old new n new' o old' :
  old = o :: old' -> new = n :: new' -> n ∉ old' -> no_start old new = true ->
  forall s u,
    (forall k, (k < length u)%nat -> starts_with old (drop k (u ++ s)) = false) ->
    forall k, starts_with old (drop k (u ++ replace old new s)) = false.
Proof.
  intros Hold Hnew Hn Hstart.
  assert (old ≠ []) as Hne by by rewrite Hold.
  apply (replace_scan_ind old
           (fun s => forall u,
              (forall k, (k < length u)%nat ->
                 starts_with old (drop k (u ++ s)) = false) ->
              forall k, starts_with old (drop k (u ++ replace old new s)) = false));
    [done|..].
  - intros u Hu k. rewrite replace_nil by done.
    destruct (decide (k < length u)%nat) as [Hk|Hk]; [by apply Hu|].
    rewrite drop_ge by (rewrite length_app; cbn; lia). by rewrite Hold.
  - intros t IH u Hu k. rewrite replace_match by done.
    rewrite app_assoc. apply IH. clear k. intros k Hk.
    rewrite length_app in Hk. rewrite <- app_assoc.
    destruct (decide (k < length u)%nat) as [Hku|Hku].
    + rewrite drop_app_le by lia. apply starts_with_false.
      intros [Hp|(x & Hx & Hpre)]%prefix_app_cases.
      * specialize (Hu k Hku). apply starts_with_false in Hu. apply Hu.
        rewrite drop_app_le by lia. by apply prefix_app_r.
      * assert (drop k u ≠ []) as Hd.
        { intros Hnil. apply (f_equal length) in Hnil.
          rewrite length_drop in Hnil. cbn in Hnil. lia. }
        destruct x as [|c x].
        -- specialize (Hu k Hku). apply starts_with_false in Hu. apply Hu.
           rewrite drop_app_le by lia. rewrite app_nil_r in Hx. rewrite Hx.
           by apply prefix_app_r.
        -- rewrite Hnew in Hpre. cbn [app] in Hpre.
           apply prefix_cons_inv_1 in Hpre as ->.
           destruct (drop k u) as [|d du]; [done|].
           rewrite Hold in Hx. injection Hx as _ ->. apply Hn.
           rewrite elem_of_app. right. by left.
    + rewrite drop_app_ge by lia. rewrite drop_app_le by lia.
      apply no_start_drop; [done|lia].
  - intros b s Hs IH u Hu k. rewrite replace_keep by done.
    rewrite (cons_middle b u), app_assoc. apply IH. clear k. intros k Hk.
    rewrite length_app in Hk. cbn [length] in Hk.
    rewrite <- app_assoc. cbn [app].
    destruct (decide (k < length u)%nat) as [Hku|Hku]; [by apply Hu|].
    assert (k = length u) as -> by lia. by rewrite drop_app_length.
Qed.

Lemma replace_contains_none old new n new' o old' s :
  old = o :: old' -> new = n :: new' -> n ∉ old' -> no_start old new = true ->
  contains old (replace old new s) = false.
Proof.
  intros Hold Hnew Hn Hstart. apply contains_no_start_at. intros k.
  apply (replace_leaves_none old new n new' o old' Hold Hnew Hn Hstart s []).
  intros k' Hk'. cbn in Hk'. lia.
Qed.
End replace_all_facts.

Lemma declaration_replaced_everywhere code :
  contains BY_NAME_PAIRS (replace BY_NAME_PAIRS BY_NAME_TABLES code) = false.
Proof.
  eapply replace_contains_none; [reflexivity|reflexivity| |by vm_compute].
  by apply (bool_decide_unpack _).
Qed.

Lemma lines_of_no_declaration code :
  Forall (fun line => contains BY_NAME_PAIRS line = false) (lines_of code).
Proof.
  unfold lines_of. rewrite splitlines_declaration.
  apply Forall_fmap, Forall_forall. intros line _.
  apply declaration_replaced_everywhere.
Qed.

(** X4: the first statement of [transform_code] leaves no pair-typed
    declaration behind: every occurrence is replaced, not only the first,
    and the replacements make no new one.  Neither the text nor any of the
    lines the loop starts from holds one. *)
Theorem transform_replaces_every_declaration code :
  contains BY_NAME_PAIRS (replace BY_NAME_PAIRS BY_NAME_TABLES code) = false /\
  Forall (fun line => contains BY_NAME_PAIRS line = false) (lines_of code).
Proof.
  split; [apply declaration_replaced_everywhere|].
  apply lines_of_no_declaration.
Qed.

(** ** The transform does not accept its own output *)

Section boundary_facts.
Context {A : Type} `{EqDecision A}.
Implicit Types p s u old : list A.

(** An element that is not the last of [p] can be dropped behind. *)
Lemma contains_snoc p s b :
  p ≠ [] -> last p ≠ Some b -> contains p (s ++ [b]) = contains p s.
Proof.
  intros Hp Hlast. apply eq_true_iff_eq. rewrite !contains_occurs. split.
  - intros (u & v & Hs). destruct v as [|c v _] using rev_ind.
    + rewrite app_nil_r in Hs. destruct Hlast.
      destruct p as [|a p _] using rev_ind; [done|].
      rewrite app_assoc in Hs. apply app_inj_tail in Hs as [_ ->].
      apply last_snoc.
    + rewrite !app_assoc in Hs. apply app_inj_tail in Hs as [-> _].
      exists u, v. by rewrite <- app_assoc.
  - intros (u & v & ->). exists u, (v ++ [b]). by rewrite <- !app_assoc.
Qed.

(** No occurrence starts among elements that differ from its first. *)
Lemma no_start_other_head a old u :
  Forall (fun b => b ≠ a) u -> no_start (a :: old) u = true.
Proof.
  induction 1 as [|b u Hb _ IH]; [done|].
  cbn [no_start starts_with]. rewrite IH.
  rewrite (bool_decide_eq_false_2 (a = b)) by done.
  by rewrite (bool_decide_eq_false_2 (b = a)).
Qed.
End boundary_facts.

Lemma drop_final_empty_subset (lines : list bytes) l :
  l ∈ drop_final_empty lines -> l ∈ lines.
Proof.
  unfold drop_final_empty. destruct (last lines) as [[|b x]|] eqn:Hlast; try done.
  apply last_Some in Hlast as [lines0 ->]. rewrite removelast_last.
  intros Hin. apply elem_of_app. by left.
Qed.

(** With well-formed entries whose ranges spell no category name, the
    settled lines hold no category name and no pair-typed declaration, and
    no line terminator. *)
Lemma well_formed_settled_clean indent_of ranges_of code l' c :
  entries_well_formed indent_of ranges_of (lines_of code) ->
  ranges_unnamed ranges_of ->
  l' ∈ settled CATEGORIES (lines_of code) -> c ∈ CATEGORIES ->
  contains (encode c) l' = false /\
  contains BY_NAME_PAIRS l' = false /\
  line_free l'.
Proof.
  intros Hwf Hun [j Hj]%list_elem_of_lookup Hc.
  rewrite settled_lookup in Hj.
  destruct (lines_of code !! j) as [line|] eqn:Hline; [|done].
  cbn in Hj. injection Hj as <-.
  assert (contains BY_NAME_PAIRS line = false) as Hdecl.
  { pose proof (lines_of_no_declaration code) as Hall.
    rewrite Forall_forall in Hall. apply Hall, list_elem_of_lookup. by exists j. }
  assert (line_free line) as Hfree.
  { pose proof (splitlines_line_free (replace BY_NAME_PAIRS BY_NAME_TABLES code)) as Hall.
    rewrite Forall_forall in Hall. apply Hall, list_elem_of_lookup. by exists j. }
  pose proof (well_formed_settle _ _ _ j _ Hwf Hline) as Hsettle.
  destruct (named line) as [c'|] eqn:Hn.
  - destruct Hsettle as (Hc' & Hentry & ->).
    destruct (well_formed_category _ _ _ c' Hwf Hc') as (_ & _ & Hblank & Hq & Hclose).
    destruct (category_bytes c Hc) as [Hne Hbytes]. split; [|split].
    + rewrite contains_strip; [|done|..].
      * unfold ranges_unnamed in Hun. rewrite Forall_forall in Hun.
        specialize (Hun c' Hc'). rewrite Forall_forall in Hun. by apply Hun.
      * eapply Forall_impl; [exact Hblank|]. intros b Hb.
        apply category_byte_free; [done|]. unfold blank in Hb.
        case_bool_decide; [subst; by apply (bool_decide_unpack _)|].
        apply bool_decide_eq_true in Hb. subst. by apply (bool_decide_unpack _).
      * repeat constructor. apply category_byte_free; [done|].
        by apply (bool_decide_unpack _).
    + rewrite contains_app_no_start.
      * change COMMA with [x2c]. rewrite contains_snoc; [|done|done].
        destruct (contains BY_NAME_PAIRS (ranges_of c')) eqn:Hr; [|done].
        apply (entry_line_contains_ranges _ (indent_of c') c') in Hr. congruence.
      * apply no_start_other_head. eapply Forall_impl; [exact Hblank|].
        intros b Hb ->. by vm_compute in Hb.
    + rewrite Hentry in Hfree. unfold entry_line, line_free in *.
      rewrite !Forall_app in Hfree. destruct Hfree as (Hi & _ & Hr & _).
      rewrite !Forall_app. split; [done|]. split; [done|]. by repeat constructor.
  - rewrite Hsettle. split; [|done].
    unfold named in Hn. pose proof (find_none _ _ Hn c) as Hf. cbn beta in Hf.
    apply Hf. by apply list_elem_of_In.
Qed.

(** X5: the transform cannot be applied twice.  When the entries are well
    formed and no ranges text spells a category name, [transform_code]
    returns, and given its own output as input it raises the [TypeError] of
    indexing with [None], whatever the enumeration order: no category name
    is left in the output. *)
Theorem transform_rejects_its_output order order' code indent_of ranges_of :
  order ≡ₚ CATEGORIES -> order' ≡ₚ CATEGORIES ->
  entries_well_formed indent_of ranges_of (lines_of code) ->
  ranges_unnamed ranges_of ->
  exists out,
    transform_code order code = Ok out /\
    Forall (fun c => contains (encode c) out = false) CATEGORIES /\
    transform_code order' out = Raise (TypeError NONE_INDEX).
Proof.
  intros Hperm Hperm' Hwf Hun.
  exists (join [LF] (settled CATEGORIES (lines_of code))).
  pose proof (fun l' c => well_formed_settled_clean _ _ code l' c Hwf Hun) as Hclean.
  assert (Forall line_free (settled CATEGORIES (lines_of code))) as Hfree.
  { apply Forall_forall. intros l' Hl'.
    apply (Hclean l' "Control" Hl'). by apply (bool_decide_unpack _). }
  split; [|split].
  - rewrite transform_code_any_order;
      [|done|by apply (well_formed_single_named indent_of ranges_of)].
    by rewrite (well_formed_every_name _ _ _ Hwf).
  - apply Forall_forall. intros c Hc.
    destruct (category_bytes c Hc) as [Hne Hbytes].
    rewrite contains_join; [|done|by apply category_byte_free, (bool_decide_unpack _)].
    apply not_true_is_false. intros (l' & Hl' & Hin)%existsb_exists.
    apply list_elem_of_In in Hl'. destruct (Hclean l' c Hl' Hc) as [Hno _].
    congruence.
  - destruct order' as [|c0 rest].
    { apply Permutation_nil_l in Hperm'. discriminate Hperm'. }
    assert (c0 ∈ CATEGORIES) as Hc0 by (rewrite <- Hperm'; by left).
    unfold transform_code. rewrite splitlines_declaration, splitlines_join by done.
    cbn [rewrite_categories]. unfold mbind at 2, result_bind at 2.
    rewrite rewrite_category_missing; [done|].
    apply first_line_with_None, Forall_fmap, Forall_forall.
    intros l' Hl'%drop_final_empty_subset.
    destruct (Hclean l' c0 Hl' Hc0) as (Hno & Hdecl & _). cbn.
    by rewrite replace_absent.
Qed.

Lemma SAMPLE_ranges_unnamed : ranges_unnamed (fun c => encode (table_name c)).
Proof. apply (bool_decide_unpack _). vm_compute. exact I. Qed.

Lemma transform_rejects_its_output_witness :
  FORMAT_FIRST ≡ₚ CATEGORIES /\ CATEGORIES ≡ₚ CATEGORIES /\
  entries_well_formed (fun _ => encode "  ") (fun c => encode (table_name c))
    (lines_of SAMPLE) /\
  ranges_unnamed (fun c => encode (table_name c)) /\
  exists out,
    transform_code FORMAT_FIRST SAMPLE = Ok out /\
    Forall (fun c => contains (encode c) out = false) CATEGORIES /\
    transform_code CATEGORIES out = Raise (TypeError NONE_INDEX).
Proof.
  split; [exact FORMAT_FIRST_permutation|]. split; [reflexivity|].
  split; [exact SAMPLE_well_formed|]. split; [exact SAMPLE_ranges_unnamed|].
  exact (transform_rejects_its_output FORMAT_FIRST CATEGORIES SAMPLE
           (fun _ => encode "  ") (fun c => encode (table_name c))
           FORMAT_FIRST_permutation (reflexivity _)
           SAMPLE_well_formed SAMPLE_ranges_unnamed).
Defined.

(** ** Versions and output paths *)

(** Replacing a one-element text is an element-wise substitution. *)
Lemma replace_single {A} `{EqDecision A} (a b : A) (s : list A) :
  replace [a] [b] s = (fun c => if bool_decide (c = a) then b else c) <$> s.
Proof.
  induction s as [|c s IH]; [done|]. rewrite fmap_cons, <- IH.
  case_bool_decide as Hc.
  - subst c. by rewrite (replace_match [a] [b] s).
  - rewrite replace_keep; [done..|]. cbn [starts_with].
    by rewrite (bool_decide_eq_false_2 (a = c)).
Qed.

Lemma str_replace_dots v :
  list_ascii_of_string (str_replace "." "_" v) =
  (fun c => if bool_decide (c = "."%char) then "_"%char else c)
    <$> list_ascii_of_string v.
Proof.
  unfold str_replace. rewrite list_ascii_of_string_of_list_ascii.
  apply (replace_single "."%char "_"%char).
Qed.

Lemma list_ascii_of_string_inj s1 s2 :
  list_ascii_of_string s1 = list_ascii_of_string s2 -> s1 = s2.
Proof.
  intros H. by rewrite <- (string_of_list_ascii_of_string s1), H,
    string_of_list_ascii_of_string.
Qed.

(** Replacing the dots of a text without dots changes nothing. *)
Lemma str_replace_dots_twice v :
  str_replace "." "_" (str_replace "." "_" v) = str_replace "." "_" v.
Proof.
  apply list_ascii_of_string_inj. rewrite (str_replace_dots (str_replace _ _ v)).
  rewrite str_replace_dots, <- list_fmap_compose. apply list_fmap_ext.
  intros _ c _. cbn. by repeat case_bool_decide.
Qed.

(** X6: [get_output_path] does not tell dots from underscores: a version
    and the same version with its dots written as underscores give the same
    path and the same effect on the working directory ("15.0.0" and "15_0_0"
    share one output file). *)
Theorem get_output_path_dots_as_underscores v w :
  get_output_path (str_replace "." "_" v) w = get_output_path v w.
Proof. unfold get_output_path. by rewrite str_replace_dots_twice. Qed.

Lemma get_output_path_Ok v w p :
  fst (get_output_path v w) = Ok p ->
  p = path_of ("src/tables/v" ++ str_replace "." "_" v ++ ".rs")%string.
Proof.
  unfold get_output_path, mbind, M_bind, mret, M_ret.
  destruct (mkdir (path_of "src/tables") w) as [[[]|e] w']; [|done].
  cbn [fst]. intros [= <-]. apply truediv_tables.
Qed.

(** X7: two different versions, neither with a slash or an underscore in it,
    never get the same output path. *)
Theorem distinct_versions_distinct_paths v1 v2 w1 w2 p1 p2 :
  Forall (fun c => c ≠ "/"%char /\ c ≠ "_"%char) (list_ascii_of_string v1) ->
  Forall (fun c => c ≠ "/"%char /\ c ≠ "_"%char) (list_ascii_of_string v2) ->
  fst (get_output_path v1 w1) = Ok p1 ->
  fst (get_output_path v2 w2) = Ok p2 ->
  v1 ≠ v2 -> p1 ≠ p2.
Proof.
  intros H1 H2 ->%get_output_path_Ok ->%get_output_path_Ok Hne Heq.
  apply Hne. apply (f_equal path_str) in Heq.
  rewrite !path_str_tables in Heq.
  2,3: apply str_replace_dots_no_slash; eapply Forall_impl; [eassumption|];
       by intros c [? _].
  apply (f_equal list_ascii_of_string) in Heq.
  rewrite !list_ascii_of_string_app in Heq.
  apply app_inv_head, app_inv_tail in Heq. rewrite !str_replace_dots in Heq.
  apply list_ascii_of_string_inj.
  revert H1 H2 Heq. generalize (list_ascii_of_string v1) (list_ascii_of_string v2).
  intros l1. induction l1 as [|a l1 IH]; intros [|b l2] H1 H2 Heq; try done.
  apply Forall_cons in H1 as [[_ Ha] H1]. apply Forall_cons in H2 as [[_ Hb] H2].
  rewrite !fmap_cons in Heq. injection Heq as Hab Heq.
  f_equal; [|by apply IH]. repeat case_bool_decide; congruence.
Qed.

Lemma distinct_versions_distinct_paths_witness :
  fst (get_output_path "15.0.0" empty_world) = Ok (path_of "src/tables/v15_0_0.rs") /\
  fst (get_output_path "14.0.0" empty_world) = Ok (path_of "src/tables/v14_0_0.rs") /\
  path_of "src/tables/v15_0_0.rs" ≠ path_of "src/tables/v14_0_0.rs".
Proof.
  assert (fst (get_output_path "15.0.0" empty_world)
          = Ok (path_of "src/tables/v15_0_0.rs")) as H15 by (vm_compute; reflexivity).
  assert (fst (get_output_path "14.0.0" empty_world)
          = Ok (path_of "src/tables/v14_0_0.rs")) as H14 by (vm_compute; reflexivity).
  split; [exact H15|]. split; [exact H14|].
  apply (distinct_versions_distinct_paths "15.0.0" "14.0.0" empty_world empty_world);
    [| |exact H15|exact H14|discriminate].
  - repeat constructor; discriminate.
  - repeat constructor; discriminate.
Defined.

(** ** The working directory tree *)

(** What [Path("src/tables").mkdir(parents=True, exist_ok=True)] does,
    by what stands at [src] and [src/tables]. *)
Lemma mkdir_tables_cases w :
  mkdir (path_of "src/tables") w =
  match w_fs w !! path_of "src/tables" with
  | Some Dir => (Ok tt, w)
  | Some (File _) => (Raise (FileExistsError ["src"; "tables"]), w)
  | None =>
    match w_fs w !! path_of "src" with
    | Some Dir => (Ok tt, with_fs w (<[path_of "src/tables" := Dir]> (w_fs w)))
    | Some (File _) => (Raise (NotADirectoryError ["src"; "tables"]), w)
    | None =>
      (Ok tt,
       with_fs w (<[path_of "src/tables" := Dir]> (<[path_of "src" := Dir]> (w_fs w))))
    end
  end.
Proof.
  change (path_of "src") with {| root := ""; parts := ["src"] |}.
  change (path_of "src/tables") with {| root := ""; parts := ["src"; "tables"] |}.
  set (src := {| root := ""; parts := ["src"] |}).
  set (tables := {| root := ""; parts := ["src"; "tables"] |}).
  unfold mkdir. change (length (parts tables)) with 2. cbn [mkdir_parents].
  unfold os_mkdir at 1. unfold mbind, M_bind, get_fs. cbv beta iota.
  change (parts tables) with ["src"; "tables"].
  change (parent tables) with src.
  destruct (w_fs w !! tables) as [[|c]|] eqn:Ht.
  - unfold raise, is_dir. cbn. by rewrite Ht.
  - unfold raise, is_dir. cbn. by rewrite Ht.
  - unfold is_dir at 1. change (parts src) with ["src"].
    destruct (w_fs w !! src) as [[|c]|] eqn:Hs.
    + done.
    + unfold raise, is_dir. cbn. by rewrite Ht.
    + unfold raise. rewrite bool_decide_eq_false_2 by done.
      unfold mbind, M_bind. cbn [mkdir_parents].
      unfold os_mkdir at 1. unfold mbind, M_bind, get_fs. cbv beta iota.
      change (parts src) with ["src"]. rewrite Hs.
      unfold is_dir at 1. change (parts (parent src)) with (@nil string).
      unfold put_fs. cbv beta iota. unfold mkdir_exist_ok, os_mkdir.
      unfold mbind, M_bind, get_fs, put_fs. cbn [w_fs].
      change (parts tables) with ["src"; "tables"].
      change (parent tables) with src.
      rewrite lookup_insert_ne by done. rewrite Ht.
      unfold is_dir. change (parts src) with ["src"].
      by rewrite lookup_insert_eq.
Qed.

Lemma get_output_path_unfold v w :
  get_output_path v w =
  match mkdir (path_of "src/tables") w with
  | (Ok _, w') =>
    (Ok (path_of ("src/tables/v" ++ str_replace "." "_" v ++ ".rs")%string), w')
  | (Raise e, w') => (Raise e, w')
  end.
Proof.
  unfold get_output_path, mbind, M_bind, mret, M_ret.
  destruct (mkdir (path_of "src/tables") w) as [[[]|e] w']; [|done].
  by rewrite <- truediv_tables.
Qed.

(** X8: when [get_output_path] returns, [src/tables] is a directory; what
    stood in the tree before stands there unchanged; nothing is new but,
    at most, the directories [src] and [src/tables]; standard output and the
    collaborators are left alone; and calling it again changes nothing. *)
Theorem get_output_path_makes_directories v w p w' :
  get_output_path v w = (Ok p, w') ->
  w_fs w' !! path_of "src/tables" = Some Dir /\
  (forall q n, w_fs w !! q = Some n -> w_fs w' !! q = Some n) /\
  (forall q, w_fs w !! q = None -> w_fs w' !! q ≠ None ->
     (q = path_of "src" \/ q = path_of "src/tables") /\ w_fs w' !! q = Some Dir) /\
  w_stdout w' = w_stdout w /\ w_calls w' = w_calls w /\
  get_output_path v w' = (Ok p, w').
Proof.
  rewrite get_output_path_unfold, mkdir_tables_cases.
  assert (forall w0, w_fs w0 !! path_of "src/tables" = Some Dir ->
            get_output_path v w0 =
            (Ok (path_of ("src/tables/v" ++ str_replace "." "_" v ++ ".rs")%string), w0))
    as Hagain.
  { intros w0 H0. by rewrite get_output_path_unfold, mkdir_tables_cases, H0. }
  destruct (w_fs w !! path_of "src/tables") as [[|c]|] eqn:Ht; [|done|].
  { intros [= <- <-]. split; [done|]. split; [done|].
    split; [intros q Hq Hq'; congruence|]. split; [done|]. split; [done|].
    by apply Hagain. }
  destruct (w_fs w !! path_of "src") as [[|c]|] eqn:Hs; [|done|].
  - intros [= <- <-]. cbn [with_fs w_fs w_stdout w_calls].
    split; [by rewrite lookup_insert_eq|]. split; [|split; [|split; [done|split; [done|]]]].
    + intros q n Hq. rewrite lookup_insert_ne; [done|]. intros <-. congruence.
    + intros q Hq Hq'. destruct (decide (path_of "src/tables" = q)) as [<-|Hne].
      * split; [by right|]. by rewrite lookup_insert_eq.
      * rewrite lookup_insert_ne in Hq' by done. congruence.
    + apply Hagain. cbn. by rewrite lookup_insert_eq.
  - intros [= <- <-]. cbn [with_fs w_fs w_stdout w_calls].
    split; [by rewrite lookup_insert_eq|]. split; [|split; [|split; [done|split; [done|]]]].
    + intros q n Hq. rewrite !lookup_insert_ne; [done|..]; intros <-; congruence.
    + intros q Hq Hq'. destruct (decide (path_of "src/tables" = q)) as [<-|Hne].
      * split; [by right|]. by rewrite lookup_insert_eq.
      * rewrite lookup_insert_ne in Hq' |- * by done.
        destruct (decide (path_of "src" = q)) as [<-|Hne'].
        -- split; [by left|]. by rewrite lookup_insert_eq.
        -- rewrite lookup_insert_ne in Hq' by done. congruence.
    + apply Hagain. cbn. by rewrite lookup_insert_eq.
Qed.

Lemma get_output_path_makes_directories_witness :
  get_output_path "15.0.0" empty_world =
    (Ok (path_of "src/tables/v15_0_0.rs"),
     with_fs empty_world
       (<[path_of "src/tables" := Dir]> (<[path_of "src" := Dir]> ∅))) /\
  get_output_path "15.0.0"
    (with_fs empty_world
       (<[path_of "src/tables" := Dir]> (<[path_of "src" := Dir]> ∅))) =
    (Ok (path_of "src/tables/v15_0_0.rs"),
     with_fs empty_world
       (<[path_of "src/tables" := Dir]> (<[path_of "src" := Dir]> ∅))).
Proof.
  assert (get_output_path "15.0.0" empty_world =
          (Ok (path_of "src/tables/v15_0_0.rs"),
           with_fs empty_world
             (<[path_of "src/tables" := Dir]> (<[path_of "src" := Dir]> ∅)))) as Hrun.
  { by rewrite get_output_path_unfold, mkdir_tables_cases. }
  split; [exact Hrun|].
  exact (proj2 (proj2 (proj2 (proj2 (proj2
    (get_output_path_makes_directories _ _ _ _ Hrun)))))).
Defined.

(** X9: a regular file in the way stops [get_output_path]: with a file at
    [src/tables] it raises [FileExistsError], with a file at [src] and
    nothing at [src/tables] it raises [NotADirectoryError]; either way the
    tree, standard output and the record of calls are as they were. *)
Theorem get_output_path_blocked v w :
  (is_file (w_fs w) (path_of "src/tables") = true ->
   get_output_path v w = (Raise (FileExistsError ["src"; "tables"]), w)) /\
  (is_file (w_fs w) (path_of "src") = true ->
   w_fs w !! path_of "src/tables" = None ->
   get_output_path v w = (Raise (NotADirectoryError ["src"; "tables"]), w)).
Proof.
  unfold is_file. rewrite get_output_path_unfold, mkdir_tables_cases. split.
  - by destruct (w_fs w !! path_of "src/tables") as [[|c]|].
  - intros Hs ->. by destruct (w_fs w !! path_of "src") as [[|c]|].
Qed.

Lemma get_output_path_blocked_witness :
  get_output_path "15.0.0" (with_fs empty_world {[path_of "src/tables" := File []]}) =
    (Raise (FileExistsError ["src"; "tables"]),
     with_fs empty_world {[path_of "src/tables" := File []]}) /\
  get_output_path "15.0.0" (with_fs empty_world {[path_of "src" := File []]}) =
    (Raise (NotADirectoryError ["src"; "tables"]),
     with_fs empty_world {[path_of "src" := File []]}).
Proof.
  split.
  - apply (proj1 (get_output_path_blocked "15.0.0"
                    (with_fs empty_world {[path_of "src/tables" := File []]}))).
    vm_compute. reflexivity.
  - apply (proj2 (get_output_path_blocked "15.0.0"
                    (with_fs empty_world {[path_of "src" := File []]}))).
    + vm_compute. reflexivity.
    + vm_compute. reflexivity.
Defined.

(** ** A run of [main] that writes *)

Lemma path_of_tables_file (name : string) :
  Forall (fun c => c ≠ "/"%char) (list_ascii_of_string name) ->
  path_of ("src/tables/v" ++ name)%string =
  {| root := ""; parts := ["src"; "tables"; String "v" name] |}.
Proof.
  intros Hname. unfold path_of.
  assert (str_split "/" ("src/tables/v" +:+ name) = ["src"; "tables"; String "v" name])
    as ->.
  { transitivity ("src" :: "tables" :: split_from "/" "v" name);
      [by vm_compute|].
    by rewrite split_from_no_sep. }
  by vm_compute.
Qed.

Lemma mkdir_tables_effect w w2 :
  mkdir (path_of "src/tables") w = (Ok tt, w2) ->
  w2 = with_fs w (w_fs w2) /\
  w_fs w2 !! path_of "src/tables" = Some Dir /\
  forall q, q ≠ path_of "src" -> q ≠ path_of "src/tables" ->
    w_fs w2 !! q = w_fs w !! q.
Proof.
  rewrite mkdir_tables_cases.
  destruct (w_fs w !! path_of "src/tables") as [[|c]|] eqn:Ht; [|done|].
  { intros [= <-]. split; [by destruct w|]. done. }
  destruct (w_fs w !! path_of "src") as [[|c]|] eqn:Hs; [|done|].
  - intros [= <-]. cbn [with_fs w_fs]. split; [done|].
    split; [by rewrite lookup_insert_eq|].
    intros q _ Hq. by rewrite lookup_insert_ne.
  - intros [= <-]. cbn [with_fs w_fs]. split; [done|].
    split; [by rewrite lookup_insert_eq|].
    intros q Hq Hq'. by rewrite !lookup_insert_ne.
Qed.

(** With nothing in the way, [persist] creates the directories that are
    missing and leaves [code] in the file at the output path. *)
Lemma persist_writes v code w :
  Forall (fun c => c ≠ "/"%char) (list_ascii_of_string v) ->
  is_file (w_fs w) (path_of "src") = false ->
  is_file (w_fs w) (path_of "src/tables") = false ->
  w_fs w !! path_of ("src/tables/v" ++ str_replace "." "_" v ++ ".rs")%string
    ≠ Some Dir ->
  persist v code w =
  (Ok tt,
   with_fs w
     (<[path_of ("src/tables/v" ++ str_replace "." "_" v ++ ".rs")%string := File code]>
        (w_fs (snd (mkdir (path_of "src/tables") w))))).
Proof.
  intros Hv Hsrc Htables Hpath. unfold persist, mbind, M_bind.
  rewrite get_output_path_unfold.
  pose proof (mkdir_tables w Hsrc Htables) as Hok.
  destruct (mkdir (path_of "src/tables") w) as [[[]|e] w2] eqn:Hm; [|done].
  destruct (mkdir_tables_effect w w2 Hm) as (Hw2 & Hdir & Hsame). cbn [snd].
  set (name := (str_replace "." "_" v +:+ ".rs")) in *.
  assert (path_of ("src/tables/v" +:+ name)
          = {| root := ""; parts := ["src"; "tables"; String "v" name] |}) as Hp
    by by apply path_of_tables_file, str_replace_dots_no_slash.
  set (path := path_of ("src/tables/v" +:+ name)) in *.
  assert (w_fs w2 !! path = w_fs w !! path) as Hlook.
  { apply Hsame; rewrite Hp; by vm_compute. }
  assert (parent path = path_of "src/tables") as Hparent by by rewrite Hp.
  unfold open_wb, write, mbind, M_bind, get_fs, put_fs, raise. cbv beta iota.
  assert (is_dir (w_fs w2) path = false) as ->.
  { unfold is_dir. rewrite Hp at 1. cbn [parts]. rewrite Hlook.
    by destruct (w_fs w !! path) as [[|c]|]. }
  assert (is_dir (w_fs w2) (parent path) = true) as ->.
  { unfold is_dir. rewrite Hparent, Hdir. done. }
  rewrite Hlook. destruct (w_fs w !! path) as [[|c]|] eqn:Hold; [done|..].
  all: cbn [w_fs w_stdout w_calls]; rewrite insert_insert_eq.
  all: rewrite Hw2; reflexivity.
Qed.

(** X10: when the collaborators and [transform_code] return, the version
    has no slash in it, no regular file stands at [src] or [src/tables] and
    no directory at the output path, [main] returns, the interpreter exits
    with status 0, the file at the output path holds exactly the bytes
    [transform_code] returned, whatever stood there before, nothing is
    printed, and nothing else in the tree changes but the directories [src]
    and [src/tables]. *)
Theorem main_writes_output env prog v w out :
  Forall (fun c => c ≠ "/"%char) (list_ascii_of_string v) ->
  fst (produce env v w) = Ok out ->
  is_file (w_fs w) (path_of "src") = false ->
  is_file (w_fs w) (path_of "src/tables") = false ->
  w_fs w !! path_of ("src/tables/v" ++ str_replace "." "_" v ++ ".rs")%string
    ≠ Some Dir ->
  fst (main env [prog; v] w) = Ok tt /\
  exit_status (fst (main env [prog; v] w)) = 0%Z /\
  w_fs (snd (main env [prog; v] w))
    !! path_of ("src/tables/v" ++ str_replace "." "_" v ++ ".rs")%string
    = Some (File out) /\
  w_stdout (snd (main env [prog; v] w)) = w_stdout w /\
  forall q,
    q ≠ path_of ("src/tables/v" ++ str_replace "." "_" v ++ ".rs")%string ->
    q ≠ path_of "src" -> q ≠ path_of "src/tables" ->
    w_fs (snd (main env [prog; v] w)) !! q = w_fs w !! q.
Proof.
  intros Hv Hout Hsrc Htables Hpath. rewrite main_produce_persist.
  pose proof (produce_frame env v w) as [Hfs Hstdout].
  destruct (produce env v w) as [[code|e] w1]; cbn [fst snd] in *; [|done].
  injection Hout as ->.
  rewrite persist_writes; [|done|by rewrite Hfs..].
  cbn [fst snd with_fs w_fs w_stdout].
  split; [done|]. split; [done|]. split; [by rewrite lookup_insert_eq|].
  split; [done|]. intros q Hq Hq1 Hq2. rewrite lookup_insert_ne by done.
  pose proof (mkdir_tables w1) as Hok. rewrite Hfs in Hok.
  specialize (Hok Hsrc Htables).
  destruct (mkdir (path_of "src/tables") w1) as [[[]|e] w2] eqn:Hm; [|done].
  destruct (mkdir_tables_effect w1 w2 Hm) as (_ & _ & Hsame). cbn [snd].
  rewrite Hsame by done. by rewrite Hfs.
Qed.

Lemma main_writes_output_witness :
  fst (main (answering SAMPLE) ["generate_tables.py"; "15.0.0"] empty_world) = Ok tt /\
  exit_status
    (fst (main (answering SAMPLE) ["generate_tables.py"; "15.0.0"] empty_world)) = 0%Z /\
  w_fs (snd (main (answering SAMPLE) ["generate_tables.py"; "15.0.0"] empty_world))
    !! path_of ("src/tables/v" ++ str_replace "." "_" "15.0.0" ++ ".rs")%string
    = Some (File SAMPLE_NORMALIZED).
Proof.
  assert (fst (produce (answering SAMPLE) "15.0.0" empty_world) = Ok SAMPLE_NORMALIZED)
    as Hout by (vm_compute; reflexivity).
  destruct (main_writes_output (answering SAMPLE) "generate_tables.py" "15.0.0"
              empty_world SAMPLE_NORMALIZED) as (Hret & Hstatus & Hfile & _).
  - repeat constructor; discriminate.
  - exact Hout.
  - reflexivity.
  - reflexivity.
  - vm_compute. discriminate.
  - split; [exact Hret|]. split; [exact Hstatus|exact Hfile].
Defined.

(** ** Calls to the collaborators *)

(** The directory and file operations print nothing and call no
    collaborator. *)
Lemma os_mkdir_outside p w :
  w_stdout (snd (os_mkdir p w)) = w_stdout w /\
  w_calls (snd (os_mkdir p w)) = w_calls w.
Proof.
  unfold os_mkdir, mbind, M_bind, get_fs, put_fs, raise. cbv beta iota.
  destruct (parts p); [done|].
  destruct (w_fs w !! p); [done|].
  destruct (is_dir _ _); [done|].
  by destruct (w_fs w !! parent p) as [[]|].
Qed.

Lemma mkdir_exist_ok_outside p w :
  w_stdout (snd (mkdir_exist_ok p w)) = w_stdout w /\
  w_calls (snd (mkdir_exist_ok p w)) = w_calls w.
Proof.
  unfold mkdir_exist_ok. pose proof (os_mkdir_outside p w) as H.
  destruct (os_mkdir p w) as [[[]|e] w']; [done|].
  destruct e; try destruct (is_dir _ _); done.
Qed.

Lemma mkdir_parents_outside depth p w :
  w_stdout (snd (mkdir_parents depth p w)) = w_stdout w /\
  w_calls (snd (mkdir_parents depth p w)) = w_calls w.
Proof.
  revert p w. induction depth as [|d IH]; intros p w; cbn [mkdir_parents];
    pose proof (os_mkdir_outside p w) as H;
    destruct (os_mkdir p w) as [[[]|e] w']; try done.
  - destruct e; try destruct (is_dir _ _); done.
  - destruct e; try (destruct (is_dir _ _); done).
    case_bool_decide; [done|].
    unfold mbind, M_bind. cbn [snd] in H. destruct H as [<- <-].
    pose proof (IH (parent p) w') as H1.
    destruct (mkdir_parents d (parent p) w') as [[[]|e'] w'']; [|done].
    cbn [snd] in H1. destruct H1 as [<- <-]. apply mkdir_exist_ok_outside.
Qed.

Lemma persist_outside v code w :
  w_stdout (snd (persist v code w)) = w_stdout w /\
  w_calls (snd (persist v code w)) = w_calls w.
Proof.
  unfold persist, get_output_path, mbind, M_bind, mret, M_ret. cbv beta iota.
  unfold mkdir.
  pose proof (mkdir_parents_outside (length (parts (path_of "src/tables")))
                (path_of "src/tables") w) as Hm.
  destruct (mkdir_parents _ _ w) as [[[]|e] w1]; [|done].
  cbn [snd] in Hm. destruct Hm as [<- <-].
  set (path := truediv _ _). clearbody path.
  unfold open_wb, write, mbind, M_bind, get_fs, put_fs, raise. cbv beta iota.
  destruct (w_fs w1 !! path) as [[|old]|]; [done| |].
  all: destruct (is_dir (w_fs w1) path); [done|].
  all: destruct (is_dir (w_fs w1) (parent path)); [done|].
  all: by destruct (w_fs w1 !! parent path) as [[]|].
Qed.

(** The calls [produce] makes, and that what it returns does not depend on
    the world it starts in. *)
Lemma produce_calls env v w :
  w_calls (snd (produce env v w)) = w_calls w ++ expected_calls env v.
Proof.
  unfold produce, expected_calls, mkdtemp, fetch, ucd_generate, lift, log,
    mbind, M_bind.
  cbv beta iota zeta.
  destruct (mkdtemp_answer env) as [tmp|e]; [|done].
  destruct (urlretrieve_answer env _) as [resp|e]; cbn [snd w_calls];
    [|by rewrite <- !app_assoc].
  destruct (extractall_answer env resp tmp) as [[]|e]; cbn [snd w_calls];
    [|by rewrite <- !app_assoc].
  destruct (run_answer env _) as [code|e]; cbn [snd w_calls];
    [|by rewrite <- !app_assoc].
  destruct (transform_code (enumeration env) code) as [out|e]; cbn [snd w_calls];
    by rewrite <- !app_assoc.
Qed.

Lemma produce_result env v w w0 :
  fst (produce env v w) = fst (produce env v w0).
Proof.
  unfold produce, mkdtemp, fetch, ucd_generate, lift, log, mbind, M_bind.
  cbv beta iota.
  destruct (mkdtemp_answer env) as [tmp|e]; [|done].
  destruct (urlretrieve_answer env _) as [resp|e]; [|done].
  destruct (extractall_answer env resp tmp) as [[]|e]; [|done].
  destruct (run_answer env _) as [code|e]; [|done].
  destruct (transform_code (enumeration env) code) as [out|e]; done.
Qed.

(** X11: in a run with one argument, [main] calls the collaborators in the
    order [mkdtemp], [urlretrieve], [extractall], [subprocess.run], each at
    most once and each only when every earlier one returned; the url is the
    one built from the version, the archive extracted is the one
    [urlretrieve] answered, into the directory [mkdtemp] answered, which is
    also the one on the generator's command line.  [transform_code] and the
    writing of the file add no call, whether they return or raise, and
    nothing is printed. *)
Theorem main_calls_in_order env prog v w :
  w_calls (snd (main env [prog; v] w)) = w_calls w ++ expected_calls env v /\
  w_stdout (snd (main env [prog; v] w)) = w_stdout w.
Proof.
  rewrite main_produce_persist.
  pose proof (produce_calls env v w) as Hcalls.
  pose proof (produce_frame env v w) as [_ Hstdout].
  destruct (produce env v w) as [[code|e] w1]; cbn [snd] in *; [|done].
  destruct (persist_outside v code w1) as [-> ->]. done.
Qed.

(** ** Where the output path can lie *)

Lemma split_from_nonempty sep cur s : split_from sep cur s ≠ [].
Proof.
  revert cur. induction s as [|c s IH]; intros cur; cbn [split_from]; [done|].
  destruct (Ascii.eqb c sep); [done|apply IH].
Qed.

(** Text without a separator, put after [r], goes to the last piece. *)
Lemma split_from_snoc sep cur r t :
  Forall (fun c => c ≠ sep) (list_ascii_of_string t) ->
  exists init last,
    split_from sep cur r = init ++ [last] /\
    split_from sep cur (r ++ t)%string = init ++ [(last ++ t)%string].
Proof.
  intros Ht. revert cur. induction r as [|c r IH]; intros cur.
  - exists [], cur. split; [done|].
    change ("" +:+ t) with t. by rewrite split_from_no_sep.
  - change (String c r +:+ t) with (String c (r +:+ t)). cbn [split_from].
    destruct (Ascii.eqb c sep).
    + destruct (IH "") as (init & last & -> & ->). by exists (cur :: init), last.
    + apply IH.
Qed.

(** The pieces are made of the characters of the text. *)
Lemma split_from_chars (P : ascii -> Prop) sep cur r :
  Forall P (list_ascii_of_string cur) ->
  Forall P (list_ascii_of_string r) ->
  Forall (fun x => Forall P (list_ascii_of_string x)) (split_from sep cur r).
Proof.
  revert cur. induction r as [|c r IH]; intros cur Hcur Hr; cbn [split_from].
  - by constructor.
  - cbn in Hr. apply Forall_cons in Hr as [Hc Hr]. destruct (Ascii.eqb c sep).
    + constructor; [done|]. apply IH; [constructor|done].
    + apply IH; [|done]. rewrite list_ascii_of_string_app. apply Forall_app.
      split; [done|]. by repeat constructor.
Qed.

(** With a separator in the text there is more than one piece, and the
    first starts with what was pending. *)
Lemma split_from_head sep cur s :
  sep ∈ list_ascii_of_string s ->
  exists a rest, split_from sep cur s = (cur ++ a)%string :: rest /\ rest ≠ [].
Proof.
  revert cur. induction s as [|c s IH]; intros cur Hin; cbn in Hin.
  - by apply elem_of_nil in Hin.
  - cbn [split_from]. destruct (Ascii.eqb c sep) eqn:Hc.
    + exists "", (split_from sep "" s). rewrite string_app_nil_r.
      split; [done|apply split_from_nonempty].
    + apply Ascii.eqb_neq in Hc. apply elem_of_cons in Hin as [->|Hin]; [done|].
      destruct (IH (cur +:+ String c "") Hin) as (a & rest & -> & Hrest).
      exists (String c a), rest. split; [|done].
      by rewrite string_app_assoc.
Qed.

Lemma is_component_suffixed stem : is_component (stem ++ ".rs")%string = true.
Proof.
  unfold is_component. apply andb_true_iff.
  split; apply negb_true_iff, String.eqb_neq; intros H;
    apply (f_equal list_ascii_of_string) in H;
    rewrite list_ascii_of_string_app in H;
    apply (f_equal length) in H; rewrite length_app in H; cbn in H; lia.
Qed.

(** The components of the output path, for any version string. *)
Lemma output_path_parts v :
  exists init last,
    split_from "/" "v" (str_replace "." "_" v) = init ++ [last] /\
    Forall (fun x => Forall (fun c => c ≠ "."%char) (list_ascii_of_string x))
      (init ++ [last]) /\
    path_of ("src/tables/v" ++ str_replace "." "_" v ++ ".rs")%string =
    {| root := "";
       parts := "src" :: "tables" ::
                List.filter is_component init ++ [(last ++ ".rs")%string] |}.
Proof.
  destruct (split_from_snoc "/" "v" (str_replace "." "_" v) ".rs")
    as (init & last & H1 & H2); [by repeat constructor|].
  exists init, last. split; [done|]. split.
  - rewrite <- H1. apply split_from_chars; [by repeat constructor|].
    rewrite str_replace_dots. apply Forall_fmap, Forall_forall. intros c _.
    cbn. by case_bool_decide.
  - unfold path_of.
    assert (str_split "/" ("src/tables/v" +:+ (str_replace "." "_" v +:+ ".rs"))
            = "src" :: "tables"
                :: split_from "/" "v" (str_replace "." "_" v +:+ ".rs")) as ->
      by by vm_compute.
    rewrite H2. f_equal. change (List.filter is_component ?l) with
      (List.filter is_component l).
    cbn [List.filter]. change (is_component "src") with true.
    change (is_component "tables") with true. cbv iota.
    by rewrite List.filter_app; cbn [List.filter]; rewrite is_component_suffixed.
Qed.

(** X13: whatever the version string is, the path [get_output_path] returns
    is relative, starts with the components [src] and [tables], ends with a
    file name that ends in [.rs], and no other dot occurs in any component
    after [tables]: in particular no component is [..], so the path never
    leads out of [src/tables]. *)
Theorem output_path_below_tables v w p w' :
  get_output_path v w = (Ok p, w') ->
  root p = "" /\
  (".." ∉ parts p) /\
  exists rest stem,
    parts p = "src" :: "tables" :: rest ++ [(stem ++ ".rs")%string] /\
    Forall (fun x => "."%char ∉ list_ascii_of_string x) (rest ++ [stem]).
Proof.
  rewrite get_output_path_unfold.
  destruct (mkdir (path_of "src/tables") w) as [[[]|e] w2]; [|done].
  intros [= <- <-].
  destruct (output_path_parts v) as (init & last & _ & Hfree & ->). cbn [root parts].
  apply Forall_app in Hfree as [Hinit Hlast]. apply Forall_inv in Hlast.
  assert (Forall (fun x => "."%char ∉ list_ascii_of_string x)
            (List.filter is_component init ++ [last])) as Hdots.
  { apply Forall_app. split.
    - apply Forall_forall. intros x Hx. apply list_elem_of_In, List.filter_In in Hx
        as [Hx _]. apply list_elem_of_In in Hx.
      rewrite Forall_forall in Hinit. specialize (Hinit x Hx).
      rewrite Forall_forall in Hinit. intros Hdot. by apply (Hinit _ Hdot).
    - apply Forall_singleton. rewrite Forall_forall in Hlast.
      intros Hdot. by apply (Hlast _ Hdot). }
  split; [done|]. split; [|by exists (List.filter is_component init), last].
  intros Hin. apply elem_of_cons in Hin as [?|Hin]; [done|].
  apply elem_of_cons in Hin as [?|Hin]; [done|].
  apply elem_of_app in Hin as [Hin|Hin].
  - apply Forall_app in Hdots as [Hdots _]. rewrite Forall_forall in Hdots.
    apply (Hdots _ Hin). by left.
  - apply list_elem_of_singleton in Hin. apply (f_equal list_ascii_of_string) in Hin.
    rewrite list_ascii_of_string_app in Hin. apply (f_equal length) in Hin.
    rewrite length_app in Hin. cbn in Hin. lia.
Qed.

Lemma output_path_below_tables_witness :
  root (path_of "src/tables/v15_0_0.rs") = "" /\
  (".." ∉ parts (path_of "src/tables/v15_0_0.rs")).
Proof.
  destruct (output_path_below_tables "15.0.0" empty_world
              (path_of "src/tables/v15_0_0.rs")
              (with_fs empty_world
                 (<[path_of "src/tables" := Dir]> (<[path_of "src" := Dir]> ∅))))
    as (Hroot & Hup & _).
  - rewrite get_output_path_unfold, mkdir_tables_cases. reflexivity.
  - split; [exact Hroot|exact Hup].
Defined.

(** ** A version string with a slash in it *)

(** With a slash in the version, the output path has a component between
    [tables] and the file name. *)
Lemma output_path_nested v :
  "/"%char ∈ list_ascii_of_string v ->
  exists first middle name,
    path_of ("src/tables/v" ++ str_replace "." "_" v ++ ".rs")%string =
    {| root := ""; parts := ["src"; "tables"; first] ++ middle ++ [name] |}.
Proof.
  intros Hslash.
  destruct (output_path_parts v) as (init & last & Hsplit & _ & Hp).
  destruct (split_from_head "/" "v" (str_replace "." "_" v))
    as (a & rest & Hhead & Hrest).
  { rewrite str_replace_dots. apply list_elem_of_fmap. by exists "/"%char. }
  rewrite Hsplit in Hhead. destruct init as [|x init'].
  { cbn in Hhead. injection Hhead as _ <-. done. }
  cbn in Hhead. injection Hhead as -> _.
  exists ("v" +:+ a), (List.filter is_component init'), (last +:+ ".rs").
  rewrite Hp. cbn [List.filter].
  assert (is_component ("v" +:+ a) = true) as -> by by vm_compute.
  done.
Qed.

(** X14: a version string with a slash in it makes an output path whose
    parent is not [src/tables].  In a tree that holds nothing but, possibly,
    the directories [src] and [src/tables], [main] then ends with
    [FileNotFoundError] for the output path and status 1: only after every
    collaborator was called, and with [src/tables] created and left behind. *)
Theorem main_version_with_slash env prog v w out :
  "/"%char ∈ list_ascii_of_string v ->
  fst (produce env v w) = Ok out ->
  is_file (w_fs w) (path_of "src") = false ->
  is_file (w_fs w) (path_of "src/tables") = false ->
  (forall q, q ≠ path_of "src" -> q ≠ path_of "src/tables" -> w_fs w !! q = None) ->
  fst (main env [prog; v] w) =
    Raise (FileNotFoundError
             (parts (path_of ("src/tables/v" ++ str_replace "." "_" v ++ ".rs")%string))) /\
  exit_status (fst (main env [prog; v] w)) = 1%Z /\
  w_fs (snd (main env [prog; v] w)) !! path_of "src/tables" = Some Dir /\
  w_calls (snd (main env [prog; v] w)) = w_calls w ++ expected_calls env v.
Proof.
  intros Hslash Hout Hsrc Htables Hempty.
  destruct (output_path_nested v Hslash) as (first & middle & name & Hp).
  rewrite main_produce_persist.
  pose proof (produce_frame env v w) as [Hfs _].
  pose proof (produce_calls env v w) as Hcalls.
  destruct (produce env v w) as [[code|e] w1]; cbn [fst snd] in *; [|done].
  injection Hout as ->.
  unfold persist, mbind, M_bind. rewrite get_output_path_unfold.
  pose proof (mkdir_tables w1) as Hok. rewrite Hfs in Hok.
  specialize (Hok Hsrc Htables).
  destruct (mkdir (path_of "src/tables") w1) as [[[]|e] w2] eqn:Hm; [|done].
  destruct (mkdir_tables_effect w1 w2 Hm) as (Hw2 & Hdir & Hsame).
  set (path := path_of ("src/tables/v" +:+ (str_replace "." "_" v +:+ ".rs"))) in *.
  assert (parts (parent path) = ["src"; "tables"; first] ++ middle) as Hparent.
  { rewrite Hp. unfold parent. cbn [parts root].
    rewrite (app_assoc ["src"; "tables"; first] middle [name]).
    apply removelast_last. }
  assert (parts path = ["src"; "tables"; first] ++ middle ++ [name]) as Hparts
    by by rewrite Hp.
  assert (w_fs w2 !! path = None) as Hnone.
  { rewrite Hsame, Hfs; [apply Hempty|..]; intros Heq; rewrite Heq in Hparts.
    - change (parts (path_of "src")) with ["src"] in Hparts. discriminate.
    - change (parts (path_of "src/tables")) with ["src"; "tables"] in Hparts.
      by destruct middle.
    - change (parts (path_of "src")) with ["src"] in Hparts. discriminate.
    - change (parts (path_of "src/tables")) with ["src"; "tables"] in Hparts.
      by destruct middle. }
  assert (w_fs w2 !! parent path = None) as Hnone'.
  { rewrite Hsame, Hfs; [apply Hempty|..]; intros Heq; rewrite Heq in Hparent.
    - change (parts (path_of "src")) with ["src"] in Hparent. discriminate.
    - change (parts (path_of "src/tables")) with ["src"; "tables"] in Hparent.
      discriminate.
    - change (parts (path_of "src")) with ["src"] in Hparent. discriminate.
    - change (parts (path_of "src/tables")) with ["src"; "tables"] in Hparent.
      discriminate. }
  unfold open_wb, mbind, M_bind, get_fs, raise. cbv beta iota.
  rewrite Hnone. unfold is_dir. rewrite Hparts, Hparent, Hnone, Hnone'.
  cbn [app fst snd exit_status]. split; [done|].
  split; [done|]. split; [done|].
  rewrite Hw2. cbn [with_fs w_calls]. done.
Qed.

Lemma main_version_with_slash_witness :
  fst (main (answering SAMPLE) ["generate_tables.py"; "15/0"] empty_world) =
    Raise (FileNotFoundError ["src"; "tables"; "v15"; "0.rs"]) /\
  exit_status
    (fst (main (answering SAMPLE) ["generate_tables.py"; "15/0"] empty_world)) = 1%Z.
Proof.
  assert (fst (produce (answering SAMPLE) "15/0" empty_world) = Ok SAMPLE_NORMALIZED)
    as Hout by (vm_compute; reflexivity).
  destruct (main_version_with_slash (answering SAMPLE) "generate_tables.py" "15/0"
              empty_world SAMPLE_NORMALIZED) as (Hret & Hstatus & _).
  - by apply (bool_decide_unpack _).
  - exact Hout.
  - reflexivity.
  - reflexivity.
  - intros q _ _. apply lookup_empty.
  - split; [exact Hret|exact Hstatus].
Defined.

(** ** Running [main] again *)

(** X12: after a run of [main] that wrote its file, a later run for the
    same version in which the collaborators and [transform_code] return
    again (with whatever temporary directory and enumeration order of
    [CATEGORIES] that run has) returns as well.  It changes nothing in the
    working directory tree but the content of the output file, which becomes
    what [transform_code] returned in the later run; when those are the same
    bytes the tree is exactly as the first run left it.  Nothing is
    remembered from the first run: every collaborator is called again. *)
Theorem main_rerun_keeps_tree env env' prog v w out out' :
  Forall (fun c => c ≠ "/"%char) (list_ascii_of_string v) ->
  fst (produce env v w) = Ok out ->
  fst (produce env' v w) = Ok out' ->
  is_file (w_fs w) (path_of "src") = false ->
  is_file (w_fs w) (path_of "src/tables") = false ->
  w_fs w !! path_of ("src/tables/v" ++ str_replace "." "_" v ++ ".rs")%string
    ≠ Some Dir ->
  fst (main env' [prog; v] (snd (main env [prog; v] w))) = Ok tt /\
  w_fs (snd (main env' [prog; v] (snd (main env [prog; v] w))))
    = <[path_of ("src/tables/v" ++ str_replace "." "_" v ++ ".rs")%string := File out']>
        (w_fs (snd (main env [prog; v] w))) /\
  (out' = out ->
   w_fs (snd (main env' [prog; v] (snd (main env [prog; v] w))))
     = w_fs (snd (main env [prog; v] w))) /\
  w_calls (snd (main env' [prog; v] (snd (main env [prog; v] w))))
    = w_calls w ++ expected_calls env v ++ expected_calls env' v.
Proof.
  intros Hv Hout Hout' Hsrc Htables Hpath.
  assert (path_of ("src/tables/v" +:+ (str_replace "." "_" v +:+ ".rs"))
          = {| root := ""; parts := ["src"; "tables";
                 String "v" (str_replace "." "_" v +:+ ".rs")] |}) as Hp
    by by apply path_of_tables_file, str_replace_dots_no_slash.
  rewrite (main_produce_persist env prog v w).
  pose proof (produce_frame env v w) as [Hfs _].
  pose proof (produce_calls env v w) as Hcalls.
  destruct (produce env v w) as [[code|e] w1] eqn:Hrun; cbn [fst snd] in *; [|done].
  injection Hout as ->.
  rewrite persist_writes; [|done|by rewrite Hfs..]. cbn [snd].
  set (path := path_of ("src/tables/v" +:+ (str_replace "." "_" v +:+ ".rs"))) in *.
  pose proof (mkdir_tables w1) as Hok. rewrite Hfs in Hok.
  specialize (Hok Hsrc Htables).
  pose proof (mkdir_parents_files (length (parts (path_of "src/tables")))
                (path_of "src/tables") w1 (path_of "src")) as Hfiles.
  fold (mkdir (path_of "src/tables")) in Hfiles.
  destruct (mkdir (path_of "src/tables") w1) as [[[]|e] w2] eqn:Hm; [|done].
  destruct (mkdir_tables_effect w1 w2 Hm) as (_ & Hdir & _). cbn [snd] in *.
  set (w' := with_fs w1 (<[path := File out]> (w_fs w2))).
  rewrite (main_produce_persist env' prog v w').
  pose proof (produce_frame env' v w') as [Hfs' _].
  pose proof (produce_calls env' v w') as Hcalls'.
  pose proof (produce_result env' v w' w) as Hsame. rewrite Hout' in Hsame.
  destruct (produce env' v w') as [[code'|e'] w1']; cbn [fst snd] in *; [|done].
  injection Hsame as ->.
  assert (w_fs w1' = <[path := File out]> (w_fs w2)) as Htree by done.
  rewrite persist_writes; [|done|..].
  - assert (mkdir (path_of "src/tables") w1' = (Ok tt, w1')) as ->.
    { rewrite mkdir_tables_cases, Htree, lookup_insert_ne, Hdir; [done|].
      rewrite Hp. by vm_compute. }
    cbn [fst snd with_fs w_fs w_calls]. split; [done|].
    fold path. split; [by rewrite Hfs'|].
    split; [intros ->; unfold w'; cbn [with_fs w_fs];
            by rewrite Htree, insert_insert_eq|].
    rewrite Hcalls'. unfold w'. cbn [with_fs w_calls]. rewrite Hcalls.
    by rewrite <- app_assoc.
  - unfold is_file. rewrite Htree, lookup_insert_ne
      by (rewrite Hp; by vm_compute).
    destruct (w_fs w2 !! path_of "src") as [[|c]|] eqn:Hlook; [done| |done].
    specialize (Hfiles c eq_refl). rewrite Hfs in Hfiles.
    unfold is_file in Hsrc. by rewrite Hfiles in Hsrc.
  - unfold is_file. rewrite Htree, lookup_insert_ne, Hdir; [done|].
    rewrite Hp. by vm_compute.
  - by rewrite Htree, lookup_insert_eq.
Qed.

Lemma main_rerun_keeps_tree_witness :
  fst (main (answering_later SAMPLE_NESTED) ["generate_tables.py"; "15.0.0"]
         (snd (main (answering SAMPLE_NESTED) ["generate_tables.py"; "15.0.0"]
                 empty_world)))
    = Ok tt /\
  w_fs (snd (main (answering SAMPLE_NESTED) ["generate_tables.py"; "15.0.0"] empty_world))
    !! path_of "src/tables/v15_0_0.rs" = Some (File SAMPLE_NESTED_NORMALIZED) /\
  w_fs (snd (main (answering_later SAMPLE_NESTED) ["generate_tables.py"; "15.0.0"]
               (snd (main (answering SAMPLE_NESTED) ["generate_tables.py"; "15.0.0"]
                       empty_world))))
    !! path_of "src/tables/v15_0_0.rs" = Some (File SAMPLE_NESTED_FORMAT_FIRST).
Proof.
  assert (fst (produce (answering SAMPLE_NESTED) "15.0.0" empty_world)
          = Ok SAMPLE_NESTED_NORMALIZED) as Hout by (vm_compute; reflexivity).
  assert (fst (produce (answering_later SAMPLE_NESTED) "15.0.0" empty_world)
          = Ok SAMPLE_NESTED_FORMAT_FIRST) as Hout' by (vm_compute; reflexivity).
  assert (w_fs (snd (main (answering SAMPLE_NESTED) ["generate_tables.py"; "15.0.0"]
                       empty_world))
            !! path_of "src/tables/v15_0_0.rs" = Some (File SAMPLE_NESTED_NORMALIZED))
    as Hfirst by (vm_compute; reflexivity).
  destruct (main_rerun_keeps_tree (answering SAMPLE_NESTED)
              (answering_later SAMPLE_NESTED) "generate_tables.py" "15.0.0"
              empty_world SAMPLE_NESTED_NORMALIZED SAMPLE_NESTED_FORMAT_FIRST)
    as (Hret & Htree & _).
  - repeat constructor; discriminate.
  - exact Hout.
  - exact Hout'.
  - reflexivity.
  - reflexivity.
  - vm_compute. discriminate.
  - split; [exact Hret|]. split; [exact Hfirst|].
    rewrite Htree. apply lookup_insert_eq.
Defined.

(** * The returned bytes *)

(** What [transform_code] returns, read as lines again. *)
Lemma transform_code_lines order code out :
  transform_code order code = Ok out ->
  exists lines',
    rewrite_categories order (lines_of code) = Ok lines' /\
    Forall2 (rewritten order) (lines_of code) lines' /\
    Forall line_free lines' /\
    out = join [LF] lines' /\
    splitlines out = drop_final_empty lines'.
Proof.
  unfold transform_code. fold (lines_of code). unfold mbind, result_bind.
  destruct (rewrite_categories order (lines_of code)) as [lines'|e] eqn:Hloop;
    [|done].
  intros [= <-]. exists lines'. split; [done|].
  pose proof (rewrite_categories_in_place _ _ _ Hloop) as Hplace.
  assert (Forall line_free lines') as Hfree.
  { apply Forall_forall. intros l' [i Hi]%list_elem_of_lookup.
    destruct (Forall2_lookup_r _ _ _ _ _ Hplace Hi) as (l & Hl & Hr).
    apply (rewritten_line_free _ _ _ Hr).
    pose proof (splitlines_line_free (replace BY_NAME_PAIRS BY_NAME_TABLES code)) as Hall.
    rewrite Forall_forall in Hall. apply Hall, list_elem_of_lookup. by exists i. }
  split; [done|]. split; [done|]. split; [done|]. by apply splitlines_join.
Qed.

Lemma drop_final_empty_lookup (lines : list bytes) i l :
  lines !! i = Some l -> l ≠ [] -> drop_final_empty lines !! i = Some l.
Proof.
  intros Hi Hl. unfold drop_final_empty.
  destruct (last lines) as [[|b x]|] eqn:Hlast; try done.
  apply last_Some in Hlast as [lines0 ->]. rewrite removelast_last.
  apply lookup_app_Some in Hi as [Hi|[_ Hi]]; [done|].
  apply list_lookup_singleton_Some in Hi as [_ <-]. done.
Qed.






(** ** The declaration line *)




(** * The loop on any input *)

Section keep_facts.
Context {A : Type} `{EqDecision A}.
Implicit Types n s t old new : list A.

(** An occurrence of [n] that no occurrence of [old] can reach survives the
    scan of [replace]. *)
Lemma replace_keeps_occurrence old new n s :
  old ≠ [] -> no_start old n = true ->
  (forall t, contains n (old ++ t) = true -> contains n t = true) ->
  contains n s = true -> contains n (replace old new s) = true.
Proof.
  intros Hold Hstart Hover. revert s.
  apply (replace_scan_ind old
           (fun s => contains n s = true -> contains n (replace old new s) = true));
    [done|..].
  - by rewrite replace_nil.
  - intros t IH Hc. rewrite replace_match by done. by apply contains_app_r, IH, Hover.
  - intros b s Hs IH Hc. cbn [contains] in Hc.
    destruct (starts_with n (b :: s)) eqn:Hn.
    + apply starts_with_prefix in Hn as [r Hr]. rewrite Hr.
      rewrite replace_app_no_start by done.
      apply contains_occurs. by exists [], (replace old new r).
    + rewrite replace_keep by done. apply (contains_app_r n [b]). by apply IH.
Qed.
End keep_facts.

(** No category name occurs in another one. *)
Lemma names_apart c c' :
  c ∈ CATEGORIES -> c' ∈ CATEGORIES -> c' ≠ c ->
  contains (encode c') (encode c) = false.
Proof.
  intros Hc Hc' Hne.
  assert (Forall (fun c => Forall (fun c' =>
            c' ≠ c -> contains (encode c') (encode c) = false) CATEGORIES) CATEGORIES)
    as Hall by (apply (bool_decide_unpack _); vm_compute; exact I).
  rewrite Forall_forall in Hall. specialize (Hall c Hc).
  rewrite Forall_forall in Hall. by apply Hall.
Qed.

Lemma category_not_byte c b :
  c ∈ CATEGORIES -> b ∈ [DQUOTE; x20; x09; x2c; x28; x29; LF] ->
  Forall (fun a => a ≠ b) (encode c).
Proof.
  intros Hc Hb. apply Forall_forall. intros a Ha ->.
  by apply (category_byte_free c b).
Qed.

(** Unwrapping for one category keeps the names of the others. *)
Lemma unwrap_keeps_other c c' line :
  c ∈ CATEGORIES -> c' ∈ CATEGORIES -> c' ≠ c ->
  contains (encode c') line = true ->
  contains (encode c') (unwrap c line) = true.
Proof.
  intros Hc Hc' Hne Hin. destruct (category_bytes c' Hc') as [Hnil _].
  assert (forall b, b ∈ [DQUOTE; x20; x09; x2c; x28; x29; LF] -> b ∉ encode c')
    as Hfree by (intros b Hb; by apply category_byte_free).
  unfold unwrap. apply replace_keeps_occurrence; [done|..].
  - apply no_start_other_head, category_not_byte; [done|].
    by apply (bool_decide_unpack _).
  - intros t. change (PAIR_CLOSING ++ t) with ([] ++ x29 :: ([] ++ x2c :: t)).
    rewrite !contains_cut by (apply Hfree; by apply (bool_decide_unpack _)).
    by rewrite contains_nil_r.
  - apply replace_keeps_occurrence; [by rewrite pair_opening_bytes|..|done].
    + rewrite pair_opening_bytes. apply no_start_other_head, category_not_byte; [done|].
      by apply (bool_decide_unpack _).
    + intros t. rewrite pair_opening_bytes.
      change ((x28 :: x22 :: encode c ++ [x22; x2c; x20]) ++ t)
        with ([] ++ x28 :: ([] ++ x22 :: ((encode c ++ [x22; x2c; x20]) ++ t))).
      rewrite <- (app_assoc (encode c)).
      change ([x22; x2c; x20] ++ t) with (x22 :: ([] ++ x2c :: ([] ++ x20 :: t))).
      rewrite !contains_cut by (apply Hfree; by apply (bool_decide_unpack _)).
      rewrite contains_nil_r by done. by rewrite names_apart.
Qed.

(** When every name that is still to come is on some line, the loop
    returns. *)
Lemma rewrite_categories_returns todo lines :
  NoDup todo -> todo ⊆ CATEGORIES ->
  Forall (fun c => exists j l, lines !! j = Some l /\ contains (encode c) l = true) todo ->
  exists lines', rewrite_categories todo lines = Ok lines'.
Proof.
  revert lines. induction todo as [|c todo IH]; intros lines Hnd Hsub Hall.
  - by exists lines.
  - apply NoDup_cons in Hnd as [Hc Hnd]. apply Forall_cons in Hall as [Hhere Hall].
    assert (c ∈ CATEGORIES) as HcC by (apply Hsub; by left).
    cbn [rewrite_categories]. unfold mbind, result_bind.
    destruct (first_line_with c lines) as [i|] eqn:Hi.
    + destruct (rewrite_category_found c lines i Hi) as (line & Hl & Hin & ->).
      apply IH; [done|intros x Hx; apply Hsub; by right|].
      apply Forall_forall. intros c' Hc'. rewrite Forall_forall in Hall.
      destruct (Hall c' Hc') as (j & l & Hj & Hl').
      destruct (decide (i = j)) as [<-|Hij].
      * exists i, (unwrap c line). split.
        -- apply list_lookup_insert_eq. by apply lookup_lt_Some in Hl.
        -- rewrite Hl in Hj. injection Hj as <-.
           apply unwrap_keeps_other; [done|apply Hsub; by right| |done].
           intros ->. done.
      * exists j, l. by rewrite list_lookup_insert_ne.
    + apply first_line_with_None in Hi. destruct Hhere as (j & l & Hj & Hl).
      rewrite Forall_forall in Hi.
      rewrite Hi in Hl; [done|]. apply list_elem_of_lookup. by exists j.
Qed.

(** When no line holds the name of [c] or comes to hold it, the loop ends
    with the [TypeError] of indexing with [None]. *)
Lemma rewrite_categories_never c order lines :
  c ∈ order -> order ⊆ CATEGORIES -> Forall (never_named c) lines ->
  rewrite_categories order lines = Raise (TypeError NONE_INDEX).
Proof.
  revert lines. induction order as [|c0 order IH]; intros lines Hc Hsub Hnever.
  - by apply elem_of_nil in Hc.
  - cbn [rewrite_categories]. unfold mbind, result_bind.
    destruct (first_line_with c0 lines) as [i|] eqn:Hi.
    + destruct (rewrite_category_found c0 lines i Hi) as (line & Hl & Hin & ->).
      assert (never_named c line) as Hline.
      { rewrite Forall_forall in Hnever. apply Hnever, list_elem_of_lookup.
        by exists i. }
      destruct (decide (c0 = c)) as [->|Hne].
      { rewrite (Hline line) in Hin; [done|constructor]. }
      apply elem_of_cons in Hc as [->|Hc]; [done|].
      apply IH; [done|intros x Hx; apply Hsub; by right|].
      apply Forall_insert; [done|]. intros line' Hr. apply Hline.
      eapply rewritten_unwrap; [apply Hsub; by left|done|done].
    + by rewrite rewrite_category_missing.
Qed.

Lemma every_rewriting_sound ok line line' :
  rewritten CATEGORIES line line' ->
  forall fuel, every_rewriting ok fuel line = true -> ok line' = true.
Proof.
  induction 1 as [line|c line line' Hin Hc _ IH]; intros [|n] Hf; try done.
  - cbn [every_rewriting] in Hf. by destruct (ok line).
  - cbn [every_rewriting] in Hf. destruct (ok line) eqn:Hok; [|done].
    pose proof Hf as Hall. rewrite forallb_forall in Hall.
    specialize (Hall c (proj1 (list_elem_of_In _ _) Hin)). cbn beta in Hall.
    rewrite Hc in Hall. case_bool_decide as Heq.
    + rewrite Heq in IH. apply (IH (S n)). cbn [every_rewriting]. by rewrite Hok.
    + by apply (IH n).
Qed.

Lemma never_named_checked c fuel lines :
  forallb (every_rewriting (fun l => negb (contains (encode c) l)) fuel) lines = true ->
  Forall (never_named c) lines.
Proof.
  rewrite forallb_forall. intros Hall. apply Forall_forall.
  intros line Hline%list_elem_of_In line' Hr.
  apply negb_true_iff.
  exact (every_rewriting_sound (fun l => negb (contains (encode c) l))
           line line' Hr fuel (Hall line Hline)).
Qed.

(** C1, as the script behaves: a name on several lines makes nothing fail;
    a name on no line makes the loop index the list with [None], and the
    [TypeError] raised for that names no category; and when another
    category's unwrapping spells the missing name, not even that: with
    [Format] enumerated first, the sample that lacks [Control] is
    transformed without any failure. *)
Lemma missing_or_repeated_name_is_not_reported :
  (count_lines_with "Control" SAMPLE_TWICE = 2 /\
   transform_code CATEGORIES SAMPLE_TWICE = Ok SAMPLE_TWICE_NORMALIZED) /\
  (count_lines_with "Control" SAMPLE_MISSING = 0 /\
   transform_code CATEGORIES SAMPLE_MISSING = Raise (TypeError NONE_INDEX) /\
   contains (encode "Control") (encode NONE_INDEX) = false) /\
  (count_lines_with "Control" SAMPLE_MISSING_NESTED = 0 /\
   FORMAT_FIRST ≡ₚ CATEGORIES /\
   transform_code FORMAT_FIRST SAMPLE_MISSING_NESTED
     = Ok SAMPLE_MISSING_NESTED_FORMAT_FIRST).
Proof.
  split; [split; vm_compute; reflexivity|].
  split; [split; [|split]; vm_compute; reflexivity|].
  split; [vm_compute; reflexivity|].
  split; [exact FORMAT_FIRST_permutation|vm_compute; reflexivity].
Qed.

(** C1, amended: on every input and with the categories enumerated in any
    order, [transform_code] returns when every category name is on at least
    one line, also when a name is on several lines; it raises the
    [TypeError] of indexing with [None], whose message names no category,
    when some category name is on no line and no line comes to hold it by
    being unwrapped; and it never raises anything else. *)
Theorem transform_missing_or_repeated order code :
  order ≡ₚ CATEGORIES ->
  (every_name_present (lines_of code) = true ->
   exists out, transform_code order code = Ok out) /\
  (forall c, c ∈ CATEGORIES -> Forall (never_named c) (lines_of code) ->
   transform_code order code = Raise (TypeError NONE_INDEX)) /\
  Forall (fun c => contains (encode c) (encode NONE_INDEX) = false) CATEGORIES /\
  (forall e, transform_code order code = Raise e -> e = TypeError NONE_INDEX).
Proof.
  intros Hperm.
  assert (NoDup order) as Hnd.
  { rewrite Hperm. by apply (bool_decide_unpack _); vm_compute. }
  assert (order ⊆ CATEGORIES) as Hsub by (intros x; by rewrite Hperm).
  split; [|split; [|split]].
  - intros Hall. unfold transform_code. fold (lines_of code).
    destruct (rewrite_categories_returns order (lines_of code)) as [lines' ->];
      [done..| |by exists (join [LF] lines')].
    apply Forall_forall. intros c Hc. unfold every_name_present in Hall.
    rewrite forallb_forall in Hall.
    specialize (Hall c (proj1 (list_elem_of_In _ _) (Hsub c Hc))).
    apply existsb_exists in Hall as (l & Hl & Hin).
    apply list_elem_of_In, list_elem_of_lookup in Hl as [j Hj]. by exists j, l.
  - intros c Hc Hnever. unfold transform_code. fold (lines_of code).
    rewrite (rewrite_categories_never c); [done| |done..].
    by rewrite Hperm.
  - apply (bool_decide_unpack _). vm_compute. exact I.
  - intros e. apply transform_code_error.
Qed.

Lemma transform_missing_or_repeated_witness :
  FORMAT_FIRST ≡ₚ CATEGORIES /\
  count_lines_with "Control" SAMPLE_TWICE = 2 /\
  (exists out, transform_code FORMAT_FIRST SAMPLE_TWICE = Ok out) /\
  Forall (never_named "Control") (lines_of SAMPLE_MISSING) /\
  transform_code FORMAT_FIRST SAMPLE_MISSING = Raise (TypeError NONE_INDEX) /\
  Forall (never_named "Control") (lines_of SAMPLE_PACKED_MISSING) /\
  transform_code FORMAT_FIRST SAMPLE_PACKED_MISSING = Raise (TypeError NONE_INDEX).
Proof.
  assert (every_name_present (lines_of SAMPLE_TWICE) = true) as Hall
    by (vm_compute; reflexivity).
  assert (Forall (never_named "Control") (lines_of SAMPLE_MISSING)) as Hnever.
  { apply (never_named_checked "Control" 3). vm_compute. reflexivity. }
  assert (Forall (never_named "Control") (lines_of SAMPLE_PACKED_MISSING)) as Hpacked.
  { apply (never_named_checked "Control" 4). vm_compute. reflexivity. }
  assert ("Control" ∈ CATEGORIES) as Hc
    by (apply (bool_decide_unpack _); vm_compute; exact I).
  split; [exact FORMAT_FIRST_permutation|]. split; [vm_compute; reflexivity|].
  split.
  { exact (proj1 (transform_missing_or_repeated FORMAT_FIRST SAMPLE_TWICE
                    FORMAT_FIRST_permutation) Hall). }
  split; [exact Hnever|]. split.
  { exact (proj1 (proj2 (transform_missing_or_repeated FORMAT_FIRST SAMPLE_MISSING
                           FORMAT_FIRST_permutation)) "Control" Hc Hnever). }
  split; [exact Hpacked|].
  exact (proj1 (proj2 (transform_missing_or_repeated FORMAT_FIRST SAMPLE_PACKED_MISSING
                         FORMAT_FIRST_permutation)) "Control" Hc Hpacked).
Defined.

(** ** The order of the turns *)

Lemma no_new_name_spec line c c' :
  no_new_name line = true -> c ∈ CATEGORIES -> c' ∈ CATEGORIES ->
  contains (encode c) line = true ->
  contains (encode c') (unwrap c line) = true -> contains (encode c') line = true.
Proof.
  unfold no_new_name. rewrite forallb_forall. intros Hall Hc Hc' Hin Hnew.
  specialize (Hall c (proj1 (list_elem_of_In _ _) Hc)). cbn beta zeta in Hall.
  rewrite Hin in Hall. rewrite forallb_forall in Hall.
  specialize (Hall c' (proj1 (list_elem_of_In _ _) Hc')). cbn beta in Hall.
  by rewrite Hnew in Hall.
Qed.

Lemma unwraps_commute_spec line c c' :
  unwraps_commute line = true -> c ∈ CATEGORIES -> c' ∈ CATEGORIES ->
  contains (encode c) line = true -> contains (encode c') line = true ->
  unwrap c' (unwrap c line) = unwrap c (unwrap c' line).
Proof.
  unfold unwraps_commute. rewrite forallb_forall. intros Hall Hc Hc' Hin Hin'.
  specialize (Hall c (proj1 (list_elem_of_In _ _) Hc)). cbn beta zeta in Hall.
  rewrite Hin in Hall. rewrite forallb_forall in Hall.
  specialize (Hall c' (proj1 (list_elem_of_In _ _) Hc')). cbn beta in Hall.
  rewrite Hin' in Hall. by apply bool_decide_eq_true in Hall.
Qed.

Lemma steady_unwrap line c :
  steady line -> c ∈ CATEGORIES -> contains (encode c) line = true ->
  steady (unwrap c line).
Proof.
  intros Hs Hc Hin line' Hr. apply Hs. by eapply rewritten_unwrap.
Qed.

(** On a steady line, unwrapping for one category leaves the other names
    where they are. *)
Lemma steady_contains line c c' :
  steady line -> c ∈ CATEGORIES -> c' ∈ CATEGORIES -> c' ≠ c ->
  contains (encode c) line = true ->
  contains (encode c') (unwrap c line) = contains (encode c') line.
Proof.
  intros Hs Hc Hc' Hne Hin. destruct (Hs line) as [Hnew _]; [constructor|].
  apply eq_true_iff_eq. split.
  - by apply no_new_name_spec.
  - by apply unwrap_keeps_other.
Qed.

(** The line a turn picks depends on which lines hold the name only. *)
Lemma first_line_with_ext c (ls ls' : list bytes) :
  Forall2 (fun l l' => contains (encode c) l = contains (encode c) l') ls ls' ->
  first_line_with c ls = first_line_with c ls'.
Proof.
  intros Hsame. destruct (first_line_with c ls') as [i|] eqn:Hi.
  - apply first_line_with_Some in Hi as (l' & Hl' & Hin & Hmin).
    apply first_line_with_Some.
    destruct (Forall2_lookup_r _ _ _ _ _ Hsame Hl') as (l & Hl & Heq).
    exists l. split; [done|]. split; [congruence|].
    intros j y Hj Hlt. destruct (Forall2_lookup_l _ _ _ _ _ Hsame Hj) as (y' & Hy' & Hy).
    rewrite Hy. by apply (Hmin j).
  - apply first_line_with_None in Hi. apply first_line_with_None.
    apply Forall_forall. intros l [j Hj]%list_elem_of_lookup.
    destruct (Forall2_lookup_l _ _ _ _ _ Hsame Hj) as (l' & Hl' & Heq).
    rewrite Heq. rewrite Forall_forall in Hi. apply Hi, list_elem_of_lookup.
    by exists j.
Qed.

Lemma first_line_with_after_turn c c' lines i line :
  c ∈ CATEGORIES -> c' ∈ CATEGORIES -> c' ≠ c ->
  lines !! i = Some line -> steady line -> contains (encode c) line = true ->
  first_line_with c' (<[i := unwrap c line]> lines) = first_line_with c' lines.
Proof.
  intros Hc Hc' Hne Hi Hs Hin. apply first_line_with_ext.
  apply Forall2_same_length_lookup. split; [apply length_insert|].
  intros j x y Hx Hy. destruct (decide (i = j)) as [<-|Hij].
  - rewrite list_lookup_insert_eq in Hx by by apply lookup_lt_Some in Hi.
    injection Hx as <-. rewrite Hi in Hy. injection Hy as <-.
    by apply steady_contains.
  - rewrite list_lookup_insert_ne in Hx by done. congruence.
Qed.

(** Two successive turns can change places. *)
Lemma swap_turns c1 c2 lines :
  c1 ∈ CATEGORIES -> c2 ∈ CATEGORIES -> c1 ≠ c2 -> Forall steady lines ->
  (lines1 ← rewrite_category c1 lines; rewrite_category c2 lines1) =
  (lines2 ← rewrite_category c2 lines; rewrite_category c1 lines2).
Proof.
  intros H1 H2 Hne Hs. unfold mbind, result_bind.
  assert (forall i line, lines !! i = Some line -> steady line) as Hline.
  { intros i line Hi. rewrite Forall_forall in Hs. apply Hs, list_elem_of_lookup.
    by exists i. }
  destruct (first_line_with c1 lines) as [i|] eqn:Hi,
           (first_line_with c2 lines) as [j|] eqn:Hj.
  - destruct (rewrite_category_found c1 lines i Hi) as (li & Hli & Hin1 & ->).
    destruct (rewrite_category_found c2 lines j Hj) as (lj & Hlj & Hin2 & ->).
    unfold rewrite_category.
    rewrite (first_line_with_after_turn c1 c2 lines i li), Hj by eauto.
    rewrite (first_line_with_after_turn c2 c1 lines j lj), Hi by eauto.
    destruct (decide (i = j)) as [<-|Hij].
    + rewrite Hli in Hlj. injection Hlj as <-.
      rewrite !list_lookup_insert_eq by by apply lookup_lt_Some in Hli.
      rewrite !list_insert_insert_eq. do 2 f_equal.
      destruct (Hline i li Hli li) as [_ Hcomm]; [constructor|].
      by apply unwraps_commute_spec.
    + rewrite !list_lookup_insert_ne by done. rewrite Hli, Hlj.
      f_equal. by apply list_insert_insert_ne.
  - destruct (rewrite_category_found c1 lines i Hi) as (li & Hli & Hin1 & ->).
    rewrite (rewrite_category_missing c2 lines Hj).
    apply rewrite_category_missing.
    by rewrite (first_line_with_after_turn c1 c2 lines i li) by eauto.
  - destruct (rewrite_category_found c2 lines j Hj) as (lj & Hlj & Hin2 & ->).
    rewrite (rewrite_category_missing c1 lines Hi). symmetry.
    apply rewrite_category_missing.
    by rewrite (first_line_with_after_turn c2 c1 lines j lj) by eauto.
  - by rewrite (rewrite_category_missing c1 lines Hi),
      (rewrite_category_missing c2 lines Hj).
Qed.

Lemma turn_keeps_steady c lines lines1 :
  c ∈ CATEGORIES -> Forall steady lines ->
  rewrite_category c lines = Ok lines1 -> Forall steady lines1.
Proof.
  intros Hc Hs. unfold rewrite_category.
  destruct (first_line_with c lines) as [i|] eqn:Hi; [|done].
  apply first_line_with_Some in Hi as (line & Hl & Hin & _). rewrite Hl.
  intros [= <-]. apply Forall_insert; [done|]. apply steady_unwrap; [|done..].
  rewrite Forall_forall in Hs. apply Hs, list_elem_of_lookup. by exists i.
Qed.

(** On steady lines the loop gives the same result for every order of the
    same categories. *)
Lemma rewrite_categories_permutation order1 order2 :
  order1 ≡ₚ order2 -> NoDup order1 -> order1 ⊆ CATEGORIES ->
  forall lines, Forall steady lines ->
    rewrite_categories order1 lines = rewrite_categories order2 lines.
Proof.
  induction 1 as [|c o1 o2 Hperm IH|c1 c2 o|o1 o2 o3 H12 IH12 H23 IH23];
    intros Hnd Hsub lines Hs.
  - done.
  - apply NoDup_cons in Hnd as [_ Hnd]. cbn [rewrite_categories].
    unfold mbind, result_bind.
    destruct (rewrite_category c lines) as [lines1|e] eqn:Hturn; [|done].
    apply IH; [done|intros x Hx; apply Hsub; by right|].
    apply (turn_keeps_steady c lines); [apply Hsub; by left|done..].
  - apply NoDup_cons in Hnd as [Hne Hnd]. apply not_elem_of_cons in Hne as [Hne _].
    assert (c1 ∈ CATEGORIES) as H1 by (apply Hsub; right; by left).
    assert (c2 ∈ CATEGORIES) as H2 by (apply Hsub; by left).
    pose proof (swap_turns c1 c2 lines H1 H2 (not_eq_sym Hne) Hs) as Hswap.
    cbn [rewrite_categories]. unfold mbind, result_bind in *.
    destruct (rewrite_category c1 lines) as [l1|e1], (rewrite_category c2 lines) as [l2|e2].
    + destruct (rewrite_category c1 l2) as [l21|e21], (rewrite_category c2 l1) as [l12|e12];
        congruence.
    + destruct (rewrite_category c2 l1) as [l12|e12]; congruence.
    + destruct (rewrite_category c1 l2) as [l21|e21]; congruence.
    + congruence.
  - rewrite IH12 by done. apply IH23; [by rewrite <- H12|by rewrite <- H12|done].
Qed.

Lemma steady_checked fuel lines :
  forallb (every_rewriting (fun l => if no_new_name l then unwraps_commute l else false)
             fuel) lines = true ->
  Forall steady lines.
Proof.
  rewrite forallb_forall. intros Hall. apply Forall_forall.
  intros line Hline%list_elem_of_In line' Hr.
  pose proof (every_rewriting_sound
                (fun l => if no_new_name l then unwraps_commute l else false)
                line line' Hr fuel (Hall line Hline)) as Hok.
  cbn beta in Hok. by destruct (no_new_name line').
Qed.

Lemma no_new_name_checked fuel lines :
  forallb (every_rewriting no_new_name fuel) lines = true ->
  Forall (fun line => forall line',
            rewritten CATEGORIES line line' -> no_new_name line' = true) lines.
Proof.
  rewrite forallb_forall. intros Hall. apply Forall_forall.
  intros line Hline%list_elem_of_In line' Hr.
  exact (every_rewriting_sound no_new_name line line' Hr fuel (Hall line Hline)).
Qed.

(** C2, as the script behaves: two enumerations of [CATEGORIES] give
    different outputs on the same input, when unwrapping one category's pair
    spells the name of another ([SAMPLE_NESTED]); and also when no
    unwrapping spells a new name, but unwrapping one pair makes the pair
    opening of another category that stands on the same line
    ([SAMPLE_CROSSED]). *)
Lemma enumeration_order_changes_output :
  CATEGORIES ≡ₚ CATEGORIES /\ FORMAT_FIRST ≡ₚ CATEGORIES /\
  (transform_code CATEGORIES SAMPLE_NESTED = Ok SAMPLE_NESTED_NORMALIZED /\
   transform_code FORMAT_FIRST SAMPLE_NESTED = Ok SAMPLE_NESTED_FORMAT_FIRST /\
   SAMPLE_NESTED_NORMALIZED ≠ SAMPLE_NESTED_FORMAT_FIRST) /\
  (Forall (fun line => forall line',
             rewritten CATEGORIES line line' -> no_new_name line' = true)
     (lines_of SAMPLE_CROSSED) /\
   transform_code CATEGORIES SAMPLE_CROSSED = Ok SAMPLE_CROSSED_NORMALIZED /\
   transform_code FORMAT_FIRST SAMPLE_CROSSED = Ok SAMPLE_CROSSED_FORMAT_FIRST /\
   SAMPLE_CROSSED_NORMALIZED ≠ SAMPLE_CROSSED_FORMAT_FIRST).
Proof.
  split; [reflexivity|]. split; [exact FORMAT_FIRST_permutation|]. split.
  - split; [vm_compute; reflexivity|]. split; [vm_compute; reflexivity|].
    apply (bool_decide_unpack _). vm_compute. exact I.
  - split; [apply (no_new_name_checked 4); vm_compute; reflexivity|].
    split; [vm_compute; reflexivity|]. split; [vm_compute; reflexivity|].
    apply (bool_decide_unpack _). vm_compute. exact I.
Qed.

(** C2, amended: when, on every line of the input and on every line that
    unwrapping makes of it, unwrapping for a category spells no category
    name that was not on the line, and unwrapping for two categories gives
    the same bytes in either order, any two enumerations of [CATEGORIES]
    give the same result: the same bytes, or the same [TypeError]. *)
Theorem transform_order_independent order1 order2 code :
  order1 ≡ₚ CATEGORIES -> order2 ≡ₚ CATEGORIES ->
  Forall steady (lines_of code) ->
  transform_code order1 code = transform_code order2 code.
Proof.
  intros H1 H2 Hs. unfold transform_code. fold (lines_of code).
  rewrite (rewrite_categories_permutation order1 order2); [done| | | |done].
  - by rewrite H1, H2.
  - rewrite H1. by apply (bool_decide_unpack _); vm_compute.
  - intros x. by rewrite H1.
Qed.

Lemma SAMPLE_PACKED_steady : Forall steady (lines_of SAMPLE_PACKED).
Proof. apply (steady_checked 4). vm_compute. reflexivity. Qed.

Lemma transform_order_independent_witness :
  CATEGORIES ≡ₚ CATEGORIES /\ FORMAT_FIRST ≡ₚ CATEGORIES /\
  Forall steady (lines_of SAMPLE_PACKED) /\
  transform_code FORMAT_FIRST SAMPLE_PACKED = Ok SAMPLE_PACKED_NORMALIZED.
Proof.
  split; [reflexivity|]. split; [exact FORMAT_FIRST_permutation|].
  split; [exact SAMPLE_PACKED_steady|].
  rewrite <- (transform_order_independent CATEGORIES FORMAT_FIRST SAMPLE_PACKED
                (reflexivity _) FORMAT_FIRST_permutation SAMPLE_PACKED_steady).
  vm_compute. reflexivity.
Defined.

(** * Lines of texts and entries *)

Section pair_facts.
Context {A : Type} `{EqDecision A}.
Implicit Types s t : list A.

(** The first occurrence of a two-element text, with none before it. *)
Lemma replace_pair_mid (a b : A) new s t :
  a ≠ b -> contains [a; b] s = false ->
  replace [a; b] new (s ++ [a; b] ++ t) = s ++ new ++ replace [a; b] new t.
Proof.
  intros Hab. induction s as [|c s IH]; intros Hs.
  - cbn [app]. by rewrite (replace_match [a; b] new t).
  - cbn [contains] in Hs. rewrite if_true_orb in Hs.
    apply orb_false_iff in Hs as [Hhead Hs].
    change ((c :: s) ++ [a; b] ++ t) with (c :: (s ++ [a; b] ++ t)).
    rewrite replace_keep; [by rewrite IH|done|].
    destruct s as [|d s]; cbn [app starts_with] in *.
    + case_bool_decide; [|done]. by rewrite bool_decide_eq_false_2.
    + done.
Qed.
End pair_facts.

Lemma line_as_cons closing unwrapped it items :
  line_as closing unwrapped (it :: items) =
  written closing unwrapped it ++ line_as closing unwrapped items.
Proof. reflexivity. Qed.

Lemma bare_cons it items : bare (it :: items) = bare_item it ++ bare items.
Proof. reflexivity. Qed.

(** The pair opening of one category does not begin in that of another. *)
Lemma openings_apart c d :
  c ∈ CATEGORIES -> d ∈ CATEGORIES -> d ≠ c ->
  no_start (encode (pair_opening c)) (encode (pair_opening d)) = true.
Proof.
  intros Hc Hd Hne.
  assert (Forall (fun c => Forall (fun d =>
            d ≠ c -> no_start (encode (pair_opening c)) (encode (pair_opening d)) = true)
            CATEGORIES) CATEGORIES)
    as Hall by (apply (bool_decide_unpack _); vm_compute; exact I).
  rewrite Forall_forall in Hall. specialize (Hall c Hc).
  rewrite Forall_forall in Hall. by apply Hall.
Qed.

Lemma opening_not_closing d :
  d ∈ CATEGORIES -> no_start PAIR_CLOSING (encode (pair_opening d)) = true.
Proof.
  intros Hd. apply no_start_other_head. rewrite pair_opening_bytes.
  repeat (apply Forall_cons; split; [done|]). apply Forall_app. split.
  - apply category_not_byte; [done|]. by apply (bool_decide_unpack _).
  - by repeat constructor.
Qed.

Lemma opening_nonempty c : encode (pair_opening c) ≠ [].
Proof. by rewrite pair_opening_bytes. Qed.

(** The first [replace] of an unwrapping deletes the pair openings of the
    entries of its category, and those only. *)
Lemma strip_opening c closing unwrapped items :
  c ∈ CATEGORIES ->
  Forall (fun d => d ∈ CATEGORIES) (categories_of items) ->
  Forall (fun t => no_start (encode (pair_opening c)) t = true) (texts_of items) ->
  Forall (fun r => no_start (encode (pair_opening c)) (r ++ closing) = true)
    (ranges_in items) ->
  replace (encode (pair_opening c)) [] (line_as closing unwrapped items) =
  line_as closing (c :: unwrapped) items.
Proof.
  intros Hc. pose proof (opening_nonempty c) as Hne.
  induction items as [|[t|d r] items IH]; intros Hcats Htexts Hranges.
  - unfold line_as. cbn. by rewrite replace_nil.
  - cbn in Htexts. apply Forall_cons in Htexts as [Ht Htexts].
    rewrite !line_as_cons. cbn [written].
    rewrite replace_app_no_start by done. f_equal. by apply IH.
  - cbn in Hcats, Hranges. apply Forall_cons in Hcats as [Hd Hcats].
    apply Forall_cons in Hranges as [Hr Hranges].
    rewrite !line_as_cons. cbn [written]. specialize (IH Hcats Htexts Hranges).
    assert (replace (encode (pair_opening c)) []
              ((r ++ closing) ++ line_as closing unwrapped items)
            = (r ++ closing) ++ line_as closing (c :: unwrapped) items) as Htail.
    { rewrite replace_app_no_start by done. by rewrite IH. }
    destruct (decide (d = c)) as [->|Hdc].
    + rewrite (bool_decide_eq_true_2 (c ∈ c :: unwrapped)) by by left.
      case_bool_decide.
      * rewrite !app_nil_l. exact Htail.
      * rewrite <- (app_assoc (encode (pair_opening c))), replace_match by done.
        rewrite !app_nil_l. exact Htail.
    + assert (bool_decide (d ∈ c :: unwrapped) = bool_decide (d ∈ unwrapped)) as ->.
      { apply bool_decide_ext. rewrite elem_of_cons. tauto. }
      case_bool_decide.
      * rewrite !app_nil_l. exact Htail.
      * rewrite <- !(app_assoc (encode (pair_opening d))).
        rewrite replace_app_no_start; [|done|by apply openings_apart].
        by rewrite Htail.
Qed.

(** The second [replace] of the first unwrapping of a line strips the
    closing parenthesis of every entry, and nothing else. *)
Lemma strip_closings unwrapped items :
  Forall (fun d => d ∈ CATEGORIES) (categories_of items) ->
  Forall closing_free (texts_of items) ->
  Forall (fun r => contains PAIR_CLOSING r = false) (ranges_in items) ->
  replace PAIR_CLOSING COMMA (line_as PAIR_CLOSING unwrapped items) =
  line_as COMMA unwrapped items.
Proof.
  induction items as [|[t|d r] items IH]; intros Hcats Htexts Hranges.
  - done.
  - cbn in Htexts. apply Forall_cons in Htexts as [Ht Htexts].
    rewrite !line_as_cons. cbn [written].
    rewrite replace_app_no_start by done. f_equal. by apply IH.
  - cbn in Hcats, Hranges. apply Forall_cons in Hcats as [Hd Hcats].
    apply Forall_cons in Hranges as [Hr Hranges].
    rewrite !line_as_cons. cbn [written]. specialize (IH Hcats Htexts Hranges).
    assert (replace PAIR_CLOSING COMMA
              ((r ++ PAIR_CLOSING) ++ line_as PAIR_CLOSING unwrapped items)
            = (r ++ COMMA) ++ line_as COMMA unwrapped items) as Htail.
    { rewrite <- !app_assoc. rewrite (replace_pair_mid x29 x2c) by done.
      do 2 f_equal. exact IH. }
    case_bool_decide.
    + rewrite !app_nil_l. exact Htail.
    + rewrite <- !(app_assoc (encode (pair_opening d))).
      rewrite replace_app_no_start; [|done|by apply opening_not_closing].
      by rewrite Htail.
Qed.

(** The second [replace] of a later unwrapping changes nothing. *)
Lemma keep_commas unwrapped items :
  Forall (fun d => d ∈ CATEGORIES) (categories_of items) ->
  Forall closing_free (texts_of items) ->
  Forall (fun r => closing_free (r ++ COMMA)) (ranges_in items) ->
  replace PAIR_CLOSING COMMA (line_as COMMA unwrapped items) =
  line_as COMMA unwrapped items.
Proof.
  induction items as [|[t|d r] items IH]; intros Hcats Htexts Hranges.
  - done.
  - cbn in Htexts. apply Forall_cons in Htexts as [Ht Htexts].
    rewrite !line_as_cons. cbn [written].
    rewrite replace_app_no_start by done. f_equal. by apply IH.
  - cbn in Hcats, Hranges. apply Forall_cons in Hcats as [Hd Hcats].
    apply Forall_cons in Hranges as [Hr Hranges].
    rewrite !line_as_cons. cbn [written]. specialize (IH Hcats Htexts Hranges).
    assert (replace PAIR_CLOSING COMMA ((r ++ COMMA) ++ line_as COMMA unwrapped items)
            = (r ++ COMMA) ++ line_as COMMA unwrapped items) as Htail.
    { rewrite replace_app_no_start by done. by rewrite IH. }
    case_bool_decide.
    + rewrite !app_nil_l. exact Htail.
    + rewrite <- !(app_assoc (encode (pair_opening d))).
      rewrite replace_app_no_start; [|done|by apply opening_not_closing].
      by rewrite Htail.
Qed.

(** ** The names on a line of texts and entries *)

Lemma name_in_opening c : contains (encode c) (encode (pair_opening c)) = true.
Proof.
  apply contains_occurs. rewrite pair_opening_bytes.
  by exists [x28; x22], [x22; x2c; x20].
Qed.

Lemma contains_self {A} `{EqDecision A} (p : list A) : contains p p = true.
Proof. apply contains_occurs. exists [], []. by rewrite app_nil_r. Qed.

(** A category name is found in front of a pair opening, in it when it is
    the opening of that category, or behind it. *)
Lemma contains_around_opening n d front rest :
  n ∈ CATEGORIES -> d ∈ CATEGORIES ->
  contains (encode n) (front ++ encode (pair_opening d) ++ rest) =
  contains (encode n) front || (bool_decide (n = d) || contains (encode n) rest).
Proof.
  intros Hn Hd. destruct (category_bytes n Hn) as [Hnil _].
  assert (forall b, b ∈ [DQUOTE; x20; x09; x2c; x28; x29; LF] -> b ∉ encode n)
    as Hfree by (intros b Hb; by apply category_byte_free).
  rewrite pair_opening_bytes.
  change (front ++ (x28 :: x22 :: encode d ++ [x22; x2c; x20]) ++ rest)
    with (front ++ x28 :: ([] ++ x22 :: ((encode d ++ [x22; x2c; x20]) ++ rest))).
  rewrite <- (app_assoc (encode d)).
  change ([x22; x2c; x20] ++ rest) with (x22 :: ([] ++ x2c :: ([] ++ x20 :: rest))).
  rewrite !contains_cut by (apply Hfree; by apply (bool_decide_unpack _)).
  rewrite contains_nil_r by done. cbn [orb]. f_equal. f_equal.
  case_bool_decide as Heq.
  - subst d. apply contains_self.
  - by apply names_apart.
Qed.

Lemma entry_named closing unwrapped items n :
  n ∈ categories_of items -> n ∉ unwrapped ->
  contains (encode n) (line_as closing unwrapped items) = true.
Proof.
  induction items as [|[t|d r] items IH]; intros Hn Hun.
  - by apply elem_of_nil in Hn.
  - rewrite line_as_cons. apply contains_app_r. by apply IH.
  - rewrite line_as_cons. cbn in Hn. apply elem_of_cons in Hn as [->|Hn].
    + apply contains_app_l. cbn [written]. rewrite bool_decide_eq_false_2 by done.
      apply contains_app_l, name_in_opening.
    + apply contains_app_r. by apply IH.
Qed.

(** A category name on the line is the name of one of its entries that is
    still wrapped, or it is on the bare line. *)
Lemma names_of_line closing unwrapped items n front :
  closing = PAIR_CLOSING \/ closing = COMMA -> n ∈ CATEGORIES ->
  Forall (fun d => d ∈ CATEGORIES) (categories_of items) ->
  contains (encode n) (front ++ line_as closing unwrapped items) = true ->
  contains (encode n) (front ++ bare items) = true \/
  (n ∈ categories_of items /\ n ∉ unwrapped).
Proof.
  intros Hcl Hn. destruct (category_bytes n Hn) as [Hnil _].
  assert (forall b, b ∈ [DQUOTE; x20; x09; x2c; x28; x29; LF] -> b ∉ encode n)
    as Hfree by (intros b Hb; by apply category_byte_free).
  revert front. induction items as [|[t|d r] items IH]; intros front Hcats Hin.
  - by left.
  - rewrite line_as_cons in Hin. cbn [written] in Hin. rewrite app_assoc in Hin.
    destruct (IH (front ++ t) Hcats Hin) as [H|H]; [left|by right].
    rewrite bare_cons. cbn [bare_item]. by rewrite app_assoc.
  - cbn in Hcats. apply Forall_cons in Hcats as [Hd Hcats].
    assert (forall front',
              contains (encode n)
                (front' ++ (r ++ closing) ++ line_as closing unwrapped items) = true ->
              contains (encode n) (front' ++ (r ++ COMMA) ++ bare items) = true \/
              (n ∈ categories_of items /\ n ∉ unwrapped)) as Htail.
    { intros front' H. destruct Hcl as [-> | ->].
      - assert (front' ++ (r ++ PAIR_CLOSING) ++ line_as PAIR_CLOSING unwrapped items
                = (front' ++ r) ++ x29 :: ([x2c] ++ line_as PAIR_CLOSING unwrapped items))
          as Heq by (by rewrite <- !app_assoc).
        rewrite Heq, contains_cut in H
          by (apply Hfree; by apply (bool_decide_unpack _)).
        apply orb_true_iff in H as [H|H].
        + left. rewrite !app_assoc. by do 2 apply contains_app_l.
        + destruct (IH [x2c] Hcats H) as [H'|H']; [left|by right].
          rewrite <- (app_assoc r), app_assoc. by apply contains_app_r.
      - rewrite app_assoc in H.
        destruct (IH (front' ++ r ++ COMMA) Hcats H) as [H'|H']; [left|by right].
        by rewrite app_assoc. }
    rewrite line_as_cons in Hin. cbn [written] in Hin.
    rewrite bare_cons. cbn [bare_item].
    change (categories_of (Entry d r :: items)) with (d :: categories_of items).
    case_bool_decide as Hmem.
    + rewrite app_nil_l in Hin.
      destruct (Htail front Hin) as [H|[H1 H2]]; [by left|right].
      split; [by right|done].
    + rewrite <- !(app_assoc (encode (pair_opening d))) in Hin.
      rewrite contains_around_opening in Hin by done.
      apply orb_true_iff in Hin as [Hin|Hin].
      { left. by apply contains_app_l. }
      apply orb_true_iff in Hin as [Hin|Hin].
      { apply bool_decide_eq_true in Hin as ->. right. split; [by left|done]. }
      destruct (Htail [] Hin) as [H|[H1 H2]].
      * left. by apply contains_app_r.
      * right. split; [by right|done].
Qed.

Lemma line_as_ext closing unwrapped unwrapped' items :
  (forall d, d ∈ categories_of items -> d ∈ unwrapped <-> d ∈ unwrapped') ->
  line_as closing unwrapped items = line_as closing unwrapped' items.
Proof.
  induction items as [|[t|d r] items IH]; intros Hsame; [done|..].
  - rewrite !line_as_cons. f_equal. by apply IH.
  - rewrite !line_as_cons. cbn [written].
    assert (bool_decide (d ∈ unwrapped) = bool_decide (d ∈ unwrapped')) as ->
      by (apply bool_decide_ext, Hsame; by left).
    f_equal. apply IH. intros d' Hd'. apply Hsame. by right.
Qed.

Lemma line_as_all closing unwrapped items :
  (forall d, d ∈ categories_of items -> d ∈ unwrapped) ->
  line_as closing unwrapped items =
  concat ((fun it => match it with Text t => t | Entry _ r => r ++ closing end) <$> items).
Proof.
  induction items as [|[t|d r] items IH]; intros Hall; [done|..].
  - rewrite line_as_cons, fmap_cons. cbn [concat written]. f_equal. by apply IH.
  - rewrite line_as_cons, fmap_cons. cbn [concat written].
    rewrite bool_decide_eq_true_2 by (apply Hall; by left).
    f_equal. apply IH. intros d' Hd'. apply Hall. by right.
Qed.

(** ** The loop on lines of texts and entries *)

Lemma line_after_nil items : line_after [] items = raw items.
Proof.
  unfold line_after. rewrite bool_decide_eq_false_2; [done|].
  rewrite Exists_exists. intros (c & _ & Hc). by apply elem_of_nil in Hc.
Qed.

Lemma no_entries closing unwrapped items :
  categories_of items = [] -> line_as closing unwrapped items = bare items.
Proof.
  induction items as [|[t|d r] items IH]; intros Hnone; [done| |done].
  rewrite line_as_cons, bare_cons. cbn [written bare_item]. f_equal. by apply IH.
Qed.

(** Of the categories that have not had their turn, a tidy line names those
    of its entries. *)
Lemma tidy_names unwrapped items n :
  tidy items -> n ∈ CATEGORIES -> n ∉ unwrapped ->
  contains (encode n) (line_after unwrapped items) = true <->
  n ∈ categories_of items.
Proof.
  intros (Hbare & _ & Hcats & _) Hn Hun. rewrite Forall_forall in Hbare.
  unfold line_after. split.
  - case_bool_decide as Hex; intros Hin.
    + destruct (names_of_line COMMA unwrapped items n [] (or_intror eq_refl)
                  Hn Hcats Hin) as [H|[H _]]; [|done].
      by apply Hbare.
    + destruct (names_of_line PAIR_CLOSING [] items n [] (or_introl eq_refl)
                  Hn Hcats Hin) as [H|[H _]]; [|done].
      by apply Hbare.
  - intros Hin. case_bool_decide; apply entry_named; try done.
    apply not_elem_of_nil.
Qed.

(** Unwrapping a tidy line for the category of one of its entries. *)
Lemma unwrap_line_after c unwrapped items :
  tidy items -> c ∈ CATEGORIES -> c ∈ categories_of items -> c ∉ unwrapped ->
  unwrap c (line_after unwrapped items) = line_after (c :: unwrapped) items.
Proof.
  intros (_ & _ & Hcats & Hrest) Hc Hin Hun.
  destruct Hrest as (Htexts & Hranges & Hseveral).
  { intros Hnil. rewrite Hnil in Hin. by apply elem_of_nil in Hin. }
  assert (Forall closing_free (texts_of items)) as Htc.
  { eapply Forall_impl; [exact Htexts|]. by intros t [_ ?]. }
  assert (Forall (fun t => no_start (encode (pair_opening c)) t = true) (texts_of items))
    as Hto.
  { eapply Forall_impl; [exact Htexts|]. intros t [Ho _].
    unfold opening_free in Ho. rewrite Forall_forall in Ho. by apply Ho. }
  unfold line_after at 2.
  rewrite (bool_decide_eq_true_2 (Exists _ _))
    by (apply Exists_exists; exists c; split; [done|by left]).
  unfold line_after. case_bool_decide as Hex.
  - apply Exists_exists in Hex as (d & Hd & Hdd).
    assert (several (categories_of items)) as Hsev.
    { intros Hall. rewrite Forall_forall in Hall. specialize (Hall d Hd).
      rewrite Forall_forall in Hall. specialize (Hall c Hin). by subst. }
    specialize (Hseveral Hsev). unfold unwrap. rewrite strip_opening; [|done..|].
    + apply keep_commas; [done..|].
      eapply Forall_impl; [exact Hseveral|]. by intros r [_ ?].
    + eapply Forall_impl; [exact Hseveral|]. intros r [Ho _].
      unfold opening_free in Ho. rewrite Forall_forall in Ho. by apply Ho.
  - unfold unwrap, raw. rewrite strip_opening; [|done..|].
    + rewrite strip_closings; [|done..|].
      * apply line_as_ext. intros d Hd. rewrite !elem_of_cons. split.
        -- intros [->|Hdd]; [by left|]. by apply elem_of_nil in Hdd.
        -- intros [->|Hdd]; [by left|]. destruct Hex. apply Exists_exists.
           by exists d.
      * eapply Forall_impl; [exact Hranges|]. by intros r [_ ?].
    + eapply Forall_impl; [exact Hranges|]. intros r [Ho _].
      unfold opening_free in Ho. rewrite Forall_forall in Ho. by apply Ho.
Qed.

Lemma line_after_other c unwrapped items :
  c ∉ categories_of items ->
  line_after (c :: unwrapped) items = line_after unwrapped items.
Proof.
  intros Hc. unfold line_after.
  assert (bool_decide (Exists (fun d => d ∈ c :: unwrapped) (categories_of items))
          = bool_decide (Exists (fun d => d ∈ unwrapped) (categories_of items))) as ->.
  { apply bool_decide_ext. rewrite !Exists_exists.
    split; intros (d & Hd & Hdd); exists d; (split; [done|]).
    - apply elem_of_cons in Hdd as [->|]; done.
    - by right. }
  case_bool_decide; [|done]. apply line_as_ext. intros d Hd. rewrite elem_of_cons.
  split; [|by right]. intros [->|]; done.
Qed.

Lemma line_after_all unwrapped items :
  tidy items -> (forall c, c ∈ CATEGORIES -> c ∈ unwrapped) ->
  line_after unwrapped items = bare items.
Proof.
  intros (_ & _ & Hcats & _) Hall. rewrite Forall_forall in Hcats.
  unfold line_after. case_bool_decide as Hex.
  - unfold bare. rewrite line_as_all; [done|]. intros d Hd. by apply Hall, Hcats.
  - apply no_entries. destruct (categories_of items) as [|d ds] eqn:Hcs; [done|].
    destruct Hex. apply Exists_exists. exists d. split; [by left|].
    apply Hall, Hcats. by left.
Qed.

(** The loop on tidy lines in which every category that is still to come
    has its entries on one line: every turn unwraps that line. *)
Lemma rewrite_categories_parsed todo unwrapped parse :
  Forall tidy parse -> NoDup todo -> todo ⊆ CATEGORIES ->
  (forall c, c ∈ todo -> c ∉ unwrapped) ->
  Forall (fun c => exists k items,
            parse !! k = Some items /\ c ∈ categories_of items /\
            forall j items', parse !! j = Some items' -> c ∈ categories_of items' -> j = k)
    todo ->
  rewrite_categories todo (line_after unwrapped <$> parse) =
  Ok (line_after (rev todo ++ unwrapped) <$> parse).
Proof.
  intros Htidy. rewrite Forall_forall in Htidy. revert unwrapped.
  induction todo as [|c todo IH]; intros unwrapped Hnd Hsub Hfresh Hone; [done|].
  apply NoDup_cons in Hnd as [Hc Hnd].
  apply Forall_cons in Hone as [(k & items & Hk & Hin & Huniq) Hone].
  assert (c ∈ CATEGORIES) as HcC by (apply Hsub; by left).
  assert (c ∉ unwrapped) as Hun by (apply Hfresh; by left).
  assert (forall j its, parse !! j = Some its -> tidy its) as Hline.
  { intros j its Hj. apply Htidy, list_elem_of_lookup. by exists j. }
  assert (first_line_with c (line_after unwrapped <$> parse) = Some k) as Hfirst.
  { apply first_line_with_Some. exists (line_after unwrapped items).
    split; [by rewrite list_lookup_fmap, Hk|].
    split; [apply tidy_names; eauto|].
    intros j y Hj Hlt. rewrite list_lookup_fmap in Hj.
    destruct (parse !! j) as [items'|] eqn:Hj'; [|done].
    cbn in Hj. injection Hj as <-.
    destruct (contains (encode c) (line_after unwrapped items')) eqn:Hcon; [|done].
    apply tidy_names in Hcon; [|eauto|done..].
    specialize (Huniq j items' Hj' Hcon). lia. }
  cbn [rewrite_categories]. unfold mbind, result_bind.
  destruct (rewrite_category_found c _ k Hfirst) as (line & Hl & _ & ->).
  rewrite list_lookup_fmap, Hk in Hl. cbn in Hl. injection Hl as <-.
  rewrite unwrap_line_after by eauto.
  assert (<[k := line_after (c :: unwrapped) items]> (line_after unwrapped <$> parse)
          = line_after (c :: unwrapped) <$> parse) as ->.
  { apply list_eq. intros j. destruct (decide (k = j)) as [<-|Hkj].
    - rewrite list_lookup_insert_eq
        by (rewrite length_fmap; by apply lookup_lt_Some in Hk).
      by rewrite list_lookup_fmap, Hk.
    - rewrite list_lookup_insert_ne by done. rewrite !list_lookup_fmap.
      destruct (parse !! j) as [items'|] eqn:Hj'; [|done]. cbn. f_equal.
      symmetry. apply line_after_other. intros Hcin. apply Hkj. symmetry.
      by apply (Huniq j items'). }
  rewrite IH; [|done| | |done].
  - cbn [rev]. by rewrite <- app_assoc.
  - intros x Hx. apply Hsub. by right.
  - intros x Hx. apply not_elem_of_cons. split; [|apply Hfresh; by right].
    intros ->. done.
Qed.

(** C4, as the script behaves.  In each of these sources every category
    name is on exactly one line, which holds the entry of the category.
    With the ranges of [Control] written in line, the [)] of the first range
    is lost.  With two entries on one line whose ranges end with [)], those
    [)] are lost.  And with [Format] enumerated first and an entry of
    [Format] that, unwrapped, spells [Control], the entry of [Control] is
    never unwrapped: its pair opening is in the output. *)
Lemma inline_ranges_are_damaged :
  (Forall (fun c => length (lines_with c (lines_of SAMPLE_INLINE)) = 1) CATEGORIES /\
   entry_line (encode "  ") "Control" (encode "&[(0, 31), (127, 159)]")
     ∈ lines_of SAMPLE_INLINE /\
   transform_code CATEGORIES SAMPLE_INLINE = Ok SAMPLE_INLINE_NORMALIZED /\
   (encode "  " ++ encode "&[(0, 31), (127, 159)]" ++ COMMA
      ∉ splitlines SAMPLE_INLINE_NORMALIZED) /\
   encode "  &[(0, 31, (127, 159)]," ∈ splitlines SAMPLE_INLINE_NORMALIZED) /\
  (Forall (fun c => length (lines_with c (lines_of SAMPLE_PACKED_CALLS)) = 1)
     CATEGORIES /\
   transform_code CATEGORIES SAMPLE_PACKED_CALLS = Ok SAMPLE_PACKED_CALLS_NORMALIZED /\
   (encode "  f(0), g(1)," ∉ splitlines SAMPLE_PACKED_CALLS_NORMALIZED) /\
   encode "  f(0, g(1," ∈ splitlines SAMPLE_PACKED_CALLS_NORMALIZED) /\
  (Forall (fun c => length (lines_with c (lines_of SAMPLE_SPLICED)) = 1) CATEGORIES /\
   FORMAT_FIRST ≡ₚ CATEGORIES /\
   transform_code FORMAT_FIRST SAMPLE_SPLICED = Ok SAMPLE_SPLICED_FORMAT_FIRST /\
   contains (encode (pair_opening "Control")) SAMPLE_SPLICED_FORMAT_FIRST = true).
Proof.
  split; [|split].
  - split; [apply (bool_decide_unpack _); vm_compute; exact I|].
    split; [apply (bool_decide_unpack _); vm_compute; exact I|].
    split; [vm_compute; reflexivity|].
    split; apply (bool_decide_unpack _); vm_compute; exact I.
  - split; [apply (bool_decide_unpack _); vm_compute; exact I|].
    split; [vm_compute; reflexivity|].
    split; apply (bool_decide_unpack _); vm_compute; exact I.
  - split; [apply (bool_decide_unpack _); vm_compute; exact I|].
    split; [exact FORMAT_FIRST_permutation|].
    split; vm_compute; reflexivity.
Qed.

(** C4, amended: when the lines the loop starts from are made of texts and
    entries [("Name", <ranges>),] of categories, any number to a line, such
    that every category name is on exactly one line, which holds an entry of
    the category, and every line is tidy (without the wrappings of its
    entries it spells no category name but those of its entries and holds no
    pair opening; on a line with entries no pair opening and no [),] begins
    in the texts or is held by the ranges, and where the entries of a line
    are of several categories no ranges end with [)]), then
    [transform_code], with the categories in any order, returns the lines
    joined by LF in which every entry is written [<ranges>,] and every text
    is as it was; so a line that was blanks and one entry is the blanks, the
    ranges and a comma; and no pair opening of a category is left in the
    output. *)
Theorem transform_unwraps_entries order code parse :
  order ≡ₚ CATEGORIES ->
  lines_of code = raw <$> parse ->
  Forall tidy parse ->
  Forall (fun c => length (lines_with c (lines_of code)) = 1 /\
                   exists items, items ∈ parse /\ c ∈ categories_of items)
    CATEGORIES ->
  exists out,
    transform_code order code = Ok out /\
    out = join [LF] (bare <$> parse) /\
    splitlines out = drop_final_empty (bare <$> parse) /\
    (forall i indent c ranges,
       parse !! i = Some [Text indent; Entry c ranges] ->
       splitlines out !! i = Some (indent ++ ranges ++ COMMA)) /\
    Forall (fun c => contains (encode (pair_opening c)) out = false) CATEGORIES.
Proof.
  intros Hperm Hlines Htidy Hone.
  assert (rewrite_categories order (lines_of code) = Ok (bare <$> parse)) as Hloop.
  { rewrite Hlines.
    assert (raw <$> parse = line_after [] <$> parse) as ->.
    { apply list_fmap_ext. intros _ items _. by rewrite line_after_nil. }
    rewrite rewrite_categories_parsed; [|done| | | |].
    - f_equal. apply Forall_fmap_ext. eapply Forall_impl; [exact Htidy|].
      intros items Hitems. apply line_after_all; [done|]. intros c Hc.
      rewrite app_nil_r. apply list_elem_of_In, in_rev, list_elem_of_In.
      by rewrite Hperm.
    - rewrite Hperm. by apply (bool_decide_unpack _); vm_compute.
    - intros x. by rewrite Hperm.
    - intros c _. apply not_elem_of_nil.
    - apply Forall_forall. intros c Hc. rewrite Hperm in Hc.
      rewrite Forall_forall in Hone. destruct (Hone c Hc) as (Hcount & items & Hin & Hcin).
      apply list_elem_of_lookup in Hin as [k Hk]. exists k, items.
      split; [done|]. split; [done|]. intros j items' Hj Hcin'.
      apply (filter_one_index (contains (encode c)) (lines_of code) j k
               (raw items') (raw items)); [done|..].
      + by rewrite Hlines, list_lookup_fmap, Hj.
      + apply entry_named; [done|apply not_elem_of_nil].
      + by rewrite Hlines, list_lookup_fmap, Hk.
      + apply entry_named; [done|apply not_elem_of_nil]. }
  assert (transform_code order code = Ok (join [LF] (bare <$> parse))) as Hrun.
  { unfold transform_code. fold (lines_of code). by rewrite Hloop. }
  exists (join [LF] (bare <$> parse)). split; [done|]. split; [done|].
  destruct (transform_code_lines _ _ _ Hrun) as (lines' & Hloop' & _ & _ & _ & Hsplit).
  rewrite Hloop in Hloop'. injection Hloop' as <-.
  split; [done|]. split.
  - intros i indent c ranges Hi. rewrite Hsplit.
    apply drop_final_empty_lookup.
    + rewrite list_lookup_fmap, Hi. cbn. by rewrite app_nil_r.
    + intros Hnil. apply (f_equal length) in Hnil. rewrite !length_app in Hnil.
      cbn in Hnil. lia.
  - apply Forall_forall. intros c Hc.
    destruct (pair_opening_facts c Hc) as (Hne & HLF & _ & _).
    rewrite contains_join by done. apply not_true_is_false.
    intros (line & Hline & Hopen)%existsb_exists.
    apply list_elem_of_In, list_elem_of_fmap in Hline as (items & -> & Hitems).
    rewrite Forall_forall in Htidy. destruct (Htidy items Hitems) as (_ & Hbare & _).
    rewrite Forall_forall in Hbare. specialize (Hbare c Hc). congruence.
Qed.

Lemma PACKED_PARSE_raw : lines_of SAMPLE_PACKED = raw <$> PACKED_PARSE.
Proof. vm_compute. reflexivity. Qed.

Lemma PACKED_PARSE_tidy : Forall tidy PACKED_PARSE.
Proof. apply (bool_decide_unpack _). vm_compute. exact I. Qed.

Lemma SAMPLE_PACKED_entries :
  Forall (fun c => length (lines_with c (lines_of SAMPLE_PACKED)) = 1 /\
                   exists items, items ∈ PACKED_PARSE /\ c ∈ categories_of items)
    CATEGORIES.
Proof.
  apply Forall_forall. intros c Hc. split.
  - revert c Hc. apply Forall_forall. apply (bool_decide_unpack _).
    vm_compute. exact I.
  - assert (Exists (fun items => c ∈ categories_of items) PACKED_PARSE) as Hex.
    { revert c Hc. apply Forall_forall. apply (bool_decide_unpack _).
      vm_compute. exact I. }
    apply Exists_exists in Hex as (items & Hin & Hcin). by exists items.
Qed.

Lemma transform_unwraps_entries_witness :
  FORMAT_FIRST ≡ₚ CATEGORIES /\
  lines_of SAMPLE_PACKED = raw <$> PACKED_PARSE /\
  Forall tidy PACKED_PARSE /\
  exists out,
    transform_code FORMAT_FIRST SAMPLE_PACKED = Ok out /\
    splitlines out !! 5 = Some (encode "  CLOSE_PUNCTUATION, CONNECTOR_PUNCTUATION,") /\
    Forall (fun c => contains (encode (pair_opening c)) out = false) CATEGORIES.
Proof.
  split; [exact FORMAT_FIRST_permutation|]. split; [exact PACKED_PARSE_raw|].
  split; [exact PACKED_PARSE_tidy|].
  destruct (transform_unwraps_entries FORMAT_FIRST SAMPLE_PACKED PACKED_PARSE
              FORMAT_FIRST_permutation PACKED_PARSE_raw PACKED_PARSE_tidy
              SAMPLE_PACKED_entries) as (out & Hrun & _ & Hsplit & _ & Hclean).
  exists out. split; [exact Hrun|]. split; [|exact Hclean].
  rewrite Hsplit. vm_compute. reflexivity.
Defined.

(** * The declaration in the returned bytes *)

Section made_facts.
Context {A : Type} `{EqDecision A}.
Implicit Types s old new : list A.

End made_facts.




